(** * Packed-dataset engine of the GCS connector demo (demo/llama/dataset.py)

    A shallow embedding of the packed binary dataset reader: the header
    parser, the per-worker shard slice, the chunk window with its
    block-index permutation, and the weighted combinator.

    Conventions.
    - Counts and indices (n_chunks, block_size, ranks, cursors) are [nat].
    - Bytes are [Byte.byte]; decoded element values are [Z].
    - A Python method on a mutable object is a function from the object's
      state to an [outcome], which carries the state as the method left it
      both on return and on raise.
    - numpy's generator, Python's [random.Random] and the float-to-int64
      cast are operations of a runtime class.
    - Python floats (the weights of the combinator and the draws of
      [random.Random]) are binary64 floats with their IEEE 754 arithmetic:
      Rocq's primitive floats. *)

From Stdlib Require Import ZArith Lia Floats.
From Stdlib Require Import Strings.Byte.
From stdpp Require Import base list strings gmap.

Local Open Scope nat_scope.

(** ** Python exceptions and outcomes *)

Inductive exn : Type :=
| StopIteration
| AssertionError
| struct_error
| KeyError
| IndexError
| UnboundLocalError
| ZeroDivisionError
| TypeError
| AttributeError
| ValueError.

Inductive outcome (S A : Type) : Type :=
| Ret (a : A) (s : S)
| Raise (e : exn) (s : S).
Arguments Ret {S A} a s.
Arguments Raise {S A} e s.

Definition final_state {S A} (o : outcome S A) : S :=
  match o with Ret _ s => s | Raise _ s => s end.

Definition map_state {S A} (f : S -> S) (o : outcome S A) : outcome S A :=
  match o with Ret a s => Ret a (f s) | Raise e s => Raise e (f s) end.

(** ** io.BytesIO *)

Module BytesIO.
Record t := mk { content : list byte; pos : nat }.

Definition new (b : list byte) : t := mk b 0.

(* read(n): at most n bytes from the position, which advances by the
   number of bytes returned *)
Definition read (n : nat) (r : t) : list byte * t :=
  let out := take n (drop (pos r) (content r)) in
  (out, mk (content r) (pos r + length out)).

(* read(): everything from the position to the end *)
Definition read_all (r : t) : list byte * t :=
  let out := drop (pos r) (content r) in
  (out, mk (content r) (pos r + length out)).

Definition seek (p : nat) (r : t) : t := mk (content r) p.
End BytesIO.

Global Instance byte_eq_decision : EqDecision byte := Byte.byte_eq_dec.

(** ** struct.unpack for the two formats used *)

Definition byte_val (b : byte) : Z := Z.of_N (Byte.to_N b).

(* little-endian unsigned value of a byte string *)
Fixpoint le_unsigned (bs : list byte) : Z :=
  match bs with
  | [] => 0%Z
  | b :: rest => (byte_val b + 256 * le_unsigned rest)%Z
  end.

(* struct.unpack("<Q", b): needs exactly 8 bytes *)
Definition unpack_Q (bs : list byte) : exn + Z :=
  if length bs =? 8 then inr (le_unsigned bs) else inl struct_error.

(* struct.unpack("<B", b): needs exactly 1 byte *)
Definition unpack_B (bs : list byte) : exn + Z :=
  if length bs =? 1 then inr (le_unsigned bs) else inl struct_error.

(** ** The dtype table *)

Inductive np_dtype : Type :=
| uint8 | int8 | int16 | int32 | int64 | float32 | float64 | uint16.

Global Instance np_dtype_eq_dec : EqDecision np_dtype.
Proof. solve_decision. Defined.

Definition dtypes : gmap Z np_dtype :=
  <[1%Z := uint8]> (<[2%Z := int8]> (<[3%Z := int16]> (<[4%Z := int32]>
  (<[5%Z := int64]> (<[6%Z := float32]> (<[7%Z := float64]>
  (<[8%Z := uint16]> ∅))))))).

Definition HDR_MAGIC : list byte := String.list_byte_of_string "LITPKDS".
Definition HDR_SIZE : nat := 24.

Definition bucket_name : string := "<YOUR-BUCKET>".

(* the byte-fetch collaborator: download_single(client, bucket, path) *)
Definition Storage : Type := string -> string -> list byte.

(** ** Methods as state-and-exception computations *)

Definition M (S A : Type) : Type := S -> outcome S A.

Definition ret {S A} (a : A) : M S A := fun s => Ret a s.
Definition raise {S A} (e : exn) : M S A := fun s => Raise e s.
Definition bind {S A B} (m : M S A) (k : A -> M S B) : M S B :=
  fun s => match m s with
           | Ret a s' => k a s'
           | Raise e s' => Raise e s'
           end.
Definition get {S} : M S S := fun s => Ret s s.
Definition modify {S} (f : S -> S) : M S unit := fun s => Ret tt (f s).

(* a partial lookup that raises [e] when it has no result *)
Definition or_raise {S A} (e : exn) (o : option A) : M S A :=
  match o with Some a => ret a | None => raise e end.

(* a pure call that may raise *)
Definition call {S A} (r : exn + A) : M S A :=
  match r with inr a => ret a | inl e => raise e end.

Notation "x <~ m ; k" := (bind m (fun x => k))
  (at level 20, m at level 100, k at level 200, only parsing).
Notation "' x <~ m ; k" := (bind m (fun x => k))
  (at level 20, x pattern, m at level 100, k at level 200, only parsing).

(* for i in idxs: body, threading the loop's local variables [l] *)
Fixpoint for_each {S L} (body : nat -> L -> M S L) (idxs : list nat) (l : L)
  : M S L :=
  match idxs with
  | [] => ret l
  | i :: rest => l' <~ body i l ; for_each body rest l'
  end.

(** ** Operations of the numpy runtime *)

Class NumpyRuntime := {
  (* numpy.random.Generator: construction from a seed, and
     Generator.permutation(n), which returns the array and advances the
     generator *)
  np_rng : Type;
  default_rng : Z -> np_rng;
  permutation : np_rng -> nat -> list nat * np_rng;
  (* the value ndarray.astype(np.int64) gives a float element, from the
     element's bytes *)
  float_to_int64 : np_dtype -> list byte -> Z
}.

(* np.random.default_rng(seed) for an int seed: a negative seed raises
   ValueError *)
Definition np_default_rng `{NumpyRuntime} (seed : Z) : exn + np_rng :=
  if (seed <? 0)%Z then inl ValueError else inr (default_rng seed).

(* the contract of Generator.permutation(n): a rearrangement of range(n) *)
Definition permutation_contract `{NumpyRuntime} : Prop :=
  forall g n, fst (permutation g n) ≡ₚ seq 0 n.

Definition itemsize (d : np_dtype) : nat :=
  match d with
  | uint8 | int8 => 1
  | int16 | uint16 => 2
  | int32 | float32 => 4
  | int64 | float64 => 8
  end.

(* np.dtype(x): None stands for the default dtype, float64 *)
Definition np_dtype_of (d : option np_dtype) : np_dtype :=
  match d with Some d => d | None => float64 end.

(* two's complement reading of a [bits]-wide unsigned value *)
Definition to_signed (bits : Z) (u : Z) : Z :=
  if (u <? 2 ^ (bits - 1))%Z then u else (u - 2 ^ bits)%Z.

(* an ndarray: its dtype is kept by the caller, its elements are the raw
   little-endian byte strings, itemsize bytes each *)
Fixpoint split_elements (size count : nat) (bs : list byte) : list (list byte) :=
  match count with
  | O => []
  | S c => take size bs :: split_elements size c (drop size bs)
  end.

(* np.frombuffer(buffer, dtype=dtype, count=count, offset=offset), count >= 0 *)
Definition frombuffer (buffer : list byte) (dtype : np_dtype)
    (count offset : nat) : exn + list (list byte) :=
  if length buffer <? offset then inl ValueError
  else if length buffer - offset <? count * itemsize dtype then inl ValueError
  else inr (split_elements (itemsize dtype) count (drop offset buffer)).

Definition element_int64 `{NumpyRuntime} (dtype : np_dtype) (bs : list byte) : Z :=
  match dtype with
  | uint8 | uint16 => le_unsigned bs
  | int8 => to_signed 8 (le_unsigned bs)
  | int16 => to_signed 16 (le_unsigned bs)
  | int32 => to_signed 32 (le_unsigned bs)
  | int64 => to_signed 64 (le_unsigned bs)
  | float32 | float64 => float_to_int64 dtype bs
  end.

(* arr.astype(np.int64) *)
Definition astype_int64 `{NumpyRuntime} (dtype : np_dtype)
    (arr : list (list byte)) : list Z :=
  map (element_int64 dtype) arr.

(* a whole buffer read as a packed array of dtype elements, each as int64:
   np.frombuffer(buffer, dtype).astype(np.int64) over the complete elements *)
Definition buffer_elements `{NumpyRuntime} (dtype : np_dtype)
    (buffer : list byte) : list Z :=
  astype_int64 dtype
    (split_elements (itemsize dtype) (length buffer / itemsize dtype) buffer).

(** ** class PackedDatasetIterator *)

Module PackedDatasetIterator.
Section Methods.
Context `{NumpyRuntime}.

Definition module_bucket_name : string := bucket_name.

Record t := mk {
  _seed : Z;
  _shuffle : bool;
  _rng : option np_rng;
  _block_idxs : list nat;
  _wrap : bool;
  _filenames : list string;
  _file_idx : nat;
  _n_chunks : nat;
  _dtype : option np_dtype;
  _chunk_size : option nat;
  _block_size : nat;
  _n_blocks : option nat;
  _mmaps : list unit;
  _buffers : list (list byte);
  _curr_idx : nat;
  storage_client : Storage;
  bucket_name : string
}.

Definition set_rng (v : option np_rng) (self : t) : t :=
  {| _seed := _seed self;
     _shuffle := _shuffle self;
     _rng := v;
     _block_idxs := _block_idxs self;
     _wrap := _wrap self;
     _filenames := _filenames self;
     _file_idx := _file_idx self;
     _n_chunks := _n_chunks self;
     _dtype := _dtype self;
     _chunk_size := _chunk_size self;
     _block_size := _block_size self;
     _n_blocks := _n_blocks self;
     _mmaps := _mmaps self;
     _buffers := _buffers self;
     _curr_idx := _curr_idx self;
     storage_client := storage_client self;
     bucket_name := bucket_name self |}.

Definition set_block_idxs (v : list nat) (self : t) : t :=
  {| _seed := _seed self;
     _shuffle := _shuffle self;
     _rng := _rng self;
     _block_idxs := v;
     _wrap := _wrap self;
     _filenames := _filenames self;
     _file_idx := _file_idx self;
     _n_chunks := _n_chunks self;
     _dtype := _dtype self;
     _chunk_size := _chunk_size self;
     _block_size := _block_size self;
     _n_blocks := _n_blocks self;
     _mmaps := _mmaps self;
     _buffers := _buffers self;
     _curr_idx := _curr_idx self;
     storage_client := storage_client self;
     bucket_name := bucket_name self |}.

Definition set_file_idx (v : nat) (self : t) : t :=
  {| _seed := _seed self;
     _shuffle := _shuffle self;
     _rng := _rng self;
     _block_idxs := _block_idxs self;
     _wrap := _wrap self;
     _filenames := _filenames self;
     _file_idx := v;
     _n_chunks := _n_chunks self;
     _dtype := _dtype self;
     _chunk_size := _chunk_size self;
     _block_size := _block_size self;
     _n_blocks := _n_blocks self;
     _mmaps := _mmaps self;
     _buffers := _buffers self;
     _curr_idx := _curr_idx self;
     storage_client := storage_client self;
     bucket_name := bucket_name self |}.

Definition set_dtype (v : option np_dtype) (self : t) : t :=
  {| _seed := _seed self;
     _shuffle := _shuffle self;
     _rng := _rng self;
     _block_idxs := _block_idxs self;
     _wrap := _wrap self;
     _filenames := _filenames self;
     _file_idx := _file_idx self;
     _n_chunks := _n_chunks self;
     _dtype := v;
     _chunk_size := _chunk_size self;
     _block_size := _block_size self;
     _n_blocks := _n_blocks self;
     _mmaps := _mmaps self;
     _buffers := _buffers self;
     _curr_idx := _curr_idx self;
     storage_client := storage_client self;
     bucket_name := bucket_name self |}.

Definition set_chunk_size (v : option nat) (self : t) : t :=
  {| _seed := _seed self;
     _shuffle := _shuffle self;
     _rng := _rng self;
     _block_idxs := _block_idxs self;
     _wrap := _wrap self;
     _filenames := _filenames self;
     _file_idx := _file_idx self;
     _n_chunks := _n_chunks self;
     _dtype := _dtype self;
     _chunk_size := v;
     _block_size := _block_size self;
     _n_blocks := _n_blocks self;
     _mmaps := _mmaps self;
     _buffers := _buffers self;
     _curr_idx := _curr_idx self;
     storage_client := storage_client self;
     bucket_name := bucket_name self |}.

Definition set_n_blocks (v : option nat) (self : t) : t :=
  {| _seed := _seed self;
     _shuffle := _shuffle self;
     _rng := _rng self;
     _block_idxs := _block_idxs self;
     _wrap := _wrap self;
     _filenames := _filenames self;
     _file_idx := _file_idx self;
     _n_chunks := _n_chunks self;
     _dtype := _dtype self;
     _chunk_size := _chunk_size self;
     _block_size := _block_size self;
     _n_blocks := v;
     _mmaps := _mmaps self;
     _buffers := _buffers self;
     _curr_idx := _curr_idx self;
     storage_client := storage_client self;
     bucket_name := bucket_name self |}.

Definition set_mmaps (v : list unit) (self : t) : t :=
  {| _seed := _seed self;
     _shuffle := _shuffle self;
     _rng := _rng self;
     _block_idxs := _block_idxs self;
     _wrap := _wrap self;
     _filenames := _filenames self;
     _file_idx := _file_idx self;
     _n_chunks := _n_chunks self;
     _dtype := _dtype self;
     _chunk_size := _chunk_size self;
     _block_size := _block_size self;
     _n_blocks := _n_blocks self;
     _mmaps := v;
     _buffers := _buffers self;
     _curr_idx := _curr_idx self;
     storage_client := storage_client self;
     bucket_name := bucket_name self |}.

Definition set_buffers (v : list (list byte)) (self : t) : t :=
  {| _seed := _seed self;
     _shuffle := _shuffle self;
     _rng := _rng self;
     _block_idxs := _block_idxs self;
     _wrap := _wrap self;
     _filenames := _filenames self;
     _file_idx := _file_idx self;
     _n_chunks := _n_chunks self;
     _dtype := _dtype self;
     _chunk_size := _chunk_size self;
     _block_size := _block_size self;
     _n_blocks := _n_blocks self;
     _mmaps := _mmaps self;
     _buffers := v;
     _curr_idx := _curr_idx self;
     storage_client := storage_client self;
     bucket_name := bucket_name self |}.

Definition set_curr_idx (v : nat) (self : t) : t :=
  {| _seed := _seed self;
     _shuffle := _shuffle self;
     _rng := _rng self;
     _block_idxs := _block_idxs self;
     _wrap := _wrap self;
     _filenames := _filenames self;
     _file_idx := _file_idx self;
     _n_chunks := _n_chunks self;
     _dtype := _dtype self;
     _chunk_size := _chunk_size self;
     _block_size := _block_size self;
     _n_blocks := _n_blocks self;
     _mmaps := _mmaps self;
     _buffers := _buffers self;
     _curr_idx := v;
     storage_client := storage_client self;
     bucket_name := bucket_name self |}.


Definition _read (path : string) (self : t)
  : exn + (np_dtype * nat * BytesIO.t) :=
  let bytes_content := storage_client self (bucket_name self) path in
  let bytes_io := BytesIO.new bytes_content in
  let '(magic, bytes_io) := BytesIO.read (length HDR_MAGIC) bytes_io in
  if negb (bool_decide (magic = HDR_MAGIC)) then inl AssertionError else
  let '(b, bytes_io) := BytesIO.read 8 bytes_io in
  match unpack_Q b with
  | inl e => inl e
  | inr version =>
    if negb (bool_decide (version = 1%Z)) then inl AssertionError else
    let '(b, bytes_io) := BytesIO.read 1 bytes_io in
    match unpack_B b with
    | inl e => inl e
    | inr dtype_code =>
      match dtypes !! dtype_code with
      | None => inl KeyError
      | Some dtype =>
        let '(b, bytes_io) := BytesIO.read 8 bytes_io in
        match unpack_Q b with
        | inl e => inl e
        | inr chunk_size => inr (dtype, Z.to_nat chunk_size, bytes_io)
        end
      end
    end
  end.

(* self._mmaps is never filled, the loop closes nothing *)
Definition _close_mmaps : M t unit :=
  self <~ get ;
  for_each (fun _ (_ : unit) => ret tt) (seq 0 (length (_mmaps self))) tt.

(* one iteration of the loop of _load_n_chunks; the loop's local
   variable bytes_io is None while it is unbound *)
Definition load_body (i : nat) (bytes_io : option BytesIO.t)
  : M t (option BytesIO.t) :=
  self <~ get ;
  filename <~ or_raise IndexError (_filenames self !! (_file_idx self + i)) ;
  bytes_io <~
    match _dtype self with
    | None =>
      ' (dtype, chunk_size, bytes_io) <~ call (_read filename self) ;
      _ <~ modify (set_dtype (Some dtype)) ;
      _ <~ modify (set_chunk_size (Some chunk_size)) ;
      _ <~ (if _block_size self =? 0 then raise ZeroDivisionError
            else modify (set_n_blocks (Some (chunk_size / _block_size self)))) ;
      ret (Some bytes_io)
    | Some _ => ret bytes_io
    end ;
  bytes_io <~ or_raise UnboundLocalError bytes_io ;
  let bytes_io := BytesIO.seek HDR_SIZE bytes_io in
  let '(data, bytes_io) := BytesIO.read_all bytes_io in
  _ <~ modify (fun self => set_buffers (_buffers self ++ [data]) self) ;
  ret (Some bytes_io).

Definition _load_n_chunks : M t unit :=
  _ <~ _close_mmaps ;
  _ <~ modify (set_mmaps []) ;
  _ <~ modify (set_buffers []) ;
  self <~ get ;
  _ <~ (if length (drop (_file_idx self) (_filenames self)) <? _n_chunks self
        then if negb (_wrap self) then raise StopIteration
             else modify (set_file_idx 0)
        else ret tt) ;
  _ <~ for_each load_body (seq 0 (_n_chunks self)) None ;
  _ <~ modify (fun self => set_file_idx (_file_idx self + _n_chunks self) self) ;
  self <~ get ;
  n_blocks <~ or_raise TypeError (_n_blocks self) ;
  let n_all_blocks := _n_chunks self * n_blocks in
  _ <~ (if _shuffle self then
          rng <~ or_raise AttributeError (_rng self) ;
          let '(idxs, rng) := permutation rng n_all_blocks in
          _ <~ modify (set_rng (Some rng)) ;
          modify (set_block_idxs idxs)
        else modify (set_block_idxs (seq 0 n_all_blocks))) ;
  modify (set_curr_idx 0).

(* the constructor: the generator is made first (line 86), and a raise
   there ends the constructor before any file is looked at; the state
   carried with that raise is the object without a generator *)
Definition __init__ (client : Storage) (filenames : list string)
    (n_chunks block_size : nat) (seed : Z) (shuffle wrap : bool)
  : outcome t unit :=
  let self rng :=
    {| _seed := seed;
       _shuffle := shuffle;
       _rng := rng;
       _block_idxs := [];
       _wrap := wrap;
       _filenames := filenames;
       _file_idx := 0;
       _n_chunks := n_chunks;
       _dtype := None;
       _chunk_size := None;
       _block_size := block_size;
       _n_blocks := None;
       _mmaps := [];
       _buffers := [];
       _curr_idx := 0;
       storage_client := client;
       bucket_name := module_bucket_name |} in
  if shuffle then
    match np_default_rng seed with
    | inl e => Raise e (self None)
    | inr rng => _load_n_chunks (self (Some rng))
    end
  else _load_n_chunks (self None).

(* len(self._block_idxs) is the length of the sequence, without the bound
   of Py_ssize_t that len() has on a range *)
Definition __next__ : M t (list Z) :=
  self <~ get ;
  _ <~ (if length (_block_idxs self) <=? _curr_idx self then _load_n_chunks
        else ret tt) ;
  self <~ get ;
  block_idx <~ or_raise IndexError (_block_idxs self !! _curr_idx self) ;
  n_blocks <~ or_raise TypeError (_n_blocks self) ;
  _ <~ (if n_blocks =? 0 then raise ZeroDivisionError else ret tt) ;
  let chunk_id := block_idx / n_blocks in
  buffer <~ or_raise IndexError (_buffers self !! chunk_id) ;
  let elem_id := (block_idx mod n_blocks) * _block_size self in
  let dtype := np_dtype_of (_dtype self) in
  let offset := itemsize dtype * elem_id in
  arr <~ call (frombuffer buffer dtype (_block_size self) offset) ;
  _ <~ modify (fun self => set_curr_idx (_curr_idx self + 1) self) ;
  ret (astype_int64 dtype arr).

(** *** Views of the loading code used by the proofs *)

(* the fields the loading loop never assigns *)
Definition loop_frame (s s' : t) : Prop :=
  _seed s' = _seed s /\ _shuffle s' = _shuffle s /\ _rng s' = _rng s
  /\ _block_idxs s' = _block_idxs s /\ _wrap s' = _wrap s
  /\ _filenames s' = _filenames s /\ _file_idx s' = _file_idx s
  /\ _n_chunks s' = _n_chunks s /\ _block_size s' = _block_size s
  /\ _mmaps s' = _mmaps s /\ _curr_idx s' = _curr_idx s
  /\ storage_client s' = storage_client s /\ bucket_name s' = bucket_name s.

(* what read() after seek(HDR_SIZE) leaves of a reader *)
Definition rewound (r : BytesIO.t) : BytesIO.t :=
  snd (BytesIO.read_all (BytesIO.seek HDR_SIZE r)).

(* the state _load_n_chunks enters its loop in, when it does *)
Definition pre_loop (s : t) : t :=
  let s0 := set_buffers [] (set_mmaps [] s) in
  if length (drop (_file_idx s) (_filenames s)) <? _n_chunks s
  then set_file_idx 0 s0 else s0.

(* what holds of an iterator once its constructor has returned: the dtype
   is locked and the shard has room for a window *)
Definition constructed (s : t) : Prop :=
  is_Some (_dtype s) /\ 1 <= _n_chunks s
  /\ _n_chunks s <= length (_filenames s).

(* the same iterator over another storage client *)
Definition with_client (client : Storage) (s : t) : t :=
  {| _seed := _seed s;
     _shuffle := _shuffle s;
     _rng := _rng s;
     _block_idxs := _block_idxs s;
     _wrap := _wrap s;
     _filenames := _filenames s;
     _file_idx := _file_idx s;
     _n_chunks := _n_chunks s;
     _dtype := _dtype s;
     _chunk_size := _chunk_size s;
     _block_size := _block_size s;
     _n_blocks := _n_blocks s;
     _mmaps := _mmaps s;
     _buffers := _buffers s;
     _curr_idx := _curr_idx s;
     storage_client := client;
     bucket_name := bucket_name s |}.

(* a client that serves the files of the iterator's shard as its own does *)
Definition serves_alike (client : Storage) (s : t) : Prop :=
  forall f, f ∈ _filenames s ->
            client (bucket_name s) f = storage_client s (bucket_name s) f.

(* the last phase of _load_n_chunks: cursor, block indices, read cursor *)
Definition window_of (s2 : t) : outcome t unit :=
  let s3 := set_file_idx (_file_idx s2 + _n_chunks s2) s2 in
  match _n_blocks s3 with
  | None => Raise TypeError s3
  | Some n_blocks =>
    let n_all_blocks := _n_chunks s3 * n_blocks in
    if _shuffle s3 then
      match _rng s3 with
      | None => Raise AttributeError s3
      | Some g =>
        Ret tt (set_curr_idx 0
                  (set_block_idxs (fst (permutation g n_all_blocks))
                     (set_rng (Some (snd (permutation g n_all_blocks))) s3)))
      end
    else Ret tt (set_curr_idx 0 (set_block_idxs (seq 0 n_all_blocks) s3))
  end.
End Methods.
End PackedDatasetIterator.

(** ** List slicing with non-negative bounds: l[start:stop:step] *)

Definition py_slice {A} (l : list A) (start stop step : nat) : exn + list A :=
  if step =? 0 then inl ValueError else
  let n := length l in
  let start := start `min` n in
  let stop := stop `min` n in
  let slicelength :=
    if start <? stop then (stop - start - 1) / step + 1 else 0 in
  inr (omap (fun i => l !! (start + i * step)) (seq 0 slicelength)).

(* the positions of the file list a shard is made of *)
Definition shard_positions (n num_shards shard_id : nat) : list nat :=
  (fun j => shard_id + j * num_shards) <$> seq 0 (n / num_shards).

(* the slice of line 69, taken for a shard *)
Definition shard_of (filenames : list string) (num_shards shard_id : nat)
  : list string :=
  match py_slice filenames shard_id
          (length filenames / num_shards * num_shards) num_shards with
  | inr files => files
  | inl _ => []
  end.

(** ** class PackedDataset *)

Module PackedDataset.
Section Methods.
Context `{NumpyRuntime}.

Record t := mk {
  _filenames : list string;
  _n_chunks : nat;
  _block_size : nat;
  _seed : Z;
  _shuffle : bool;
  _wrap : bool;
  _num_processes : nat;
  _process_rank : nat
}.

(* the constructor's defaults *)
Definition __init__ (filenames : list string) (n_chunks block_size : nat) : t :=
  mk filenames n_chunks block_size 12345 true false 1 0.

(* what torch's get_worker_info() returns inside a dataloader worker *)
Record WorkerInfo := { num_workers : nat; id : nat }.

Definition num_shards (worker_info : option WorkerInfo) (self : t) : nat :=
  let num_workers :=
    match worker_info with Some w => num_workers w | None => 1 end in
  num_workers * _num_processes self.

Definition shard_id (worker_info : option WorkerInfo) (self : t) : nat :=
  let num_workers :=
    match worker_info with Some w => num_workers w | None => 1 end in
  let worker_id := match worker_info with Some w => id w | None => 0 end in
  _process_rank self * num_workers + worker_id.

(* the file list __iter__ hands to the iterator (lines 62 to 69) *)
Definition shard_filenames (worker_info : option WorkerInfo) (self : t)
  : exn + list string :=
  let num_shards := num_shards worker_info self in
  let shard_id := shard_id worker_info self in
  if num_shards =? 0 then inl ZeroDivisionError else
  let max_num_files := length (_filenames self) / num_shards * num_shards in
  py_slice (_filenames self) shard_id max_num_files num_shards.

Definition __iter__ (client : Storage) (worker_info : option WorkerInfo)
    (self : t) : exn + PackedDatasetIterator.t :=
  match shard_filenames worker_info self with
  | inl e => inl e
  | inr filenames =>
    match PackedDatasetIterator.__init__ client filenames
            (_n_chunks self) (_block_size self) (_seed self)
            (_shuffle self) (_wrap self) with
    | Ret _ it => inr it
    | Raise e _ => inl e
    end
  end.
End Methods.
End PackedDataset.

(** ** Python's random.Random and float arithmetic *)

Class PyRandom := {
  py_rng : Type;
  Random : Z -> py_rng;
  (* Random.random(): the next float of the stream *)
  random : py_rng -> float * py_rng
}.


(* float(n) for an int n below 2^53, where the conversion is exact *)
Definition float_of_nat (n : nat) : float :=
  PrimFloat.of_uint63 (Uint63.of_Z (Z.of_nat n)).

(* itertools.accumulate(weights): the running sums, added left to right *)
Fixpoint accumulate_from (acc : float) (ws : list float) : list float :=
  match ws with
  | [] => []
  | w :: rest => (acc + w)%float :: accumulate_from (acc + w)%float rest
  end.

Definition accumulate (ws : list float) : list float :=
  match ws with
  | [] => []
  | w :: rest => w :: accumulate_from w rest
  end.

(* bisect.bisect_right(a, x, lo, hi): the loop runs at most hi - lo times *)
Fixpoint bisect_loop (fuel : nat) (a : list float) (x : float) (lo hi : nat)
  : exn + nat :=
  match fuel with
  | O => inr lo
  | S fuel =>
    if lo <? hi then
      let mid := (lo + hi) / 2 in
      match a !! mid with
      | None => inl IndexError
      | Some a_mid =>
        if (x <? a_mid)%float then bisect_loop fuel a x lo mid
        else bisect_loop fuel a x (mid + 1) hi
      end
    else inr lo
  end.

Definition bisect (a : list float) (x : float) (lo hi : nat) : exn + nat :=
  bisect_loop (hi - lo) a x lo hi.

(* Random.choices(population, weights=weights, k=1) of CPython 3.9 and
   later, for a population of n entries and a list of float weights; the
   result is the position of the chosen entry *)
Definition choices `{PyRandom} (n : nat) (weights : list float)
  : M py_rng nat :=
  let cum_weights := accumulate weights in
  if negb (length cum_weights =? n) then raise ValueError else
  last_cum <~ or_raise IndexError (last cum_weights) ;
  let total := (last_cum + 0)%float in
  if (total <=? 0)%float then raise ValueError else
  if negb (is_finite total) then raise ValueError else
  let hi := n - 1 in
  g <~ get ;
  let '(u, g) := random g in
  _ <~ modify (fun _ => g) ;
  call (bisect cum_weights (u * total)%float 0 hi).

(** ** The iterable protocol of the combined datasets *)

Definition sample : Type := list Z.

Class Iterable (D I : Type) := {
  py_iter : D -> exn + I;
  py_next : M I sample
}.
Arguments py_next {D I _}.

(* [iter(el) for el in datasets] *)
Fixpoint iter_all {D I} `{Iterable D I} (datasets : list D) : exn + list I :=
  match datasets with
  | [] => inr []
  | el :: rest =>
    match py_iter el with
    | inl e => inl e
    | inr it =>
      match iter_all rest with
      | inl e => inl e
      | inr its => inr (it :: its)
      end
    end
  end.

(** ** class CombinedDatasetIterator *)

Module CombinedDatasetIterator.
Section Methods.
Context `{PyRandom} {D I : Type} `{Iterable D I}.

Record t := mk {
  _datasets : list I;
  _weights : list float;
  _rng : py_rng
}.

Definition __init__ (datasets : list D) (seed : Z) (weights : list float)
  : exn + t :=
  match iter_all datasets with
  | inl e => inl e
  | inr its => inr (mk its weights (Random seed))
  end.

Definition __next__ : M t sample :=
  fun self =>
    match choices (length (_datasets self)) (_weights self) (_rng self) with
    | Raise e g => Raise e (mk (_datasets self) (_weights self) g)
    | Ret idx g =>
      match _datasets self !! idx with
      | None => Raise IndexError (mk (_datasets self) (_weights self) g)
      | Some dataset =>
        match py_next dataset with
        | Ret x dataset' =>
          Ret x (mk (<[idx := dataset']> (_datasets self)) (_weights self) g)
        | Raise e dataset' =>
          Raise e (mk (<[idx := dataset']> (_datasets self)) (_weights self) g)
        end
      end
    end.
End Methods.
End CombinedDatasetIterator.

(** ** class CombinedDataset *)

Module CombinedDataset.
Section Methods.
Context `{PyRandom} {D I : Type} `{Iterable D I}.

Record t := mk {
  _seed : Z;
  _datasets : list D;
  _weights : list float
}.

(* 1 / n_datasets divides two ints: the correctly rounded quotient, which
   for a list length (below 2^53) is the float division of the exactly
   converted operands *)
Definition __init__ (datasets : list D) (seed : Z)
    (weights : option (list float)) : exn + t :=
  let n_datasets := length datasets in
  match weights with
  | Some ws => inr (mk seed datasets ws)
  | None =>
    if n_datasets =? 0 then inl ZeroDivisionError
    else inr (mk seed datasets
                (replicate n_datasets (1 / float_of_nat n_datasets)%float))
  end.

Definition __iter__ (self : t) : exn + CombinedDatasetIterator.t :=
  CombinedDatasetIterator.__init__ (_datasets self) (_seed self) (_weights self).
End Methods.
End CombinedDataset.

(* PackedDataset under a given storage client and worker identity *)
Definition PackedDataset_Iterable `{NumpyRuntime} (client : Storage)
    (worker_info : option PackedDataset.WorkerInfo)
  : Iterable PackedDataset.t PackedDatasetIterator.t :=
  {| py_iter := PackedDataset.__iter__ client worker_info;
     py_next := PackedDatasetIterator.__next__ |}.

(* the clients serve every file of a list alike *)
Definition same_files (client1 client2 : Storage) (filenames : list string)
  : Prop :=
  forall bucket path, path ∈ filenames -> client1 bucket path = client2 bucket path.

(* a combinator whose child iterators read through another client *)
Definition reclient `{NumpyRuntime} `{PyRandom} (client : Storage)
    (self : CombinedDatasetIterator.t (I := PackedDatasetIterator.t))
  : CombinedDatasetIterator.t :=
  CombinedDatasetIterator.mk
    (PackedDatasetIterator.with_client client
       <$> CombinedDatasetIterator._datasets self)
    (CombinedDatasetIterator._weights self)
    (CombinedDatasetIterator._rng self).

(** ** Running an iterator *)

(* the first n results of repeated next(); the run ends at the first raise *)
Fixpoint take_samples {S} (next : M S sample) (n : nat) (it : S)
  : list (exn + sample) :=
  match n with
  | O => []
  | S n =>
    match next it with
    | Ret x it' => inr x :: take_samples next n it'
    | Raise e _ => [inl e]
    end
  end.

(* the iterator as n calls of next() leave it; the run ends at the first
   raise *)
Fixpoint state_after {S} (next : M S sample) (n : nat) (it : S) : S :=
  match n with
  | O => it
  | S n =>
    match next it with
    | Ret _ it' => state_after next n it'
    | Raise _ it' => it'
    end
  end.

(* the samples among the results of a run *)
Definition samples_of (run : list (exn + sample)) : list sample :=
  omap (fun r => match r with inr x => Some x | inl _ => None end) run.

(* spawn an iterator and run it; a spawn that raises is a run of that raise *)
Definition spawn_and_take {S} (spawn : exn + S) (next : M S sample) (n : nat)
  : list (exn + sample) :=
  match spawn with
  | inl e => [inl e]
  | inr it => take_samples next n it
  end.

(** ** The header contract in the words of the format description *)

Definition magic_field (b : list byte) : list byte := take 7 b.
Definition version_field (b : list byte) : list byte := take 8 (drop 7 b).
Definition dtype_field (b : list byte) : list byte := take 1 (drop 15 b).
Definition count_field (b : list byte) : list byte := take 8 (drop 16 b).

(* the three violations the format description names *)
Definition header_violation (b : list byte) : Prop :=
  magic_field b ≠ HDR_MAGIC
  ∨ le_unsigned (version_field b) ≠ 1%Z
  ∨ dtypes !! le_unsigned (dtype_field b) = None.

(* the content the byte-fetch collaborator returns an iterator for a path *)
Definition fetched `{NumpyRuntime} (path : string)
    (self : PackedDatasetIterator.t) : list byte :=
  PackedDatasetIterator.storage_client self
    (PackedDatasetIterator.bucket_name self) path.

(* the Python exceptions a malformed header raises *)
Definition format_error (e : exn) : Prop :=
  e = AssertionError \/ e = struct_error \/ e = KeyError.

(* the exceptions the loading loop can raise *)
Definition loop_error (e : exn) : Prop :=
  e = IndexError \/ e = UnboundLocalError \/ e = ZeroDivisionError
  \/ format_error e.

(** ** def code(dtype), and headers that carry a code *)

(* the keys of the dtype table, in the order the dict holds them *)
Definition dtypes_keys : list Z := [1; 2; 3; 4; 5; 6; 7; 8]%Z.

(* for k in dtypes.keys(): if dtypes[k] == dtype: return k; the loop of
   code(dtype) over the keys still to visit, and the raise after it *)
Fixpoint code_loop (keys : list Z) (dtype : np_dtype) : exn + Z :=
  match keys with
  | [] => inl ValueError
  | k :: rest =>
    match dtypes !! k with
    | None => inl KeyError
    | Some d => if bool_decide (d = dtype) then inr k else code_loop rest dtype
    end
  end.

Definition code (dtype : np_dtype) : exn + Z := code_loop dtypes_keys dtype.

(* the byte of value v mod 256 *)
Definition byte_of (v : Z) : byte :=
  default x00 (Byte.of_N (Z.to_N (v mod 256))).

(* the size low-order bytes of v, least significant first *)
Fixpoint le_bytes (size : nat) (v : Z) : list byte :=
  match size with
  | O => []
  | S size => byte_of v :: le_bytes size (v / 256)
  end.

(* a header as _read takes it apart: the magic, then version 1, a dtype
   code and an element count, as little-endian fields of 8, 1 and 8 bytes *)
Definition header_for (dtype_code chunk_size : Z) : list byte :=
  HDR_MAGIC ++ le_bytes 8 1 ++ le_bytes 1 dtype_code ++ le_bytes 8 chunk_size.

(** ** Views of an iterator's life used by the properties *)

(* what an iterator is configured with *)
Definition same_config `{NumpyRuntime} (s s' : PackedDatasetIterator.t) : Prop :=
  PackedDatasetIterator._seed s' = PackedDatasetIterator._seed s
  /\ PackedDatasetIterator._shuffle s' = PackedDatasetIterator._shuffle s
  /\ PackedDatasetIterator._wrap s' = PackedDatasetIterator._wrap s
  /\ PackedDatasetIterator._filenames s' = PackedDatasetIterator._filenames s
  /\ PackedDatasetIterator._n_chunks s' = PackedDatasetIterator._n_chunks s
  /\ PackedDatasetIterator._block_size s' = PackedDatasetIterator._block_size s
  /\ PackedDatasetIterator.storage_client s'
     = PackedDatasetIterator.storage_client s
  /\ PackedDatasetIterator.bucket_name s' = PackedDatasetIterator.bucket_name s.

(* the object the constructor builds before its first load *)
Definition fresh `{NumpyRuntime} (client : Storage) (filenames : list string)
    (n_chunks block_size : nat) (seed : Z) (shuffle wrap : bool)
  : PackedDatasetIterator.t :=
  {| PackedDatasetIterator._seed := seed;
     PackedDatasetIterator._shuffle := shuffle;
     PackedDatasetIterator._rng :=
       if shuffle then Some (default_rng seed) else None;
     PackedDatasetIterator._block_idxs := [];
     PackedDatasetIterator._wrap := wrap;
     PackedDatasetIterator._filenames := filenames;
     PackedDatasetIterator._file_idx := 0;
     PackedDatasetIterator._n_chunks := n_chunks;
     PackedDatasetIterator._dtype := None;
     PackedDatasetIterator._chunk_size := None;
     PackedDatasetIterator._block_size := block_size;
     PackedDatasetIterator._n_blocks := None;
     PackedDatasetIterator._mmaps := [];
     PackedDatasetIterator._buffers := [];
     PackedDatasetIterator._curr_idx := 0;
     PackedDatasetIterator.storage_client := client;
     PackedDatasetIterator.bucket_name := bucket_name |}.

(* a size that CPython and numpy hold in a signed 64-bit word
   (Py_ssize_t): what len() can return, and the byte size of an array or of
   an offset into a buffer; memory itself is not bounded here *)
Definition fits_ssize (n : nat) : Prop := (Z.of_nat n < 2 ^ 63)%Z.

(* the values locked from the first header *)
Definition same_lock `{NumpyRuntime} (s s' : PackedDatasetIterator.t) : Prop :=
  PackedDatasetIterator._dtype s' = PackedDatasetIterator._dtype s
  /\ PackedDatasetIterator._chunk_size s' = PackedDatasetIterator._chunk_size s
  /\ PackedDatasetIterator._n_blocks s' = PackedDatasetIterator._n_blocks s.

(* block j of a payload read as an array of dtype elements *)
Definition block_of `{NumpyRuntime} (dtype : np_dtype) (payload : list byte)
    (block_size j : nat) : sample :=
  take block_size (drop (j * block_size) (buffer_elements dtype payload)).

(* a constructed iterator whose window is n_chunks copies of one payload,
   with block indices inside the window *)
Definition window_ok `{NumpyRuntime} (payload : list byte) (n_blocks : nat)
    (s : PackedDatasetIterator.t) : Prop :=
  PackedDatasetIterator.constructed s
  /\ PackedDatasetIterator._n_blocks s = Some n_blocks
  /\ PackedDatasetIterator._buffers s
     = replicate (PackedDatasetIterator._n_chunks s) payload
  /\ Forall (fun b => b < PackedDatasetIterator._n_chunks s * n_blocks)
       (PackedDatasetIterator._block_idxs s).

(* what a next() past the window raises *)
Definition end_of_window `{NumpyRuntime} (s : PackedDatasetIterator.t) : exn :=
  if (length (drop (PackedDatasetIterator._file_idx s)
                (PackedDatasetIterator._filenames s))
      <? PackedDatasetIterator._n_chunks s)
     && negb (PackedDatasetIterator._wrap s)
  then StopIteration else UnboundLocalError.

(* the blocks an iterator still has to serve *)
Definition remaining `{NumpyRuntime} (s : PackedDatasetIterator.t) : nat :=
  length (PackedDatasetIterator._block_idxs s)
  - PackedDatasetIterator._curr_idx s.

(* the blocks the children of a combinator still have to serve *)
Definition total_remaining `{NumpyRuntime}
    (its : list PackedDatasetIterator.t) : nat :=
  sum_list (remaining <$> its).

(* the value range of an integer dtype *)
Definition int_range (d : np_dtype) : option (Z * Z) :=
  match d with
  | uint8 => Some (0, 2 ^ 8 - 1)
  | int8 => Some (- 2 ^ 7, 2 ^ 7 - 1)
  | int16 => Some (- 2 ^ 15, 2 ^ 15 - 1)
  | int32 => Some (- 2 ^ 31, 2 ^ 31 - 1)
  | int64 => Some (- 2 ^ 63, 2 ^ 63 - 1)
  | uint16 => Some (0, 2 ^ 16 - 1)
  | float32 | float64 => None
  end%Z.

(** ** A concrete runtime and corpus for examples *)

Definition demo_numpy : NumpyRuntime :=
  {| np_rng := nat;
     default_rng := fun seed => Z.to_nat seed;
     permutation := fun g n => (rotate g (seq 0 n), S g);
     float_to_int64 := fun _ _ => 0%Z |}.

Definition demo_random : PyRandom :=
  {| py_rng := nat;
     Random := fun seed => Z.to_nat seed;
     random := fun g => ((float_of_nat (g mod 4) / 4)%float, S g) |}.

(* a generator that replays a list of draws *)
Definition scripted_random : PyRandom :=
  {| py_rng := list float;
     Random := fun _ => [];
     random := fun g => (hd 0%float g, tl g) |}.

(* a packed file header: version 1, the given dtype code and element count *)
Definition demo_header (code count : byte) : list byte :=
  HDR_MAGIC ++ [x01; x00; x00; x00; x00; x00; x00; x00] ++ [code]
            ++ [count; x00; x00; x00; x00; x00; x00; x00].

(* four uint8 elements, the first one tagging the file *)
Definition demo_payload (tag : byte) : list byte := [tag; x01; x02; x03].

Definition demo_storage : Storage :=
  fun _ path =>
    if bool_decide (path = "f0") then demo_header x01 x04 ++ demo_payload xa0
    else if bool_decide (path = "f1") then demo_header x01 x04 ++ demo_payload xa1
    else if bool_decide (path = "f2") then demo_header x01 x04 ++ demo_payload xa2
    else if bool_decide (path = "f3") then demo_header x01 x04 ++ demo_payload xa3
    else if bool_decide (path = "short") then take 23 (demo_header x01 x04)
    else [].

(* a second client: the same files, and one more *)
Definition demo_mirror : Storage :=
  fun bucket path =>
    if bool_decide (path = "extra") then demo_header x01 x04 ++ demo_payload xff
    else demo_storage bucket path.

(* an iterator object before its constructor's first load *)
Definition demo_iterator `{NumpyRuntime} (client : Storage)
    (filenames : list string) (n_chunks block_size : nat) (wrap : bool)
  : PackedDatasetIterator.t :=
  {| PackedDatasetIterator._seed := 0;
     PackedDatasetIterator._shuffle := false;
     PackedDatasetIterator._rng := None;
     PackedDatasetIterator._block_idxs := [];
     PackedDatasetIterator._wrap := wrap;
     PackedDatasetIterator._filenames := filenames;
     PackedDatasetIterator._file_idx := 0;
     PackedDatasetIterator._n_chunks := n_chunks;
     PackedDatasetIterator._dtype := None;
     PackedDatasetIterator._chunk_size := None;
     PackedDatasetIterator._block_size := block_size;
     PackedDatasetIterator._n_blocks := None;
     PackedDatasetIterator._mmaps := [];
     PackedDatasetIterator._buffers := [];
     PackedDatasetIterator._curr_idx := 0;
     PackedDatasetIterator.storage_client := client;
     PackedDatasetIterator.bucket_name := bucket_name |}.


(** ** Proof automation *)

Ltac unfold_monad :=
  cbv beta iota zeta delta [bind ret raise get modify or_raise call] in *.

(* projections of updated iterator states *)
Ltac fields :=
  cbn [PackedDatasetIterator._seed PackedDatasetIterator._shuffle
       PackedDatasetIterator._rng PackedDatasetIterator._block_idxs
       PackedDatasetIterator._wrap PackedDatasetIterator._filenames
       PackedDatasetIterator._file_idx PackedDatasetIterator._n_chunks
       PackedDatasetIterator._dtype PackedDatasetIterator._chunk_size
       PackedDatasetIterator._block_size PackedDatasetIterator._n_blocks
       PackedDatasetIterator._mmaps PackedDatasetIterator._buffers
       PackedDatasetIterator._curr_idx PackedDatasetIterator.storage_client
       PackedDatasetIterator.bucket_name
       PackedDatasetIterator.set_rng PackedDatasetIterator.set_block_idxs
       PackedDatasetIterator.set_file_idx PackedDatasetIterator.set_dtype
       PackedDatasetIterator.set_chunk_size PackedDatasetIterator.set_n_blocks
       PackedDatasetIterator.set_mmaps PackedDatasetIterator.set_buffers
       PackedDatasetIterator.set_curr_idx
       PackedDatasetIterator.with_client] in *.

(** * Properties *)

Section Header.
Context `{NumpyRuntime}.
Import PackedDatasetIterator.

Lemma dtypes_lookup (c : Z) (d : np_dtype) :
  dtypes !! c = Some d <->
  (c = 1 /\ d = uint8)%Z \/ (c = 2 /\ d = int8)%Z \/ (c = 3 /\ d = int16)%Z
  \/ (c = 4 /\ d = int32)%Z \/ (c = 5 /\ d = int64)%Z \/ (c = 6 /\ d = float32)%Z
  \/ (c = 7 /\ d = float64)%Z \/ (c = 8 /\ d = uint16)%Z.
Proof.
  unfold dtypes.
  rewrite !lookup_insert_Some, lookup_empty.
  split; intros Hc.
  - repeat (destruct Hc as [[<- <-]|[? Hc]]; [tauto|]). discriminate.
  - intuition (subst; try tauto; try lia).
    all: repeat (first [left; split; [reflexivity|reflexivity] | right; split; [lia|]]).
Qed.

Lemma dtypes_lookup_None (c : Z) :
  dtypes !! c = None <-> (c < 1 \/ 8 < c)%Z.
Proof.
  unfold dtypes.
  rewrite !lookup_insert_None, lookup_empty. intuition lia.
Qed.


Lemma read_within (n p : nat) (b : list byte) :
  p + n <= length b ->
  BytesIO.read n (BytesIO.mk b p) = (take n (drop p b), BytesIO.mk b (p + n)).
Proof.
  intros Hn. unfold BytesIO.read. cbn [BytesIO.pos BytesIO.content].
  rewrite length_take, length_drop. do 2 f_equal. lia.
Qed.

(* a header that parses is a complete one *)
Lemma _read_complete (path : string) (self : t) x :
  _read path self = inr x -> 24 <= length (fetched path self).
Proof.
  unfold _read, fetched.
  set (b := storage_client self (bucket_name self) path).
  unfold BytesIO.read, BytesIO.new, unpack_Q, unpack_B.
  cbn [BytesIO.pos BytesIO.content].
  case_bool_decide as Hm; cbn [negb]; [|discriminate].
  apply (f_equal length) in Hm. change (length HDR_MAGIC) with 7 in *.
  destruct (Nat.eqb_spec (length (take 8 (drop (0 + length (take 7 (drop 0 b))) b))) 8)
    as [E8|]; [|discriminate].
  case_bool_decide; cbn [negb]; [|discriminate].
  match goal with |- context [length (take 1 ?l) =? 1] =>
    destruct (Nat.eqb_spec (length (take 1 l)) 1) as [E1|]; [|discriminate] end.
  destruct (dtypes !! _); [|discriminate].
  match goal with |- context [length (take 8 ?l) =? 8] =>
    destruct (Nat.eqb_spec (length (take 8 l)) 8) as [E8'|]; [|discriminate] end.
  intros _.
  repeat match goal with
         | H : context [length (take _ _)] |- _ => rewrite length_take in H
         | H : context [length (drop _ _)] |- _ => rewrite length_drop in H
         end.
  lia.
Qed.

Lemma _read_ok (path : string) (self : t) d n r :
  _read path self = inr (d, n, r) <->
  24 <= length (fetched path self)
  /\ magic_field (fetched path self) = HDR_MAGIC
  /\ le_unsigned (version_field (fetched path self)) = 1%Z
  /\ dtypes !! le_unsigned (dtype_field (fetched path self)) = Some d
  /\ n = Z.to_nat (le_unsigned (count_field (fetched path self)))
  /\ r = BytesIO.mk (fetched path self) HDR_SIZE.
Proof.
  destruct (decide (24 <= length (fetched path self))) as [Hlen|Hlen].
  2:{ split; [intros Hr; apply _read_complete in Hr; lia | tauto]. }
  unfold _read, magic_field, version_field, dtype_field, count_field.
  fold (fetched path self). set (b := fetched path self) in *.
  unfold BytesIO.new. change (length HDR_MAGIC) with 7.
  rewrite (read_within 7 0) by lia. rewrite drop_0. cbn [Nat.add].
  case_bool_decide as Hm; cbn [negb]; [|split; [discriminate | tauto]].
  rewrite (read_within 8 7) by lia. cbn [Nat.add].
  unfold unpack_Q at 1. rewrite length_take, length_drop.
  replace (8 `min` (length b - 7) =? 8) with true by (symmetry; apply Nat.eqb_eq; lia).
  case_bool_decide as Hv; cbn [negb]; [|split; [discriminate | tauto]].
  rewrite (read_within 1 15) by lia. cbn [Nat.add].
  unfold unpack_B. rewrite length_take, length_drop.
  replace (1 `min` (length b - 15) =? 1) with true by (symmetry; apply Nat.eqb_eq; lia).
  destruct (dtypes !! le_unsigned (take 1 (drop 15 b))) as [d'|] eqn:Hd.
  2:{ split; [discriminate | intros (_ & _ & _ & ? & _); discriminate]. }
  rewrite (read_within 8 16) by lia. cbn [Nat.add].
  unfold unpack_Q. rewrite length_take, length_drop.
  replace (8 `min` (length b - 16) =? 8) with true by (symmetry; apply Nat.eqb_eq; lia).
  unfold HDR_SIZE. split.
  - intros [= <- <- <-]. repeat split; auto.
  - intros (_ & _ & _ & [= <-] & -> & ->). reflexivity.
Qed.

Lemma _read_raises (path : string) (self : t) e :
  _read path self = inl e -> format_error e.
Proof.
  unfold _read, unpack_Q, unpack_B, format_error.
  repeat match goal with
         | |- context [BytesIO.read ?n ?r] => destruct (BytesIO.read n r)
         | |- context [if ?c then _ else _] => destruct c
         | |- context [match ?o with Some _ => _ | None => _ end] => destruct o
         end; intros [= <-]; tauto.
Qed.

Lemma not_header_violation (b : list byte) :
  ~ header_violation b <->
  magic_field b = HDR_MAGIC /\ le_unsigned (version_field b) = 1%Z
  /\ is_Some (dtypes !! le_unsigned (dtype_field b)).
Proof.
  unfold header_violation.
  destruct (decide (magic_field b = HDR_MAGIC)),
    (decide (le_unsigned (version_field b) = 1%Z)),
    (dtypes !! le_unsigned (dtype_field b)) eqn:Hd; split;
    rewrite ?is_Some_alt; try tauto; try (intros (? & ? & ?); tauto).
  intros _. repeat split; auto. intros [?|[?|?]]; try tauto. discriminate.
Qed.

(* _read in terms of the fields of the content *)
Lemma _read_fields (path : string) (self : t) :
  _read path self =
  let b := fetched path self in
  if negb (bool_decide (magic_field b = HDR_MAGIC)) then inl AssertionError else
  match unpack_Q (version_field b) with
  | inl e => inl e
  | inr version =>
    if negb (bool_decide (version = 1%Z)) then inl AssertionError else
    match unpack_B (dtype_field b) with
    | inl e => inl e
    | inr dtype_code =>
      match dtypes !! dtype_code with
      | None => inl KeyError
      | Some dtype =>
        match unpack_Q (count_field b) with
        | inl e => inl e
        | inr chunk_size =>
          inr (dtype, Z.to_nat chunk_size, BytesIO.mk b HDR_SIZE)
        end
      end
    end
  end.
Proof.
  cbv zeta. unfold _read, magic_field, version_field, dtype_field, count_field.
  fold (fetched path self). set (b := fetched path self).
  unfold BytesIO.new, BytesIO.read. cbn [BytesIO.pos BytesIO.content].
  change (length HDR_MAGIC) with 7. rewrite drop_0.
  case_bool_decide as Hm; cbn [negb]; [|reflexivity].
  assert (H7 : length (take 7 b) = 7) by (rewrite Hm; reflexivity).
  rewrite H7. cbn [Nat.add].
  unfold unpack_Q at 1 3.
  destruct (Nat.eqb_spec (length (take 8 (drop 7 b))) 8) as [H8|]; [|reflexivity].
  rewrite H8. cbn [Nat.add].
  case_bool_decide as Hv; cbn [negb]; [|reflexivity].
  unfold unpack_B.
  destruct (Nat.eqb_spec (length (take 1 (drop 15 b))) 1) as [H1|]; [|reflexivity].
  rewrite H1. cbn [Nat.add].
  destruct (dtypes !! _) as [d|]; [|reflexivity].
  unfold unpack_Q.
  destruct (Nat.eqb_spec (length (take 8 (drop 16 b))) 8) as [H8'|]; [|reflexivity].
  rewrite H8'. reflexivity.
Qed.

(* which exception a malformed header raises: the checks in the order
   _read makes them *)
Lemma _read_failure (path : string) (self : t) :
  let b := fetched path self in
  (magic_field b <> HDR_MAGIC -> _read path self = inl AssertionError)
  /\ (magic_field b = HDR_MAGIC -> length b < 15 ->
      _read path self = inl struct_error)
  /\ (magic_field b = HDR_MAGIC -> 15 <= length b ->
      le_unsigned (version_field b) <> 1%Z ->
      _read path self = inl AssertionError)
  /\ (magic_field b = HDR_MAGIC -> 15 <= length b ->
      le_unsigned (version_field b) = 1%Z -> length b < 16 ->
      _read path self = inl struct_error)
  /\ (magic_field b = HDR_MAGIC -> 16 <= length b ->
      le_unsigned (version_field b) = 1%Z ->
      dtypes !! le_unsigned (dtype_field b) = None ->
      _read path self = inl KeyError)
  /\ (magic_field b = HDR_MAGIC -> 16 <= length b ->
      le_unsigned (version_field b) = 1%Z ->
      is_Some (dtypes !! le_unsigned (dtype_field b)) -> length b < 24 ->
      _read path self = inl struct_error).
Proof.
  cbv zeta. rewrite _read_fields. cbv zeta. set (b := fetched path self).
  assert (Hlv : length (version_field b) = Nat.min 8 (length b - 7))
    by (unfold version_field; rewrite length_take, length_drop; reflexivity).
  assert (Hld : length (dtype_field b) = Nat.min 1 (length b - 15))
    by (unfold dtype_field; rewrite length_take, length_drop; reflexivity).
  assert (Hlc : length (count_field b) = Nat.min 8 (length b - 16))
    by (unfold count_field; rewrite length_take, length_drop; reflexivity).
  unfold unpack_Q, unpack_B. rewrite Hlv, Hld, Hlc.
  repeat match goal with |- _ /\ _ => split end.
  - intros Hm. case_bool_decide; [contradiction|reflexivity].
  - intros Hm Hlen. case_bool_decide; [|contradiction]. cbn [negb].
    destruct (Nat.eqb_spec (8 `min` (length b - 7)) 8); [lia|reflexivity].
  - intros Hm Hlen Hv. case_bool_decide; [|contradiction]. cbn [negb].
    destruct (Nat.eqb_spec (8 `min` (length b - 7)) 8); [|lia].
    case_bool_decide; [contradiction|reflexivity].
  - intros Hm Hlen Hv Hshort. case_bool_decide; [|contradiction]. cbn [negb].
    destruct (Nat.eqb_spec (8 `min` (length b - 7)) 8); [|lia].
    case_bool_decide; [|contradiction]. cbn [negb].
    destruct (Nat.eqb_spec (1 `min` (length b - 15)) 1); [lia|reflexivity].
  - intros Hm Hlen Hv Hd. case_bool_decide; [|contradiction]. cbn [negb].
    destruct (Nat.eqb_spec (8 `min` (length b - 7)) 8); [|lia].
    case_bool_decide; [|contradiction]. cbn [negb].
    destruct (Nat.eqb_spec (1 `min` (length b - 15)) 1); [|lia].
    rewrite Hd. reflexivity.
  - intros Hm Hlen Hv [d Hd] Hshort. case_bool_decide; [|contradiction]. cbn [negb].
    destruct (Nat.eqb_spec (8 `min` (length b - 7)) 8); [|lia].
    case_bool_decide; [|contradiction]. cbn [negb].
    destruct (Nat.eqb_spec (1 `min` (length b - 15)) 1); [|lia].
    rewrite Hd.
    destruct (Nat.eqb_spec (8 `min` (length b - 16)) 8); [lia|reflexivity].
Qed.

(** C5 (as amended). Header parsing returns a result exactly when the
    fetched content holds a complete 24-byte header whose first 7 bytes are
    the magic marker, whose little-endian version field is 1 and whose dtype
    code is one of the 8 codes of the table; the result is then the table's
    dtype, the little-endian element count and a reader positioned at byte
    24, so that what remains to be read is the content after the first 24
    bytes. On content of at least 24 bytes parsing fails if and only if one
    of the three named violations holds; shorter content always fails. A
    failure is the exception of the first check that fails, in the order
    _read makes them: AssertionError when the first 7 bytes are not the
    magic marker; else struct.error when the content has fewer than 15
    bytes; else AssertionError when the version is not 1; else struct.error
    when the content has fewer than 16 bytes; else KeyError when the dtype
    code is not in the table; else struct.error when the content has fewer
    than 24 bytes. *)
Theorem C5_header_parse (path : string) (self : t) :
  let b := fetched path self in
  (forall d n r,
      _read path self = inr (d, n, r) <->
      24 <= length b /\ ~ header_violation b
      /\ dtypes !! le_unsigned (dtype_field b) = Some d
      /\ n = Z.to_nat (le_unsigned (count_field b))
      /\ r = BytesIO.mk b HDR_SIZE)
  /\ (24 <= length b ->
      ((exists e, _read path self = inl e) <-> header_violation b))
  /\ (length b < 24 -> exists e, _read path self = inl e)
  /\ (forall e, _read path self = inl e -> format_error e)
  /\ ((magic_field b <> HDR_MAGIC -> _read path self = inl AssertionError)
      /\ (magic_field b = HDR_MAGIC -> length b < 15 ->
          _read path self = inl struct_error)
      /\ (magic_field b = HDR_MAGIC -> 15 <= length b ->
          le_unsigned (version_field b) <> 1%Z ->
          _read path self = inl AssertionError)
      /\ (magic_field b = HDR_MAGIC -> 15 <= length b ->
          le_unsigned (version_field b) = 1%Z -> length b < 16 ->
          _read path self = inl struct_error)
      /\ (magic_field b = HDR_MAGIC -> 16 <= length b ->
          le_unsigned (version_field b) = 1%Z ->
          dtypes !! le_unsigned (dtype_field b) = None ->
          _read path self = inl KeyError)
      /\ (magic_field b = HDR_MAGIC -> 16 <= length b ->
          le_unsigned (version_field b) = 1%Z ->
          is_Some (dtypes !! le_unsigned (dtype_field b)) -> length b < 24 ->
          _read path self = inl struct_error))
  /\ (forall d n r,
      _read path self = inr (d, n, r) ->
      BytesIO.pos r = 24 /\ fst (BytesIO.read_all r) = drop 24 b)
  /\ (forall c d,
      dtypes !! c = Some d <->
      (c = 1 /\ d = uint8)%Z \/ (c = 2 /\ d = int8)%Z \/ (c = 3 /\ d = int16)%Z
      \/ (c = 4 /\ d = int32)%Z \/ (c = 5 /\ d = int64)%Z
      \/ (c = 6 /\ d = float32)%Z \/ (c = 7 /\ d = float64)%Z
      \/ (c = 8 /\ d = uint16)%Z).
Proof.
  intros b. subst b.
  assert (Hok : forall d n r,
      _read path self = inr (d, n, r) <->
      24 <= length (fetched path self) /\ ~ header_violation (fetched path self)
      /\ dtypes !! le_unsigned (dtype_field (fetched path self)) = Some d
      /\ n = Z.to_nat (le_unsigned (count_field (fetched path self)))
      /\ r = BytesIO.mk (fetched path self) HDR_SIZE).
  { intros d n r. rewrite _read_ok, not_header_violation. split.
    - intros (? & ? & ? & Hd & ? & ?). rewrite Hd. eauto 10.
    - tauto. }
  split; [exact Hok|]. split; [|split; [|split; [|split; [|split]]]].
  - intros Hlen. split.
    + intros [e He]. destruct (decide (magic_field (fetched path self) = HDR_MAGIC)) as [Hm|Hm];
        [|left; exact Hm].
      destruct (decide (le_unsigned (version_field (fetched path self)) = 1%Z)) as [Hv|Hv];
        [|right; left; exact Hv].
      destruct (dtypes !! le_unsigned (dtype_field (fetched path self))) as [d|] eqn:Hd;
        [|right; right; exact Hd].
      assert (Hr : _read path self
                   = inr (d, Z.to_nat (le_unsigned (count_field (fetched path self))),
                          BytesIO.mk (fetched path self) HDR_SIZE)).
      { apply _read_ok. tauto. }
      congruence.
    + intros Hv. destruct (_read path self) as [e|[[d n] r]]; [eauto|].
      destruct (proj1 (Hok d n r) eq_refl) as (_ & Hnv & _). tauto.
  - intros Hlen. destruct (_read path self) as [e|x] eqn:Hr; [eauto|].
    apply _read_complete in Hr. lia.
  - apply _read_raises.
  - apply _read_failure.
  - intros d n r Hr. apply _read_ok in Hr as (Hlen & _ & _ & _ & _ & ->).
    split; [reflexivity|]. reflexivity.
  - apply dtypes_lookup.
Qed.
End Header.

(** C5 (counterexample to the claim as stated). A 23-byte file whose magic,
    version and dtype code are all valid fails to parse, although none of the
    three named violations holds: the element-count field is cut short. *)
Lemma C5_counterexample_truncated_header :
  let self := @demo_iterator demo_numpy demo_storage ["short"] 1 1 false in
  let b := demo_storage bucket_name "short" in
  @PackedDatasetIterator._read demo_numpy "short" self = inl struct_error
  /\ length b = 23
  /\ magic_field b = HDR_MAGIC
  /\ le_unsigned (version_field b) = 1%Z
  /\ dtypes !! le_unsigned (dtype_field b) = Some uint8
  /\ ~ header_violation b.
Proof.
  cbv zeta.
  assert (Hm : magic_field (demo_storage bucket_name "short") = HDR_MAGIC)
    by (vm_compute; reflexivity).
  assert (Hv : le_unsigned (version_field (demo_storage bucket_name "short")) = 1%Z)
    by (vm_compute; reflexivity).
  assert (Hd : dtypes !! le_unsigned (dtype_field (demo_storage bucket_name "short"))
               = Some uint8) by (vm_compute; reflexivity).
  repeat split; try assumption; try (vm_compute; reflexivity).
  intros [?|[?|Hn]]; try contradiction. rewrite Hd in Hn. discriminate.
Qed.

(** ** The chunk window: loading *)


Section Load.
Context `{NumpyRuntime}.
Import PackedDatasetIterator.



Lemma loop_frame_refl s : loop_frame s s.
Proof. unfold loop_frame. tauto. Qed.

Lemma loop_frame_trans s1 s2 s3 :
  loop_frame s1 s2 -> loop_frame s2 s3 -> loop_frame s1 s3.
Proof. unfold loop_frame. intuition congruence. Qed.

Lemma _close_mmaps_noop (s : t) : _close_mmaps s = Ret tt s.
Proof.
  unfold _close_mmaps. unfold_monad.
  generalize (seq 0 (length (_mmaps s))). intros l.
  induction l as [|i l IH]; [reflexivity|]. cbn. unfold_monad. destruct tt. exact IH.
Qed.

Lemma load_body_frame i l s : loop_frame s (final_state (load_body i l s)).
Proof.
  unfold load_body. unfold_monad.
  destruct (_filenames s !! (_file_idx s + i)) as [f|]; [|apply loop_frame_refl].
  destruct (_dtype s).
  - destruct l; cbn; unfold loop_frame; cbn; tauto.
  - destruct (_read f s) as [e|[[d n] r]]; [apply loop_frame_refl|].
    cbn. destruct (_block_size s =? 0); cbn; unfold loop_frame; cbn; tauto.
Qed.

Lemma for_each_load_frame idxs l s :
  loop_frame s (final_state (for_each load_body idxs l s)).
Proof.
  revert l s. induction idxs as [|i idxs IH]; intros l s; [apply loop_frame_refl|].
  cbn. unfold bind. pose proof (load_body_frame i l s) as Hb.
  destruct (load_body i l s) as [l' s'|e s']; cbn in *; [|exact Hb].
  eapply loop_frame_trans; [exact Hb | apply IH].
Qed.

(** One iteration of the loop, by the state it starts in. *)

Lemma load_body_index i l s :
  _filenames s !! (_file_idx s + i) = None ->
  load_body i l s = Raise IndexError s.
Proof. intros Hf. unfold load_body. unfold_monad. rewrite Hf. reflexivity. Qed.

Lemma load_body_unbound i s d f :
  _dtype s = Some d ->
  _filenames s !! (_file_idx s + i) = Some f ->
  load_body i None s = Raise UnboundLocalError s.
Proof.
  intros Hd Hf. unfold load_body. unfold_monad. rewrite Hf, Hd. reflexivity.
Qed.


Lemma rewound_content r : BytesIO.content (rewound r) = BytesIO.content r.
Proof. reflexivity. Qed.

Lemma load_body_bound i r s d f :
  _dtype s = Some d ->
  _filenames s !! (_file_idx s + i) = Some f ->
  load_body i (Some r) s =
  Ret (Some (rewound r))
      (set_buffers (_buffers s ++ [drop HDR_SIZE (BytesIO.content r)]) s).
Proof.
  intros Hd Hf. unfold load_body. unfold_monad. rewrite Hf, Hd. reflexivity.
Qed.

Lemma load_body_first i l s f d n r :
  _dtype s = None ->
  _filenames s !! (_file_idx s + i) = Some f ->
  _read f s = inr (d, n, r) ->
  _block_size s <> 0 ->
  load_body i l s =
  Ret (Some (rewound r))
      (set_buffers (_buffers s ++ [drop HDR_SIZE (fetched f s)])
         (set_n_blocks (Some (n / _block_size s))
            (set_chunk_size (Some n) (set_dtype (Some d) s)))).
Proof.
  intros Hd Hf Hr Hb. unfold load_body. unfold_monad. rewrite Hf, Hd, Hr.
  apply Nat.eqb_neq in Hb. rewrite Hb.
  apply _read_ok in Hr as (_ & _ & _ & _ & _ & ->). reflexivity.
Qed.

(** The loop once bytes_io is bound and the dtype is locked: every further
    iteration appends the payload of that same reader. *)

Lemma for_each_load_bound idxs r s d :
  _dtype s = Some d ->
  (forall i, i ∈ idxs -> _file_idx s + i < length (_filenames s)) ->
  exists r',
    BytesIO.content r' = BytesIO.content r
    /\ for_each load_body idxs (Some r) s =
       Ret (Some r')
           (set_buffers
              (_buffers s ++ replicate (length idxs) (drop HDR_SIZE (BytesIO.content r)))
              s).
Proof.
  revert r s. induction idxs as [|i idxs IH]; intros r s Hd Hin.
  - exists r. split; [reflexivity|]. cbn. unfold ret.
    rewrite app_nil_r. destruct s; reflexivity.
  - destruct (lookup_lt_is_Some_2 (_filenames s) (_file_idx s + i)) as [f Hf].
    { apply Hin. left. }
    cbn [for_each]. unfold bind. rewrite (load_body_bound i r s d f Hd Hf).
    destruct (IH (rewound r)
                (set_buffers (_buffers s ++ [drop HDR_SIZE (BytesIO.content r)]) s))
      as (r' & Hc & Hloop).
    { exact Hd. }
    { intros j Hj. apply Hin. right. exact Hj. }
    exists r'. split; [exact Hc|]. rewrite Hloop. cbn.
    rewrite <- app_assoc. reflexivity.
Qed.

Lemma for_each_load_out_of_range idxs r s d :
  _dtype s = Some d ->
  (exists i, i ∈ idxs /\ length (_filenames s) <= _file_idx s + i) ->
  exists s', for_each load_body idxs (Some r) s = Raise IndexError s'.
Proof.
  revert r s. induction idxs as [|i idxs IH]; intros r s Hd (j & Hj & Hout).
  - inversion Hj.
  - cbn [for_each]. unfold bind.
    destruct (_filenames s !! (_file_idx s + i)) as [f|] eqn:Hf.
    + rewrite (load_body_bound i r s d f Hd Hf).
      apply IH; [exact Hd|]. exists j. split; [|exact Hout].
      apply elem_of_cons in Hj as [->|Hj]; [|exact Hj].
      apply lookup_lt_Some in Hf. cbn in Hout. lia.
    + rewrite (load_body_index i _ s Hf). eauto.
Qed.

(** What the loop can raise, and what its return implies. *)


Lemma load_body_raises i l s e s' :
  load_body i l s = Raise e s' -> loop_error e.
Proof.
  unfold load_body, loop_error. unfold_monad.
  destruct (_filenames s !! (_file_idx s + i)) as [f|]; [|intros [= <- _]; tauto].
  destruct (_dtype s).
  - destruct l; intros [= <- _]; tauto.
  - destruct (_read f s) as [e'|[[d n] r]] eqn:Hr.
    + intros [= <- _]. apply _read_raises in Hr. tauto.
    + destruct (_block_size s =? 0); intros [= <- _]; tauto.
Qed.

Lemma for_each_load_raises idxs l s e s' :
  for_each load_body idxs l s = Raise e s' -> loop_error e.
Proof.
  revert l s. induction idxs as [|i idxs IH]; intros l s; [discriminate|].
  cbn [for_each]. unfold bind.
  destruct (load_body i l s) as [l1 s1|e1 s1] eqn:Hb.
  - apply IH.
  - intros [= <- _]. eapply load_body_raises, Hb.
Qed.

Lemma load_body_returns i l s l' s' :
  load_body i l s = Ret l' s' -> _file_idx s + i < length (_filenames s).
Proof.
  intros Hb. destruct (_filenames s !! (_file_idx s + i)) as [f|] eqn:Hf.
  - eapply lookup_lt_Some, Hf.
  - rewrite (load_body_index i l s Hf) in Hb. discriminate.
Qed.

Lemma for_each_load_returns idxs l s l' s' :
  for_each load_body idxs l s = Ret l' s' ->
  forall i, i ∈ idxs -> _file_idx s + i < length (_filenames s).
Proof.
  revert l s. induction idxs as [|i idxs IH]; intros l s Hloop j Hj.
  - inversion Hj.
  - cbn [for_each] in Hloop. unfold bind in Hloop.
    destruct (load_body i l s) as [l1 s1|e1 s1] eqn:Hb; [|discriminate].
    apply elem_of_cons in Hj as [->|Hj].
    + eapply load_body_returns, Hb.
    + pose proof (load_body_frame i l s) as Hfr. rewrite Hb in Hfr.
      destruct Hfr as (_ & _ & _ & _ & _ & Hfn & Hfi & _). cbn in Hfn, Hfi.
      rewrite <- Hfn, <- Hfi. eapply IH; eauto.
Qed.

(** _load_n_chunks, with its three phases written out. *)


Lemma _load_n_chunks_unfold (s : t) :
  _load_n_chunks s =
  let s0 := set_buffers [] (set_mmaps [] s) in
  let short := length (drop (_file_idx s) (_filenames s)) <? _n_chunks s in
  if short && negb (_wrap s) then Raise StopIteration s0 else
  match for_each load_body (seq 0 (_n_chunks s)) None (pre_loop s) with
  | Raise e s2 => Raise e s2
  | Ret _ s2 => window_of s2
  end.
Proof.
  unfold _load_n_chunks, window_of, pre_loop.
  unfold bind at 1. rewrite _close_mmaps_noop. unfold_monad. fields.
  destruct (length (drop (_file_idx s) (_filenames s)) <? _n_chunks s);
    destruct (_wrap s); cbv beta iota zeta delta [andb negb];
    try reflexivity;
    match goal with
    | |- context [for_each load_body ?i ?l ?s1] =>
      destruct (for_each load_body i l s1) as [l2 s2|e2 s2]; [|reflexivity]
    end;
    destruct (_n_blocks s2); try reflexivity;
      destruct (_shuffle s2); try reflexivity;
      destruct (_rng s2) as [g|]; try reflexivity;
      destruct (permutation g _); reflexivity.
Qed.
End Load.

(** ** The chunk window: what a load leaves behind *)

Section Window.
Context `{NumpyRuntime}.
Import PackedDatasetIterator.

Lemma window_of_returns s2 s' :
  window_of s2 = Ret tt s' ->
  exists n_blocks,
    _n_blocks s2 = Some n_blocks
    /\ _n_blocks s' = Some n_blocks
    /\ _n_chunks s' = _n_chunks s2
    /\ _file_idx s' = _file_idx s2 + _n_chunks s2
    /\ _buffers s' = _buffers s2
    /\ _dtype s' = _dtype s2
    /\ _curr_idx s' = 0
    /\ _shuffle s' = _shuffle s2
    /\ _filenames s' = _filenames s2
    /\ (_shuffle s2 = false ->
        _block_idxs s' = seq 0 (_n_chunks s2 * n_blocks) /\ _rng s' = _rng s2)
    /\ (_shuffle s2 = true ->
        exists g,
          _rng s2 = Some g
          /\ _block_idxs s' = fst (permutation g (_n_chunks s2 * n_blocks))
          /\ _rng s' = Some (snd (permutation g (_n_chunks s2 * n_blocks)))).
Proof.
  unfold window_of. fields.
  destruct (_n_blocks s2) as [nb|] eqn:Hnb; [|discriminate].
  destruct (_shuffle s2) eqn:Hsh.
  - destruct (_rng s2) as [g|] eqn:Hg; [|discriminate].
    intros [= <-]. exists nb. fields.
    repeat match goal with |- _ /\ _ => split end; auto; [discriminate|].
    intros _. exists g. auto.
  - intros [= <-]. exists nb. fields.
    repeat match goal with |- _ /\ _ => split end; auto; discriminate.
Qed.

(* a load that returns ran its loop to the end *)
Lemma _load_n_chunks_returns s s' :
  _load_n_chunks s = Ret tt s' ->
  exists l2 s2,
    for_each load_body (seq 0 (_n_chunks s)) None (pre_loop s) = Ret l2 s2
    /\ loop_frame (pre_loop s) s2
    /\ window_of s2 = Ret tt s'.
Proof.
  rewrite _load_n_chunks_unfold. cbv zeta.
  destruct (_ && _); [discriminate|].
  pose proof (for_each_load_frame (seq 0 (_n_chunks s)) None (pre_loop s)) as Hfr.
  destruct (for_each load_body _ _ _) as [l2 s2|e2 s2] eqn:Hloop; [|discriminate].
  intros Hw. exists l2, s2. auto.
Qed.

Lemma pre_loop_fields s :
  _seed (pre_loop s) = _seed s /\ _shuffle (pre_loop s) = _shuffle s
  /\ _rng (pre_loop s) = _rng s /\ _block_idxs (pre_loop s) = _block_idxs s
  /\ _wrap (pre_loop s) = _wrap s /\ _filenames (pre_loop s) = _filenames s
  /\ _n_chunks (pre_loop s) = _n_chunks s /\ _dtype (pre_loop s) = _dtype s
  /\ _chunk_size (pre_loop s) = _chunk_size s
  /\ _block_size (pre_loop s) = _block_size s
  /\ _n_blocks (pre_loop s) = _n_blocks s /\ _buffers (pre_loop s) = []
  /\ _curr_idx (pre_loop s) = _curr_idx s
  /\ storage_client (pre_loop s) = storage_client s
  /\ bucket_name (pre_loop s) = bucket_name s
  /\ _file_idx (pre_loop s)
     = (if length (drop (_file_idx s) (_filenames s)) <? _n_chunks s
        then 0 else _file_idx s).
Proof. unfold pre_loop. destruct (_ <? _); fields; tauto. Qed.



(* what a load that returns leaves of the block indices and the generator *)
Lemma _load_n_chunks_window s s' :
  _load_n_chunks s = Ret tt s' ->
  exists n_blocks,
    _n_blocks s' = Some n_blocks
    /\ _n_chunks s' = _n_chunks s
    /\ _curr_idx s' = 0
    /\ (_shuffle s = false ->
        _block_idxs s' = seq 0 (_n_chunks s * n_blocks) /\ _rng s' = _rng s)
    /\ (_shuffle s = true ->
        exists g,
          _rng s = Some g
          /\ _block_idxs s' = fst (permutation g (_n_chunks s * n_blocks))
          /\ _rng s' = Some (snd (permutation g (_n_chunks s * n_blocks)))).
Proof.
  intros Hs.
  apply _load_n_chunks_returns in Hs as (l2 & s2 & _ & Hf & Hw).
  destruct Hf as (_ & Hsh & Hrng & _ & _ & _ & _ & Hnc & _).
  destruct (pre_loop_fields s)
    as (_ & Hsh1 & Hrng1 & _ & _ & _ & Hnc1 & _).
  rewrite Hsh1 in Hsh. rewrite Hrng1 in Hrng. rewrite Hnc1 in Hnc.
  apply window_of_returns in Hw
    as (nb & _ & Hnb & Hnc' & _ & _ & _ & Hc & _ & _ & Hseq & Hshuf).
  exists nb. rewrite Hsh, Hrng, Hnc in *.
  repeat match goal with |- _ /\ _ => split end; auto.
Qed.

Lemma loop_error_not_stop e : loop_error e -> e <> StopIteration.
Proof.
  unfold loop_error, format_error. intros He ->.
  repeat match goal with H : _ \/ _ |- _ => destruct H end; discriminate.
Qed.

Lemma _read_same_client f s s' :
  storage_client s' = storage_client s -> bucket_name s' = bucket_name s ->
  _read f s' = _read f s.
Proof. intros Hc Hb. unfold _read. rewrite Hc, Hb. reflexivity. Qed.

(* the constructor is the first load on a fresh object, when its generator
   can be made *)
Lemma pre_loop_fresh client filenames n_chunks block_size seed shuffle wrap :
  pre_loop (fresh client filenames n_chunks block_size seed shuffle wrap)
  = fresh client filenames n_chunks block_size seed shuffle wrap.
Proof. unfold pre_loop. destruct (_ <? _); reflexivity. Qed.

Lemma __init___fresh client filenames n_chunks block_size seed shuffle wrap :
  shuffle = false \/ (0 <= seed)%Z ->
  __init__ client filenames n_chunks block_size seed shuffle wrap
  = _load_n_chunks (fresh client filenames n_chunks block_size seed shuffle wrap).
Proof.
  unfold __init__, np_default_rng, fresh. intros [->|Hseed]; [reflexivity|].
  destruct shuffle; [|reflexivity].
  destruct (Z.ltb_spec seed 0); [lia|reflexivity].
Qed.

Lemma __init___negative_seed client filenames n_chunks block_size seed wrap :
  (seed < 0)%Z ->
  exists s',
    __init__ client filenames n_chunks block_size seed true wrap
    = Raise ValueError s'.
Proof.
  intros Hseed. unfold __init__, np_default_rng.
  destruct (Z.ltb_spec seed 0); [eauto|lia].
Qed.

Lemma __init___returned client filenames n_chunks block_size seed shuffle wrap it :
  __init__ client filenames n_chunks block_size seed shuffle wrap = Ret tt it ->
  (shuffle = false \/ (0 <= seed)%Z)
  /\ _load_n_chunks (fresh client filenames n_chunks block_size seed shuffle wrap)
     = Ret tt it.
Proof.
  intros Hinit.
  assert (Hseed : shuffle = false \/ (0 <= seed)%Z).
  { destruct shuffle; [|auto]. right.
    destruct (Z.ltb_spec seed 0) as [Hneg|]; [|assumption].
    destruct (__init___negative_seed client filenames n_chunks block_size seed
                wrap Hneg) as (s' & Hr).
    rewrite Hr in Hinit. discriminate. }
  split; [exact Hseed|]. rewrite <- __init___fresh by exact Hseed. exact Hinit.
Qed.

(** The first window. On an iterator whose dtype is not locked yet, a load
    that returns has parsed one file only, the one at the cursor, and every
    buffer of the window is that file's payload. *)
Theorem first_window_buffers (s s' : t) (f : string) :
  _dtype s = None ->
  _load_n_chunks s = Ret tt s' ->
  _filenames s !! _file_idx (pre_loop s) = Some f ->
  _buffers s' = replicate (_n_chunks s) (drop HDR_SIZE (fetched f s))
  /\ _file_idx s' = _file_idx (pre_loop s) + _n_chunks s
  /\ (1 <= _n_chunks s -> exists d, _dtype s' = Some d).
Proof.
  intros Hd Hload Hf.
  apply _load_n_chunks_returns in Hload as (l2 & s2 & Hloop & Hfr & Hw).
  apply window_of_returns in Hw as (nb & _ & _ & _ & Hfi & Hbuf & Hdt & _).
  destruct (pre_loop_fields s)
    as (_ & _ & _ & _ & _ & Hfn & Hnc & Hd1 & _ & Hbs & _ & Hb1 & _ & Hcl & Hbn & _).
  destruct Hfr as (_ & _ & _ & _ & _ & _ & Hfi2 & Hnc2 & _).
  rewrite Hbuf, Hdt, Hfi, Hfi2, Hnc2, Hnc. clear Hbuf Hdt Hfi s'.
  pose proof (for_each_load_returns _ _ _ _ _ Hloop) as Hin.
  destruct (_n_chunks s) as [|m].
  { cbn in Hloop. injection Hloop as _ <-. rewrite Hb1. split; [reflexivity|].
    split; [reflexivity|lia]. }
  cbn [seq for_each] in Hloop. unfold bind in Hloop.
  rewrite <- Hfn in Hf.
  destruct (load_body 0 None (pre_loop s)) as [l1 s1|] eqn:Hbody; [|discriminate].
  assert (exists d n r, _read f (pre_loop s) = inr (d, n, r)
                        /\ _block_size (pre_loop s) <> 0) as (d & n & r & Hr & Hbz).
  { revert Hbody. unfold load_body. unfold_monad.
    rewrite Nat.add_0_r, Hf, Hd1, Hd.
    destruct (_read f (pre_loop s)) as [|[[d n] r]]; [discriminate|].
    destruct (Nat.eqb_spec (_block_size (pre_loop s)) 0); [discriminate|].
    eauto 6. }
  rewrite (load_body_first 0 None (pre_loop s) f d n r) in Hbody;
    [|congruence|rewrite Nat.add_0_r; exact Hf|exact Hr|exact Hbz].
  injection Hbody as <- <-.
  match type of Hloop with
  | for_each _ _ _ ?st = _ =>
    destruct (for_each_load_bound (seq 1 m) (rewound r) st d) as (r' & _ & Hrest)
  end.
  { reflexivity. }
  { intros i Hi. fields. apply Hin. right. exact Hi. }
  rewrite Hrest in Hloop. injection Hloop as _ <-. fields.
  rewrite Hb1, length_seq. cbn [app replicate].
  apply _read_ok in Hr as (_ & _ & _ & _ & _ & ->). cbn [BytesIO.content rewound].
  unfold fetched. rewrite Hcl, Hbn. split; [reflexivity|]. split; [reflexivity|eauto].
Qed.

(* what every iterator that came out of its constructor satisfies *)
Lemma __init___constructed client filenames n_chunks block_size seed shuffle wrap it :
  __init__ client filenames n_chunks block_size seed shuffle wrap = Ret tt it ->
  constructed it.
Proof.
  intros Hinit. apply __init___returned in Hinit as [_ Hload].
  unfold constructed.
  match type of Hload with _load_n_chunks ?s0 = _ => set (s := s0) in * end.
  pose proof Hload as Hload'.
  apply _load_n_chunks_returns in Hload' as (l2 & s2 & Hloop & Hfr & Hw).
  apply window_of_returns in Hw as (nb & Hnb2 & _ & Hnc & _ & _ & Hdt & _ & _ & Hfnit & _).
  destruct Hfr as (_ & _ & _ & _ & _ & Hfn2 & Hfi2 & Hnc2 & _).
  destruct (pre_loop_fields s)
    as (_ & _ & _ & _ & _ & Hfn & Hnc1 & _ & _ & _ & Hnb1 & _).
  assert (Hn : 1 <= n_chunks).
  { destruct n_chunks; [|lia]. exfalso.
    change (_n_chunks s) with 0 in Hloop. cbn [seq for_each] in Hloop.
    unfold ret in Hloop. injection Hloop as _ <-.
    rewrite Hnb1 in Hnb2. discriminate. }
  pose proof (for_each_load_returns _ _ _ _ _ Hloop) as Hin.
  change (_n_chunks s) with n_chunks in *.
  assert (Hlast : _file_idx (pre_loop s) + (n_chunks - 1) < length (_filenames s)).
  { rewrite <- Hfn. apply Hin. apply elem_of_seq. lia. }
  destruct (lookup_lt_is_Some_2 (_filenames s) (_file_idx (pre_loop s))) as [f Hf];
    [lia|].
  destruct (first_window_buffers s it f eq_refl Hload Hf) as (_ & _ & Hd).
  destruct (Hd Hn) as [d Hd'].
  split; [eauto|]. rewrite Hnc, Hnc2, Hnc1, Hfnit, Hfn2, Hfn.
  change (_n_chunks s) with n_chunks. split; [exact Hn|lia].
Qed.

(** Reloading. Once the dtype is locked, a load reads no file: it signals
    end-of-shard when fewer than n_chunks files remain and wrap is off, and
    otherwise stops at the first use of the unbound reader. *)
Theorem reload_raises (s : t) :
  constructed s ->
  _load_n_chunks s =
  if (length (drop (_file_idx s) (_filenames s)) <? _n_chunks s)
     && negb (_wrap s)
  then Raise StopIteration (set_buffers [] (set_mmaps [] s))
  else Raise UnboundLocalError (pre_loop s).
Proof.
  intros ([d Hd] & Hn & Hlen). rewrite _load_n_chunks_unfold. cbv zeta.
  destruct (_ && _); [reflexivity|].
  destruct (pre_loop_fields s)
    as (_ & _ & _ & _ & _ & Hfn & _ & Hd1 & _ & _ & _ & _ & _ & _ & _ & Hfi).
  destruct (_n_chunks s) as [|m] eqn:Hnc; [lia|].
  cbn [seq for_each]. unfold bind.
  destruct (lookup_lt_is_Some_2 (_filenames (pre_loop s)) (_file_idx (pre_loop s) + 0))
    as [f Hf].
  { rewrite Hfn, Hfi. destruct (Nat.ltb_spec (length (drop (_file_idx s) (_filenames s))) (S m)) as [|Hge];
      [lia|]. rewrite length_drop in Hge. lia. }
  rewrite (load_body_unbound 0 (pre_loop s) d f); [reflexivity|congruence|exact Hf].
Qed.

(** A constructed iterator serves its first window and nothing else: a
    next() that returns did not reload, and a next() that has to reload
    raises. *)
Theorem next_of_constructed (s : t) :
  constructed s ->
  (forall x s',
      __next__ s = Ret x s' ->
      _curr_idx s < length (_block_idxs s)
      /\ s' = set_curr_idx (_curr_idx s + 1) s
      /\ constructed s')
  /\ (length (_block_idxs s) <= _curr_idx s ->
      exists e s',
        __next__ s = Raise e s'
        /\ (e = StopIteration \/ e = UnboundLocalError)).
Proof.
  intros Hc. split.
  - intros x s'. unfold __next__. unfold_monad.
    destruct (Nat.leb_spec (length (_block_idxs s)) (_curr_idx s)) as [Hge|Hlt].
    { rewrite (reload_raises s Hc). destruct (_ && _); discriminate. }
    destruct (_block_idxs s !! _curr_idx s); [|discriminate].
    destruct (_n_blocks s) as [nb|]; [|discriminate].
    destruct (nb =? 0); [discriminate|].
    destruct (_buffers s !! _); [|discriminate].
    destruct (frombuffer _ _ _ _); [discriminate|].
    intros [= _ <-]. split; [exact Hlt|]. split; [reflexivity|exact Hc].
  - intros Hge. unfold __next__. unfold_monad.
    apply Nat.leb_le in Hge. rewrite Hge, (reload_raises s Hc).
    destruct (_ && _); eauto.
Qed.
(** C6 (where the code and the claim part). The constructor's load does
    what the claim says: the block-index sequence has length
    n_chunks * n_blocks and holds each index below that bound exactly once;
    it is 0, 1, ..., n_chunks * n_blocks - 1 without shuffling and, with
    shuffling, the permutation drawn from the generator made from the seed,
    which is left advanced; the read cursor is 0. But no reload ever
    completes: every load of an iterator that came out of its constructor
    raises, and it leaves the block-index sequence, the generator and the
    read cursor exactly as they were, and so does the next() at the end of
    the window that asked for it. No second permutation is drawn, the
    generator is not advanced across reloads, the cursor is not reset. *)
Theorem C6_block_index_sequence :
  permutation_contract ->
  (forall client filenames n_chunks block_size seed shuffle wrap it,
      __init__ client filenames n_chunks block_size seed shuffle wrap = Ret tt it ->
      constructed it
      /\ exists n_blocks,
          _n_blocks it = Some n_blocks
          /\ length (_block_idxs it) = n_chunks * n_blocks
          /\ NoDup (_block_idxs it)
          /\ (forall b, b ∈ _block_idxs it <-> b < n_chunks * n_blocks)
          /\ (shuffle = false -> _block_idxs it = seq 0 (n_chunks * n_blocks))
          /\ (shuffle = true ->
              _block_idxs it
              = fst (permutation (default_rng seed) (n_chunks * n_blocks))
              /\ _rng it
                 = Some (snd (permutation (default_rng seed)
                                (n_chunks * n_blocks))))
          /\ _curr_idx it = 0)
  /\ (forall s,
      constructed s ->
      exists e s',
        _load_n_chunks s = Raise e s'
        /\ (e = StopIteration \/ e = UnboundLocalError)
        /\ _block_idxs s' = _block_idxs s
        /\ _rng s' = _rng s
        /\ _curr_idx s' = _curr_idx s)
  /\ (forall s,
      constructed s ->
      fits_ssize (length (_block_idxs s)) ->
      length (_block_idxs s) <= _curr_idx s ->
      exists e s',
        __next__ s = Raise e s'
        /\ _block_idxs s' = _block_idxs s
        /\ _rng s' = _rng s
        /\ _curr_idx s' = _curr_idx s).
Proof.
  intros Hperm.
  assert (Hreload : forall s,
             constructed s ->
             exists e s',
               _load_n_chunks s = Raise e s'
               /\ (e = StopIteration \/ e = UnboundLocalError)
               /\ _block_idxs s' = _block_idxs s
               /\ _rng s' = _rng s
               /\ _curr_idx s' = _curr_idx s).
  { intros s Hc. rewrite (reload_raises s Hc).
    destruct (pre_loop_fields s)
      as (_ & _ & Hrng & Hbi & _ & _ & _ & _ & _ & _ & _ & _ & Hci & _).
    destruct (_ && _); eexists; eexists; (split; [reflexivity|]); fields; auto. }
  split; [|split].
  - intros client filenames n_chunks block_size seed shuffle wrap it Hinit.
    split; [eapply __init___constructed, Hinit|].
    apply __init___returned in Hinit as [_ Hload].
    destruct (_load_n_chunks_window _ _ Hload)
      as (nb & Hnb & _ & Hc & Hseq & Hshuf).
    unfold fresh in Hseq, Hshuf. fields.
    assert (Hp : _block_idxs it ≡ₚ seq 0 (n_chunks * nb)).
    { destruct shuffle.
      - destruct Hshuf as (g & _ & -> & _); [reflexivity|]. apply Hperm.
      - destruct Hseq as [-> _]; reflexivity. }
    exists nb. repeat match goal with |- _ /\ _ => split end; auto.
    + rewrite Hp. apply length_seq.
    + rewrite Hp. apply NoDup_seq.
    + intros b. rewrite Hp. rewrite elem_of_seq. lia.
    + intros Hsh. apply Hseq, Hsh.
    + intros ->. destruct (Hshuf eq_refl) as (g & [= <-] & Hb & Hr). auto.
  - exact Hreload.
  - intros s Hc _ Hge. destruct (Hreload s Hc) as (e & s' & Hl & _ & Hrest).
    exists e, s'. split; [|exact Hrest].
    unfold __next__. unfold_monad.
    apply Nat.leb_le in Hge. rewrite Hge, Hl. reflexivity.
Qed.

(** C9 (as the code behaves). With wrap enabled and fewer files in the shard
    than n_chunks, a load never returns and never signals end-of-shard: it
    resets the file cursor to 0 and raises. What it raises is the IndexError
    of an access past the end of the file list when the shard is empty, and
    when the first file's header parses and block_size is not 0; before
    reaching that access the load raises the header error of a malformed
    first file, ZeroDivisionError when block_size is 0, and
    UnboundLocalError when a dtype is already locked. *)
Theorem C9_wrap_short_shard (s : t) :
  _wrap s = true ->
  length (_filenames s) < _n_chunks s ->
  exists e s',
    _load_n_chunks s = Raise e s'
    /\ e <> StopIteration
    /\ _file_idx s' = 0
    /\ match _filenames s !! 0 with
       | None => e = IndexError
       | Some f =>
         match _dtype s with
         | Some _ => e = UnboundLocalError
         | None =>
           match _read f s with
           | inl e' => e = e'
           | inr _ =>
             e = if _block_size s =? 0 then ZeroDivisionError else IndexError
           end
         end
       end.
Proof.
  intros Hwrap Hshort. rewrite _load_n_chunks_unfold. cbv zeta.
  assert (Hlt : (length (drop (_file_idx s) (_filenames s)) <? _n_chunks s) = true).
  { apply Nat.ltb_lt. rewrite length_drop. lia. }
  rewrite Hlt, Hwrap. cbn [andb negb].
  replace (pre_loop s) with (set_file_idx 0 (set_buffers [] (set_mmaps [] s)))
    by (unfold pre_loop; rewrite Hlt; reflexivity).
  set (s1 := set_file_idx 0 (set_buffers [] (set_mmaps [] s))).
  pose proof (for_each_load_frame (seq 0 (_n_chunks s)) None s1) as Hfr.
  destruct (for_each load_body (seq 0 (_n_chunks s)) None s1) as [l2 s2|e s2] eqn:Hloop.
  { exfalso.
    pose proof (for_each_load_returns _ _ _ _ _ Hloop (length (_filenames s))) as Hin.
    subst s1. fields. assert (length (_filenames s) ∈ seq 0 (_n_chunks s))
      by (apply elem_of_seq; lia).
    specialize (Hin ltac:(assumption)). lia. }
  exists e, s2. split; [reflexivity|].
  split; [eapply loop_error_not_stop, for_each_load_raises, Hloop|].
  split.
  { destruct Hfr as (_ & _ & _ & _ & _ & _ & Hfi & _). cbn [final_state] in Hfi.
    rewrite Hfi. reflexivity. }
  destruct (_n_chunks s) as [|m] eqn:Hn; [lia|].
  cbn [seq for_each] in Hloop. unfold bind in Hloop.
  destruct (_filenames s !! 0) as [f|] eqn:Hf0.
  - destruct (_dtype s) as [d0|] eqn:Hd.
    { rewrite (load_body_unbound 0 s1 d0 f) in Hloop
        by (subst s1; fields; assumption).
      congruence. }
    change (_read f s) with (_read f s1).
    assert (Hf1 : _filenames s1 !! (_file_idx s1 + 0) = Some f)
      by (subst s1; fields; exact Hf0).
    assert (Hd1 : _dtype s1 = None) by (subst s1; fields; exact Hd).
    destruct (_read f s1) as [e'|[[d n] r]] eqn:Hr.
    { revert Hloop. unfold load_body. unfold_monad. rewrite Hf1, Hd1, Hr.
      congruence. }
    destruct (Nat.eqb_spec (_block_size s) 0) as [Hbs|Hbs].
    { assert (Hbs1 : _block_size s1 = 0) by (subst s1; fields; exact Hbs).
      revert Hloop. unfold load_body. unfold_monad. rewrite Hf1, Hd1, Hr, Hbs1.
      cbn. congruence. }
    clear Hf1 Hd1.
    rewrite (load_body_first 0 None s1 f d n r) in Hloop; subst s1; fields; auto.
    destruct (for_each_load_out_of_range (seq 1 m) (rewound r)
                (set_buffers ([] ++ [drop HDR_SIZE (fetched f s)])
                   (set_n_blocks (Some (n / _block_size s))
                      (set_chunk_size (Some n)
                         (set_dtype (Some d)
                            (set_file_idx 0 (set_buffers [] (set_mmaps [] s)))))))
                d) as (s' & Hs').
    { reflexivity. }
    { exists (length (_filenames s)). fields. split; [|lia].
      apply elem_of_seq. apply lookup_lt_Some in Hf0. lia. }
    change (fetched f (set_file_idx 0 (set_buffers [] (set_mmaps [] s))))
      with (fetched f s) in Hloop.
    rewrite Hs' in Hloop. congruence.
  - rewrite (load_body_index 0 None s1) in Hloop by (subst s1; fields; exact Hf0).
    congruence.
Qed.
End Window.

(** ** The window on a concrete corpus *)

Lemma demo_permutation_contract : @permutation_contract demo_numpy.
Proof.
  intros g n. cbn. unfold rotate.
  rewrite Permutation_app_comm. rewrite take_drop. reflexivity.
Qed.

(** C1 (the code at a failing input). A shard of two files with different
    payloads, n_chunks = 2: the constructor's load returns, and both buffers
    of the window hold the payload of the first file; buffer 1 is not the
    payload of the file at position 1. *)
Lemma C1_window_repeats_first_file :
  let init :=
    @PackedDatasetIterator.__init__ demo_numpy demo_storage ["f0"; "f1"]
      2 2 0 false false in
  init = Ret tt (final_state init)
  /\ PackedDatasetIterator._buffers (final_state init)
     = [demo_payload xa0; demo_payload xa0]
  /\ drop HDR_SIZE (demo_storage bucket_name "f0") = demo_payload xa0
  /\ drop HDR_SIZE (demo_storage bucket_name "f1") = demo_payload xa1
  /\ PackedDatasetIterator._buffers (final_state init) !! 1
     <> Some (drop HDR_SIZE (demo_storage bucket_name "f1"))
  /\ PackedDatasetIterator._file_idx (final_state init) = 2.
Proof.
  cbv zeta. repeat match goal with |- _ /\ _ => split end;
    try (vm_compute; reflexivity).
  vm_compute. discriminate.
Qed.

(** C3 (the code at a failing input). Four files, n_chunks = 2, two blocks
    per chunk, no shuffling. Without wrap the iterator serves the four blocks
    of its first window and then, with two files still ahead of the cursor,
    raises UnboundLocalError on its second load: it never loads a second
    window and never signals end-of-shard. With wrap, over a shard of two
    files, the second load resets the cursor and raises the same error
    instead of continuing. *)
Lemma C3_second_load_raises :
  let dataset filenames wrap :=
    PackedDataset.mk filenames 2 2 12345 false wrap 1 0 in
  let run filenames wrap :=
    spawn_and_take
      (@PackedDataset.__iter__ demo_numpy demo_storage None (dataset filenames wrap))
      (@PackedDatasetIterator.__next__ demo_numpy) 7 in
  run ["f0"; "f1"; "f2"; "f3"] false
  = [inr [160; 1]; inr [2; 3]; inr [160; 1]; inr [2; 3]; inl UnboundLocalError]%Z
  /\ run ["f0"; "f1"] true
  = [inr [160; 1]; inr [2; 3]; inr [160; 1]; inr [2; 3]; inl UnboundLocalError]%Z
  /\ run ["f0"; "f1"] false
  = [inr [160; 1]; inr [2; 3]; inr [160; 1]; inr [2; 3]; inl StopIteration]%Z.
Proof. cbv zeta. repeat split; vm_compute; reflexivity. Qed.

Lemma C6_block_index_sequence_witness :
  let it :=
    final_state
      (@PackedDatasetIterator.__init__ demo_numpy demo_storage
         ["f0"; "f1"; "f2"; "f3"] 2 2 1 true true) in
  PackedDatasetIterator._block_idxs it = [1; 2; 3; 0]
  /\ exists e s',
      @PackedDatasetIterator._load_n_chunks demo_numpy it = Raise e s'
      /\ (e = StopIteration \/ e = UnboundLocalError)
      /\ PackedDatasetIterator._block_idxs s' = [1; 2; 3; 0]
      /\ PackedDatasetIterator._rng s' = PackedDatasetIterator._rng it
      /\ PackedDatasetIterator._curr_idx s' = PackedDatasetIterator._curr_idx it.
Proof.
  intros it. split; [vm_compute; reflexivity|].
  apply (proj1 (proj2 (@C6_block_index_sequence demo_numpy demo_permutation_contract))
           it).
  split; [vm_compute; eauto|]. vm_compute. lia.
Defined.

Lemma C9_wrap_short_shard_witness :
  let s := @demo_iterator demo_numpy demo_storage ["f0"] 2 2 true in
  exists s',
    @PackedDatasetIterator._load_n_chunks demo_numpy s = Raise IndexError s'
    /\ PackedDatasetIterator._file_idx s' = 0.
Proof.
  intros s.
  assert (Hshort : length (PackedDatasetIterator._filenames s)
                   < PackedDatasetIterator._n_chunks s) by (cbn; lia).
  destruct (@C9_wrap_short_shard demo_numpy s eq_refl Hshort)
    as (e & s' & Hload & _ & Hfi & Hcase).
  vm_compute in Hcase. subst e. exists s'. split; assumption.
Defined.

(** C9 (where the claim fails). A shard of one file whose header is cut
    short, n_chunks = 2, wrap on: the load resets the cursor and raises the
    struct.error of the truncated header; it never reaches the access past
    the end of the file list. *)
Lemma C9_counterexample_truncated_first_file :
  let s := @demo_iterator demo_numpy demo_storage ["short"] 2 2 true in
  PackedDatasetIterator._wrap s = true
  /\ length (PackedDatasetIterator._filenames s) = 1
  /\ PackedDatasetIterator._n_chunks s = 2
  /\ @PackedDatasetIterator._load_n_chunks demo_numpy s
     = Raise struct_error
         (PackedDatasetIterator.set_file_idx 0
            (PackedDatasetIterator.set_buffers []
               (PackedDatasetIterator.set_mmaps [] s)))
  /\ struct_error <> IndexError.
Proof.
  cbv zeta. repeat match goal with |- _ /\ _ => split end;
    try (vm_compute; reflexivity).
  discriminate.
Qed.

(** ** Serving a block *)

Section Sample.
Context `{NumpyRuntime}.
Import PackedDatasetIterator.

Lemma split_elements_length size count bs :
  length (split_elements size count bs) = count.
Proof.
  revert bs. induction count as [|c IH]; intros bs; [reflexivity|].
  cbn. rewrite IH. reflexivity.
Qed.

Lemma split_elements_drop size e count bs :
  drop e (split_elements size count bs)
  = split_elements size (count - e) (drop (size * e) bs).
Proof.
  revert count bs. induction e as [|e IH]; intros count bs.
  - rewrite Nat.mul_0_r, Nat.sub_0_r. reflexivity.
  - destruct count as [|c]; [reflexivity|].
    cbn [split_elements drop Nat.sub]. rewrite IH, drop_drop.
    do 2 f_equal. lia.
Qed.

Lemma split_elements_take size k count bs :
  k <= count ->
  take k (split_elements size count bs) = split_elements size k bs.
Proof.
  revert count bs. induction k as [|k IH]; intros count bs Hk; [reflexivity|].
  destruct count as [|c]; [lia|].
  cbn [split_elements take]. rewrite IH by lia. reflexivity.
Qed.

Lemma itemsize_pos d : 1 <= itemsize d.
Proof. destruct d; cbn; lia. Qed.

(* the byte-offset slice the code takes is the element-offset slice of the
   buffer read as an array *)
Lemma frombuffer_elements buffer dtype count elem_id arr :
  frombuffer buffer dtype count (itemsize dtype * elem_id) = inr arr ->
  astype_int64 dtype arr
  = take count (drop elem_id (buffer_elements dtype buffer))
  /\ length arr = count.
Proof.
  unfold frombuffer, buffer_elements, astype_int64.
  destruct (Nat.ltb_spec (length buffer) (itemsize dtype * elem_id)) as [|Hoff];
    [discriminate|].
  destruct (Nat.ltb_spec (length buffer - itemsize dtype * elem_id)
              (count * itemsize dtype)) as [|Hsize]; [discriminate|].
  intros [= <-]. split; [|apply split_elements_length].
  rewrite List.skipn_map, List.firstn_map. f_equal.
  rewrite split_elements_drop, split_elements_take; [reflexivity|].
  pose proof (itemsize_pos dtype) as Hpos.
  assert (elem_id + count <= length buffer / itemsize dtype); [|lia].
  apply Nat.div_le_lower_bound; lia.
Qed.

(** C4 (where the code and the claim part). A next() that returns a sample
    took, in the window it served from, the block index b at the read cursor
    and returned the block_size contiguous elements of the locked dtype that
    start at element offset (b mod n_blocks) * block_size of the buffer of
    chunk b / n_blocks, each as a 64-bit integer value, and left the read
    cursor one further, as the claim says. But not every call that does not
    signal end-of-shard returns a sample: on an iterator that came out of
    its constructor (with a window whose length len() can return), a call
    at the end of the window with n_chunks files still ahead, or with wrap
    on, raises UnboundLocalError; it returns no sample and leaves the read
    cursor where it was. *)
Theorem C4_next_sample (s : t) :
  (forall x s',
      __next__ s = Ret x s' ->
      exists s1 b n_blocks buffer,
        (s1 = s \/ _load_n_chunks s = Ret tt s1)
        /\ _block_idxs s1 !! _curr_idx s1 = Some b
        /\ _n_blocks s1 = Some n_blocks
        /\ _buffers s1 !! (b / n_blocks) = Some buffer
        /\ x = take (_block_size s1)
                 (drop ((b mod n_blocks) * _block_size s1)
                    (buffer_elements (np_dtype_of (_dtype s1)) buffer))
        /\ length x = _block_size s1
        /\ s' = set_curr_idx (_curr_idx s1 + 1) s1)
  /\ (constructed s ->
      forall x s',
        __next__ s = Ret x s' ->
        _curr_idx s < length (_block_idxs s)
        /\ s' = set_curr_idx (_curr_idx s + 1) s)
  /\ (constructed s ->
      fits_ssize (length (_block_idxs s)) ->
      length (_block_idxs s) <= _curr_idx s ->
      _n_chunks s <= length (drop (_file_idx s) (_filenames s))
      \/ _wrap s = true ->
      exists s',
        __next__ s = Raise UnboundLocalError s'
        /\ _curr_idx s' = _curr_idx s
        /\ _block_idxs s' = _block_idxs s).
Proof.
  split; [|split].
  - intros x s'. unfold __next__. unfold_monad.
    assert (Hwin : exists s1,
               (s1 = s \/ _load_n_chunks s = Ret tt s1)
               /\ ((if length (_block_idxs s) <=? _curr_idx s
                    then _load_n_chunks else fun s0 => Ret tt s0) s = Ret tt s1
                   \/ exists e s2,
                       (if length (_block_idxs s) <=? _curr_idx s
                        then _load_n_chunks else fun s0 => Ret tt s0) s
                       = Raise e s2)).
    { destruct (length (_block_idxs s) <=? _curr_idx s).
      - destruct (_load_n_chunks s) as [[] s1|e s2]; eauto 8.
      - eauto 8. }
    destruct Hwin as (s1 & Hs1 & [Hw|(e & s2 & Hw)]); rewrite Hw; [|discriminate].
    destruct (_block_idxs s1 !! _curr_idx s1) as [b|] eqn:Hb; [|discriminate].
    destruct (_n_blocks s1) as [nb|] eqn:Hnb; [|discriminate].
    destruct (nb =? 0); [discriminate|].
    destruct (_buffers s1 !! (b / nb)) as [buffer|] eqn:Hbuf; [|discriminate].
    destruct (frombuffer _ _ _ _) as [|arr] eqn:Hfb; [discriminate|].
    intros [= <- <-]. apply frombuffer_elements in Hfb as [Hx Hlen].
    exists s1, b, nb, buffer.
    repeat match goal with |- _ /\ _ => split end; auto.
    unfold astype_int64. rewrite List.length_map. exact Hlen.
  - intros Hc x s' Hx.
    destruct (next_of_constructed s Hc) as [Hret _].
    destruct (Hret x s' Hx) as (Hlt & -> & _). auto.
  - intros Hc _ Hge Hahead. unfold __next__. unfold_monad.
    apply Nat.leb_le in Hge. rewrite Hge, (reload_raises s Hc).
    replace ((length (drop (_file_idx s) (_filenames s)) <? _n_chunks s)
             && negb (_wrap s)) with false.
    2:{ symmetry. apply andb_false_iff.
        destruct Hahead as [Hroom| ->]; [left|right; reflexivity].
        apply Nat.ltb_ge. exact Hroom. }
    destruct (pre_loop_fields s)
      as (_ & _ & _ & Hbi & _ & _ & _ & _ & _ & _ & _ & _ & Hci & _).
    eexists. split; [reflexivity|]. split; assumption.
Qed.
End Sample.

(** ** Shards *)

Section Slices.
Context {A : Type} `{!Inhabited A}.
Implicit Types l : list A.

Lemma omap_lookup_total l (g : nat -> nat) (idxs : list nat) :
  Forall (fun i => g i < length l) idxs ->
  omap (fun i => l !! g i) idxs = (fun i => l !!! g i) <$> idxs.
Proof.
  induction 1 as [|i idxs Hi _ IH]; [reflexivity|].
  cbn. rewrite (list_lookup_lookup_total_lt l (g i) Hi). cbn. rewrite IH. reflexivity.
Qed.

Lemma take_lookup_total l m :
  m <= length l -> take m l = (fun p => l !!! p) <$> seq 0 m.
Proof.
  intros Hm. apply list_eq. intros i.
  rewrite list_lookup_fmap.
  destruct (decide (i < m)) as [Hi|Hi].
  - rewrite lookup_take_lt, lookup_seq_lt by lia. cbn.
    apply list_lookup_lookup_total_lt. lia.
  - rewrite lookup_take_ge, lookup_seq_ge by lia. reflexivity.
Qed.

(* the slicelength of a strided slice that starts inside the first stride
   and stops at a multiple of the step *)
Lemma strided_length (q k s : nat) :
  1 <= q -> s < k -> (q * k - s - 1) / k + 1 = q.
Proof.
  intros Hq Hs.
  assert ((q * k - s - 1) / k = q - 1); [|lia].
  symmetry. apply (Nat.div_unique _ _ _ (k - s - 1)); nia.
Qed.

Lemma py_slice_shard l (k s : nat) :
  1 <= k -> s < k ->
  py_slice l s (length l / k * k) k
  = inr ((fun p => l !!! p) <$> shard_positions (length l) k s).
Proof.
  intros Hk Hs. unfold py_slice, shard_positions.
  destruct (Nat.eqb_spec k 0) as [|_]; [lia|]. f_equal.
  rewrite <- list_fmap_compose. unfold compose.
  pose proof (Nat.Div0.mul_div_le (length l) k) as Hmax.
  rewrite (Nat.mul_comm k) in Hmax.
  generalize dependent (length l / k). intros q Hmax.
  rewrite (Nat.min_l (q * k)) by exact Hmax.
  destruct q as [|q'].
  { cbn [Nat.mul]. destruct (Nat.ltb_spec (s `min` length l) 0); [lia|reflexivity]. }
  rewrite (Nat.min_l s) by nia.
  destruct (Nat.ltb_spec s (S q' * k)) as [_|]; [|nia].
  rewrite strided_length by lia.
  apply omap_lookup_total, Forall_forall. intros i Hi%elem_of_seq. nia.
Qed.
End Slices.

Section Positions.
Variables n k : nat.
Hypothesis Hk : 1 <= k.

Lemma elem_of_shard_positions s p :
  s < k ->
  p ∈ shard_positions n k s <-> p < n / k * k /\ p mod k = s.
Proof.
  intros Hs. unfold shard_positions. rewrite list_elem_of_fmap. split.
  - intros (j & -> & Hj%elem_of_seq). split; [nia|].
    rewrite Nat.Div0.mod_add. apply Nat.mod_small. exact Hs.
  - intros [Hp <-]. exists (p / k). split.
    + rewrite (Nat.div_mod_eq p k) at 1. lia.
    + apply elem_of_seq. split; [lia|]. cbn.
      apply Nat.Div0.div_lt_upper_bound. lia.
Qed.

Lemma shard_positions_NoDup s : NoDup (shard_positions n k s).
Proof.
  unfold shard_positions. apply NoDup_fmap_2_strong; [|apply NoDup_seq].
  intros i j _ _ Hij. nia.
Qed.

Lemma shard_positions_disjoint s1 s2 p :
  s1 < k -> s2 < k -> s1 <> s2 ->
  p ∈ shard_positions n k s1 -> p ∉ shard_positions n k s2.
Proof.
  intros H1 H2 Hne Hp1 Hp2.
  apply elem_of_shard_positions in Hp1 as [_ Hp1]; [|exact H1].
  apply elem_of_shard_positions in Hp2 as [_ Hp2]; [|exact H2].
  congruence.
Qed.

Lemma shard_positions_union :
  seq 0 k ≫= shard_positions n k ≡ₚ seq 0 (n / k * k).
Proof.
  apply NoDup_Permutation.
  - apply NoDup_bind; [| intros; apply shard_positions_NoDup | apply NoDup_seq].
    intros s1 s2 p Hs1%elem_of_seq Hs2%elem_of_seq Hp1 Hp2.
    destruct (decide (s1 = s2)) as [|Hne]; [assumption|].
    exfalso. eapply (shard_positions_disjoint s1 s2 p); eauto; lia.
  - apply NoDup_seq.
  - intros p. rewrite list_elem_of_bind, elem_of_seq. split.
    + intros (s & Hp & Hs%elem_of_seq).
      apply elem_of_shard_positions in Hp as [Hp _]; lia.
    + intros [_ Hp]. exists (p mod k). split.
      * apply elem_of_shard_positions; [apply Nat.mod_upper_bound; lia|].
        split; [exact Hp|reflexivity].
      * apply elem_of_seq. split; [lia|]. cbn. apply Nat.mod_upper_bound. lia.
Qed.
End Positions.

Lemma fmap_bind_list {A B C} (f : B -> C) (g : A -> list B) (l : list A) :
  f <$> (l ≫= g) = l ≫= (fun a => f <$> g a).
Proof.
  induction l as [|a l IH]; [reflexivity|].
  cbn. rewrite fmap_app, IH. reflexivity.
Qed.

Lemma shard_of_positions (filenames : list string) (k s : nat) :
  1 <= k -> s < k ->
  shard_of filenames k s
  = (fun p => filenames !!! p) <$> shard_positions (length filenames) k s.
Proof.
  intros Hk Hs. unfold shard_of. rewrite py_slice_shard by assumption. reflexivity.
Qed.

Lemma shard_of_lookup (filenames : list string) (k s j : nat) :
  1 <= k -> s < k ->
  shard_of filenames k s !! j
  = if bool_decide (s + j * k < length filenames / k * k)
    then filenames !! (s + j * k) else None.
Proof.
  intros Hk Hs. rewrite shard_of_positions by assumption.
  unfold shard_positions. rewrite <- list_fmap_compose, list_lookup_fmap.
  pose proof (Nat.Div0.mul_div_le (length filenames) k) as Hmax.
  case_bool_decide as Hj.
  - rewrite lookup_seq_lt by nia. cbn. symmetry.
    apply list_lookup_lookup_total_lt. nia.
  - rewrite lookup_seq_ge by nia. reflexivity.
Qed.

Section Spawn.
Context `{NumpyRuntime}.

Lemma _load_n_chunks_filenames s s' :
  PackedDatasetIterator._load_n_chunks s = Ret tt s' ->
  PackedDatasetIterator._filenames s' = PackedDatasetIterator._filenames s.
Proof.
  intros Hload.
  apply _load_n_chunks_returns in Hload as (l2 & s2 & _ & Hfr & Hw).
  apply window_of_returns in Hw as (nb & _ & _ & _ & _ & _ & _ & _ & _ & Hfn & _).
  destruct Hfr as (_ & _ & _ & _ & _ & Hfn2 & _).
  destruct (pre_loop_fields s) as (_ & _ & _ & _ & _ & Hfn1 & _).
  congruence.
Qed.

Lemma __init___filenames client filenames n_chunks block_size seed shuffle wrap it :
  PackedDatasetIterator.__init__ client filenames n_chunks block_size seed
    shuffle wrap = Ret tt it ->
  PackedDatasetIterator._filenames it = filenames.
Proof.
  intros Hinit. apply __init___returned in Hinit as [_ Hload].
  apply _load_n_chunks_filenames in Hload. exact Hload.
Qed.

(* rank * num_workers + worker_id numbers the workers of all processes *)
Lemma shard_id_bound (nw np r i : nat) :
  r < np -> i < nw -> r * nw + i < nw * np.
Proof.
  intros Hr Hi.
  pose proof (Nat.mul_le_mono_r (S r) np nw ltac:(lia)) as Hm.
  rewrite (Nat.mul_comm nw np). cbn [Nat.mul] in Hm. lia.
Qed.

(** C2. For every ordered file list and every num_shards >= 1, with
    max = floor(len / num_shards) * num_shards: the slice taken for a
    shard_id below num_shards holds floor(len / num_shards) files, the ones
    at positions shard_id, shard_id + num_shards, ... below max, in order;
    the positions of two distinct shards are disjoint (and so are their
    files when the names of the list are distinct); the shards together are
    a rearrangement of the first max files, max files in all; a position at
    or beyond max belongs to no shard. The file list __iter__ computes for
    its iterator is that slice, for
    shard_id = process_rank * num_workers + worker_id out of
    num_shards = num_workers * num_processes; the shard_id of a worker of a
    process below num_processes is below num_shards; and __iter__ is the
    iterator's constructor on that file list. *)
Theorem C2_shard_slices (filenames : list string) (num_shards : nat) :
  1 <= num_shards ->
  let n := length filenames in
  let max_num_files := n / num_shards * num_shards in
  (forall shard_id,
      shard_id < num_shards ->
      py_slice filenames shard_id max_num_files num_shards
      = inr (shard_of filenames num_shards shard_id)
      /\ length (shard_of filenames num_shards shard_id) = n / num_shards
      /\ (forall j,
          shard_of filenames num_shards shard_id !! j
          = if bool_decide (shard_id + j * num_shards < max_num_files)
            then filenames !! (shard_id + j * num_shards) else None)
      /\ shard_of filenames num_shards shard_id
         = (fun p => filenames !!! p) <$> shard_positions n num_shards shard_id)
  /\ (forall s1 s2 p,
      s1 < num_shards -> s2 < num_shards -> s1 <> s2 ->
      p ∈ shard_positions n num_shards s1 ->
      p ∉ shard_positions n num_shards s2)
  /\ (NoDup filenames ->
      forall s1 s2 f,
        s1 < num_shards -> s2 < num_shards -> s1 <> s2 ->
        f ∈ shard_of filenames num_shards s1 ->
        f ∉ shard_of filenames num_shards s2)
  /\ seq 0 num_shards ≫= shard_of filenames num_shards
     ≡ₚ take max_num_files filenames
  /\ length (seq 0 num_shards ≫= shard_of filenames num_shards) = max_num_files
  /\ (forall shard_id p,
      shard_id < num_shards ->
      p ∈ shard_positions n num_shards shard_id
      <-> p < max_num_files /\ p mod num_shards = shard_id)
  /\ (forall client worker_info dataset it,
      PackedDataset._filenames dataset = filenames ->
      PackedDataset.num_shards worker_info dataset = num_shards ->
      PackedDataset.__iter__ client worker_info dataset = inr it ->
      PackedDatasetIterator._filenames it
      = shard_of filenames num_shards
          (PackedDataset.shard_id worker_info dataset))
  /\ (forall w dataset,
      PackedDataset.shard_id (Some w) dataset
      = PackedDataset._process_rank dataset * PackedDataset.num_workers w
        + PackedDataset.id w
      /\ PackedDataset.num_shards (Some w) dataset
         = PackedDataset.num_workers w * PackedDataset._num_processes dataset)
  /\ (forall worker_info dataset,
      PackedDataset._filenames dataset = filenames ->
      PackedDataset.num_shards worker_info dataset = num_shards ->
      PackedDataset.shard_id worker_info dataset < num_shards ->
      PackedDataset.shard_filenames worker_info dataset
      = inr (shard_of filenames num_shards
               (PackedDataset.shard_id worker_info dataset))
      /\ forall client,
          PackedDataset.__iter__ client worker_info dataset
          = match PackedDatasetIterator.__init__ client
                    (shard_of filenames num_shards
                       (PackedDataset.shard_id worker_info dataset))
                    (PackedDataset._n_chunks dataset)
                    (PackedDataset._block_size dataset)
                    (PackedDataset._seed dataset)
                    (PackedDataset._shuffle dataset)
                    (PackedDataset._wrap dataset) with
            | Ret _ it => inr it
            | Raise e _ => inl e
            end)
  /\ (forall w dataset,
      PackedDataset._process_rank dataset < PackedDataset._num_processes dataset ->
      PackedDataset.id w < PackedDataset.num_workers w ->
      PackedDataset.shard_id (Some w) dataset
      < PackedDataset.num_shards (Some w) dataset).
Proof.
  intros Hk n max_num_files.
  assert (Hmax : max_num_files <= n).
  { subst max_num_files. rewrite Nat.mul_comm. apply Nat.Div0.mul_div_le. }
  assert (Hunion : seq 0 num_shards ≫= shard_of filenames num_shards
                   ≡ₚ take max_num_files filenames).
  { rewrite (take_lookup_total filenames max_num_files Hmax).
    transitivity ((fun p => filenames !!! p)
                    <$> (seq 0 num_shards ≫= shard_positions n num_shards));
      [|apply fmap_Permutation, shard_positions_union, Hk].
    rewrite fmap_bind_list.
    assert (Hext : forall l, Forall (fun s => s < num_shards) l ->
               l ≫= shard_of filenames num_shards
               = l ≫= (fun a => (fun p => filenames !!! p)
                                  <$> shard_positions n num_shards a)).
    { induction 1 as [|s l Hs _ IH]; [reflexivity|].
      cbn. rewrite IH, shard_of_positions by assumption. reflexivity. }
    rewrite Hext; [reflexivity|].
    apply Forall_forall. intros s Hs%elem_of_seq. lia. }
  repeat match goal with |- _ /\ _ => split end.
  - intros s Hs. repeat match goal with |- _ /\ _ => split end.
    + unfold shard_of. subst max_num_files n.
      destruct (py_slice _ _ _ _) eqn:Hp; [|reflexivity].
      rewrite py_slice_shard in Hp by assumption. discriminate.
    + rewrite shard_of_positions by assumption.
      unfold shard_positions. rewrite !length_fmap, length_seq. reflexivity.
    + intros j. apply shard_of_lookup; assumption.
    + apply shard_of_positions; assumption.
  - intros s1 s2 p. apply shard_positions_disjoint. exact Hk.
  - intros Hnd s1 s2 f Hs1 Hs2 Hne.
    rewrite !shard_of_positions by assumption.
    intros (p1 & -> & Hp1)%list_elem_of_fmap (p2 & Heq & Hp2)%list_elem_of_fmap.
    pose proof Hp1 as Hp1'. pose proof Hp2 as Hp2'.
    apply elem_of_shard_positions in Hp1' as [Hlt1 _]; [|assumption..].
    apply elem_of_shard_positions in Hp2' as [Hlt2 _]; [|assumption..].
    assert (p1 = p2).
    { eapply NoDup_lookup; [exact Hnd| |].
      - apply list_lookup_lookup_total_lt. unfold max_num_files, n in *. lia.
      - rewrite Heq. apply list_lookup_lookup_total_lt.
        unfold max_num_files, n in *. lia. }
    subst p2. eapply (shard_positions_disjoint n num_shards Hk s1 s2 p1); eauto.
  - exact Hunion.
  - rewrite Hunion, length_take. lia.
  - intros s p Hs. apply elem_of_shard_positions; assumption.
  - intros client wi ds it Hfn Hns. unfold PackedDataset.__iter__,
      PackedDataset.shard_filenames. rewrite Hns, Hfn.
    destruct (Nat.eqb_spec num_shards 0) as [|_]; [lia|].
    unfold shard_of.
    destruct (py_slice _ _ _ _) as [|files]; [discriminate|].
    destruct (PackedDatasetIterator.__init__ _ _ _ _ _ _ _) as [[] it'|] eqn:Hinit;
      [|discriminate].
    intros [= <-]. apply __init___filenames in Hinit. exact Hinit.
  - intros w dataset. split; reflexivity.
  - intros wi ds Hfn Hns Hsid.
    assert (Hsf : PackedDataset.shard_filenames wi ds
                  = inr (shard_of filenames num_shards
                           (PackedDataset.shard_id wi ds))).
    { unfold PackedDataset.shard_filenames. rewrite Hns, Hfn.
      destruct (Nat.eqb_spec num_shards 0) as [|_]; [lia|].
      rewrite shard_of_positions by assumption.
      apply py_slice_shard; assumption. }
    split; [exact Hsf|]. intros client. unfold PackedDataset.__iter__.
    rewrite Hsf. reflexivity.
  - intros w ds Hr Hi. apply shard_id_bound; assumption.
Qed.

Lemma py_slice_whole (filenames : list string) :
  py_slice filenames 0 (length filenames / 1 * 1) 1 = inr filenames.
Proof.
  rewrite py_slice_shard by lia. f_equal. unfold shard_positions.
  rewrite <- list_fmap_compose, Nat.div_1_r.
  transitivity (take (length filenames) filenames); [|apply take_ge; lia].
  rewrite (take_lookup_total filenames (length filenames)) by lia.
  apply list_fmap_ext. intros i j _. cbn. f_equal. lia.
Qed.

(** C10. With no worker identity available __iter__ counts one worker per
    process: num_shards = num_processes and shard_id = process_rank. With
    num_processes = 1 (and so process_rank = 0) the slice is the whole file
    list, and that list is what the iterator it returns is given. *)
Theorem C10_no_worker_info (dataset : PackedDataset.t) :
  PackedDataset.num_shards None dataset = PackedDataset._num_processes dataset
  /\ PackedDataset.shard_id None dataset = PackedDataset._process_rank dataset
  /\ (PackedDataset._num_processes dataset = 1 ->
      PackedDataset._process_rank dataset = 0 ->
      PackedDataset.shard_filenames None dataset
      = inr (PackedDataset._filenames dataset)
      /\ forall client it,
          PackedDataset.__iter__ client None dataset = inr it ->
          PackedDatasetIterator._filenames it = PackedDataset._filenames dataset).
Proof.
  assert (Hn : PackedDataset.num_shards None dataset
               = PackedDataset._num_processes dataset).
  { unfold PackedDataset.num_shards. lia. }
  assert (Hs : PackedDataset.shard_id None dataset
               = PackedDataset._process_rank dataset).
  { unfold PackedDataset.shard_id. lia. }
  split; [exact Hn|]. split; [exact Hs|]. intros Hp Hr.
  assert (Hsf : PackedDataset.shard_filenames None dataset
                = inr (PackedDataset._filenames dataset)).
  { unfold PackedDataset.shard_filenames. rewrite Hn, Hs, Hp, Hr.
    cbn [Nat.eqb]. apply py_slice_whole. }
  split; [exact Hsf|]. intros client it. unfold PackedDataset.__iter__.
  rewrite Hsf.
  destruct (PackedDatasetIterator.__init__ _ _ _ _ _ _ _) as [[] it'|] eqn:Hinit;
    [|discriminate].
  intros [= <-]. apply __init___filenames in Hinit. exact Hinit.
Qed.
End Spawn.

Lemma C2_shard_slices_witness :
  let filenames := ["f0"; "f1"; "f2"; "f3"; "f4"] in
  let worker := {| PackedDataset.num_workers := 2; PackedDataset.id := 1 |} in
  let dataset := PackedDataset.mk filenames 1 2 12345 false false 1 0 in
  1 <= 2
  /\ PackedDataset.shard_filenames (Some worker) dataset = inr ["f1"; "f3"]
  /\ shard_of filenames 2 0 = ["f0"; "f2"]
  /\ shard_of filenames 2 1 = ["f1"; "f3"]
  /\ seq 0 2 ≫= shard_of filenames 2 ≡ₚ take 4 filenames
  /\ length (seq 0 2 ≫= shard_of filenames 2) = 4.
Proof.
  intros filenames worker dataset.
  pose proof (@C2_shard_slices demo_numpy filenames 2 ltac:(lia)) as Hc.
  cbv zeta in Hc.
  destruct Hc as (_ & _ & _ & Hunion & Hlen & _ & _ & _ & Hfiles & _).
  destruct (Hfiles (Some worker) dataset eq_refl eq_refl ltac:(cbn; lia))
    as [Hsf _].
  split; [lia|]. split; [exact Hsf|]. split; [vm_compute; reflexivity|].
  split; [vm_compute; reflexivity|]. split; [exact Hunion|exact Hlen].
Defined.

(** ** Float arithmetic used by the weighted choice *)




(** ** The weighted choice *)

Lemma accumulate_from_length (ws : list float) acc :
  length (accumulate_from acc ws) = length ws.
Proof.
  revert acc. induction ws as [|w ws IH]; intros acc; [reflexivity|].
  cbn. rewrite IH. reflexivity.
Qed.

Lemma accumulate_length (ws : list float) : length (accumulate ws) = length ws.
Proof. destruct ws; [reflexivity|]. cbn. rewrite accumulate_from_length. reflexivity. Qed.


Section Choices.
Context `{PyRandom}.

(* the running sums end in a total exactly when there is a weight *)
Lemma last_accumulate (ws : list float) :
  ws <> [] -> is_Some (last (accumulate ws)).
Proof.
  intros Hne. rewrite last_lookup. apply lookup_lt_is_Some_2.
  rewrite accumulate_length. destruct ws; [contradiction|]. cbn. lia.
Qed.


(* Random.choices with weights it cannot use: no draw is made *)
Lemma choices_mismatch (n : nat) (weights : list float) (g : py_rng) :
  length weights <> n -> choices n weights g = Raise ValueError g.
Proof.
  intros Hne. unfold choices. rewrite accumulate_length.
  destruct (Nat.eqb_spec (length weights) n); [contradiction|]. reflexivity.
Qed.

Lemma choices_unusable_total (n : nat) (weights : list float) (g : py_rng)
    last_cum :
  length weights = n ->
  last (accumulate weights) = Some last_cum ->
  (last_cum + 0 <=? 0)%float = true \/ is_finite (last_cum + 0)%float = false ->
  choices n weights g = Raise ValueError g.
Proof.
  intros Hlen Hlast Hbad. unfold choices.
  rewrite accumulate_length, Hlen, Nat.eqb_refl. cbn [negb]. unfold_monad.
  rewrite Hlast. destruct (last_cum + 0 <=? 0)%float; [reflexivity|].
  destruct Hbad as [Hb|Hb]; [discriminate|rewrite Hb; reflexivity].
Qed.
End Choices.

(** ** The combinator *)

Section Combinator.
Context `{PyRandom} {D I : Type} `{Iterable D I}.
Import CombinedDatasetIterator.


End Combinator.


(** The choice follows float rounding. Three weights of 1/3 add up to
    1.0 with the second running sum at 0.6666666666666666, so a draw of that
    value is not below it and picks position 2; ten weights of 1/10 put a
    draw of 0.5 at position 4; and two weights of 2^1023 have an infinite
    total, which is refused. *)
Lemma choices_follows_float_rounding :
  @choices scripted_random 3 (replicate 3 (1 / 3)%float)
    [0x1.5555555555555p-1%float]
  = Ret 2 []
  /\ @choices scripted_random 10 (replicate 10 (1 / 10)%float) [0x1p-1%float]
     = Ret 4 []
  /\ @choices scripted_random 2 [0x1p1023%float; 0x1p1023%float]
       [0x1p-1%float]
     = Raise ValueError [0x1p-1%float].
Proof. repeat split; vm_compute; reflexivity. Qed.


(** ** Independent spawns *)

Section Clients.
Context `{NumpyRuntime}.
Import PackedDatasetIterator.
Variable client : Storage.

Lemma _read_with_client f s :
  client (bucket_name s) f = storage_client s (bucket_name s) f ->
  _read f (with_client client s) = _read f s.
Proof. intros Hf. unfold _read. fields. rewrite Hf. reflexivity. Qed.

Lemma load_body_with_client i l s :
  serves_alike client s ->
  load_body i l (with_client client s)
  = map_state (with_client client) (load_body i l s).
Proof.
  intros Hs. unfold load_body. unfold_monad. fields.
  destruct (_filenames s !! (_file_idx s + i)) as [f|] eqn:Hf; [|reflexivity].
  rewrite _read_with_client by (apply Hs; eapply list_elem_of_lookup_2, Hf).
  destruct (_dtype s).
  - destruct l; reflexivity.
  - destruct (_read f s) as [|[[d n] r]]; [reflexivity|].
    destruct (_block_size s =? 0); reflexivity.
Qed.

Lemma serves_alike_frame s s' :
  loop_frame s s' -> serves_alike client s -> serves_alike client s'.
Proof.
  intros (_ & _ & _ & _ & _ & Hfn & _ & _ & _ & _ & _ & Hc & Hb) Hs f Hf.
  rewrite Hc, Hb. apply Hs. rewrite <- Hfn. exact Hf.
Qed.

Lemma for_each_load_with_client idxs l s :
  serves_alike client s ->
  for_each load_body idxs l (with_client client s)
  = map_state (with_client client) (for_each load_body idxs l s).
Proof.
  revert l s. induction idxs as [|i idxs IH]; intros l s Hs; [reflexivity|].
  cbn [for_each]. unfold bind. rewrite load_body_with_client by exact Hs.
  pose proof (load_body_frame i l s) as Hfr.
  destruct (load_body i l s) as [l1 s1|e s1]; cbn [map_state]; [|reflexivity].
  apply IH. eapply serves_alike_frame; eauto.
Qed.

Lemma _load_n_chunks_with_client s :
  serves_alike client s ->
  _load_n_chunks (with_client client s)
  = map_state (with_client client) (_load_n_chunks s).
Proof.
  intros Hs. rewrite !_load_n_chunks_unfold. cbv zeta. fields.
  destruct (_ && _); [reflexivity|].
  replace (pre_loop (with_client client s)) with (with_client client (pre_loop s))
    by (unfold pre_loop; fields; destruct (_ <? _); reflexivity).
  rewrite for_each_load_with_client.
  2:{ unfold pre_loop. destruct (_ <? _); exact Hs. }
  destruct (for_each load_body _ _ _) as [l2 s2|e s2]; cbn [map_state];
    [|reflexivity].
  unfold window_of. fields.
  destruct (_n_blocks s2); [|reflexivity].
  destruct (_shuffle s2); [|reflexivity].
  destruct (_rng s2); reflexivity.
Qed.

Lemma _load_n_chunks_serves s :
  serves_alike client s ->
  serves_alike client (final_state (_load_n_chunks s)).
Proof.
  intros Hs. rewrite _load_n_chunks_unfold. cbv zeta.
  destruct (_ && _); [exact Hs|].
  assert (Hp : serves_alike client (pre_loop s))
    by (unfold pre_loop; destruct (_ <? _); exact Hs).
  pose proof (for_each_load_frame (seq 0 (_n_chunks s)) None (pre_loop s)) as Hfr.
  destruct (for_each load_body _ _ _) as [l2 s2|e s2]; cbn [final_state] in *.
  2:{ eapply serves_alike_frame; eauto. }
  pose proof (serves_alike_frame _ _ Hfr Hp) as Hs2.
  unfold window_of. fields.
  destruct (_n_blocks s2); [|exact Hs2].
  destruct (_shuffle s2); [|exact Hs2].
  destruct (_rng s2); exact Hs2.
Qed.

Lemma __next___with_client s :
  serves_alike client s ->
  __next__ (with_client client s) = map_state (with_client client) (__next__ s)
  /\ serves_alike client (final_state (__next__ s)).
Proof.
  intros Hs. unfold __next__. unfold_monad. fields.
  destruct (length (_block_idxs s) <=? _curr_idx s).
  - rewrite _load_n_chunks_with_client by exact Hs.
    pose proof (_load_n_chunks_serves s Hs) as Hs1.
    destruct (_load_n_chunks s) as [[] s1|e s1]; cbn [map_state final_state] in *;
      [|auto].
    unfold_monad. fields.
    destruct (_block_idxs s1 !! _curr_idx s1) as [b|]; [|auto].
    destruct (_n_blocks s1) as [nb|]; [|auto].
    destruct (nb =? 0); [auto|].
    destruct (_buffers s1 !! (b / nb)) as [buffer|]; [|auto].
    destruct (frombuffer buffer _ _ _); auto.
  - unfold_monad. fields.
    destruct (_block_idxs s !! _curr_idx s) as [b|]; [|auto].
    destruct (_n_blocks s) as [nb|]; [|auto].
    destruct (nb =? 0); [auto|].
    destruct (_buffers s !! (b / nb)) as [buffer|]; [|auto].
    destruct (frombuffer buffer _ _ _); auto.
Qed.

Lemma take_samples_with_client n s :
  serves_alike client s ->
  take_samples __next__ n (with_client client s) = take_samples __next__ n s.
Proof.
  revert s. induction n as [|n IH]; intros s Hs; [reflexivity|].
  cbn [take_samples]. destruct (__next___with_client s Hs) as [-> Hs'].
  destruct (__next__ s) as [x s'|e s']; cbn [map_state final_state] in *;
    [|reflexivity].
  rewrite IH by exact Hs'. reflexivity.
Qed.
End Clients.

Section Spawns.
Context `{NumpyRuntime}.

Lemma py_slice_subset {A} (l : list A) start stop step files :
  py_slice l start stop step = inr files -> forall x, x ∈ files -> x ∈ l.
Proof.
  unfold py_slice. destruct (step =? 0); [discriminate|].
  intros [= <-] x (i & _ & Hx)%list_elem_of_omap.
  eapply list_elem_of_lookup_2, Hx.
Qed.

Lemma __init___with_client client1 client2 filenames n_chunks block_size seed
    shuffle wrap :
  same_files client1 client2 filenames ->
  PackedDatasetIterator.__init__ client2 filenames n_chunks block_size seed
    shuffle wrap
  = map_state (PackedDatasetIterator.with_client client2)
      (PackedDatasetIterator.__init__ client1 filenames n_chunks block_size seed
         shuffle wrap)
  /\ PackedDatasetIterator.serves_alike client2
       (final_state (PackedDatasetIterator.__init__ client1 filenames n_chunks
                       block_size seed shuffle wrap)).
Proof.
  intros Hsame. unfold PackedDatasetIterator.__init__, np_default_rng.
  destruct shuffle; [destruct (seed <? 0)%Z|];
    match goal with
    | |- _ = map_state _ (PackedDatasetIterator._load_n_chunks ?s0) /\ _ =>
      assert (Hs : PackedDatasetIterator.serves_alike client2 s0)
        by (intros f Hf; symmetry; apply Hsame, Hf);
      split; [|apply _load_n_chunks_serves, Hs];
      rewrite <- (_load_n_chunks_with_client client2 s0 Hs); reflexivity
    | |- _ => split; [reflexivity|intros f Hf; symmetry; apply Hsame, Hf]
    end.
Qed.

(* two spawns of one dataset over clients that serve its files alike *)
Lemma __iter___related client1 client2 worker_info dataset :
  same_files client1 client2 (PackedDataset._filenames dataset) ->
  match PackedDataset.__iter__ client1 worker_info dataset,
        PackedDataset.__iter__ client2 worker_info dataset with
  | inl e1, inl e2 => e1 = e2
  | inr it1, inr it2 =>
    it2 = PackedDatasetIterator.with_client client2 it1
    /\ PackedDatasetIterator.serves_alike client2 it1
  | _, _ => False
  end.
Proof.
  intros Hsame. unfold PackedDataset.__iter__.
  destruct (PackedDataset.shard_filenames worker_info dataset) as [e|files] eqn:Hsf;
    [reflexivity|].
  assert (Hfiles : same_files client1 client2 files).
  { intros bucket path Hp. apply Hsame. revert Hp.
    unfold PackedDataset.shard_filenames in Hsf.
    destruct (_ =? 0); [discriminate|]. eapply py_slice_subset, Hsf. }
  destruct (__init___with_client client1 client2 files
              (PackedDataset._n_chunks dataset) (PackedDataset._block_size dataset)
              (PackedDataset._seed dataset) (PackedDataset._shuffle dataset)
              (PackedDataset._wrap dataset) Hfiles) as [-> Hs].
  destruct (PackedDatasetIterator.__init__ client1 _ _ _ _ _ _) as [[] it|e it];
    cbn [map_state final_state] in *; auto.
Qed.

Lemma __iter___with_client client1 client2 worker_info dataset n :
  same_files client1 client2 (PackedDataset._filenames dataset) ->
  spawn_and_take (PackedDataset.__iter__ client1 worker_info dataset)
    PackedDatasetIterator.__next__ n
  = spawn_and_take (PackedDataset.__iter__ client2 worker_info dataset)
      PackedDatasetIterator.__next__ n.
Proof.
  intros Hsame.
  pose proof (__iter___related client1 client2 worker_info dataset Hsame) as Hrel.
  destruct (PackedDataset.__iter__ client1 worker_info dataset) as [e1|it1],
    (PackedDataset.__iter__ client2 worker_info dataset) as [e2|it2];
    try contradiction; cbn [spawn_and_take].
  - congruence.
  - destruct Hrel as [-> Hs]. symmetry. apply take_samples_with_client, Hs.
Qed.

Section Combined.
Context `{PyRandom}.
Variables client1 client2 : Storage.
Variable worker_info : option PackedDataset.WorkerInfo.

Local Abbreviation children client := (PackedDataset_Iterable client worker_info).
Local Abbreviation combined_next client :=
  (@CombinedDatasetIterator.__next__ _ _ _ (children client)).
Local Abbreviation combined_iter client :=
  (@CombinedDataset.__iter__ _ _ _ (children client)).
Local Abbreviation iter_children client := (@iter_all _ _ (children client)).

Lemma combined_next_with_client (self : CombinedDatasetIterator.t) :
  Forall (PackedDatasetIterator.serves_alike client2)
    (CombinedDatasetIterator._datasets self) ->
  combined_next client2 (reclient client2 self)
  = map_state (reclient client2)
      (combined_next client1 self)
  /\ Forall (PackedDatasetIterator.serves_alike client2)
       (CombinedDatasetIterator._datasets
          (final_state
             (combined_next client1 self))).
Proof.
  intros Hall. unfold CombinedDatasetIterator.__next__, reclient.
  cbn [CombinedDatasetIterator._datasets CombinedDatasetIterator._weights
       CombinedDatasetIterator._rng py_next PackedDataset_Iterable].
  rewrite length_fmap.
  destruct (choices _ _ _) as [idx g|e g]; cbn [map_state final_state]; [|auto].
  rewrite list_lookup_fmap.
  destruct (CombinedDatasetIterator._datasets self !! idx) as [dataset|] eqn:Hd;
    cbn [fmap option_fmap option_map map_state final_state]; [|auto].
  assert (Hs : PackedDatasetIterator.serves_alike client2 dataset)
    by (eapply Forall_lookup_1; eauto).
  destruct (__next___with_client client2 dataset Hs) as [-> Hs'].
  destruct (PackedDatasetIterator.__next__ dataset) as [x d'|e d'];
    cbn [map_state final_state CombinedDatasetIterator._datasets
         CombinedDatasetIterator._weights CombinedDatasetIterator._rng] in *;
    rewrite list_fmap_insert; (split; [reflexivity|]);
    apply Forall_insert; assumption.
Qed.

Lemma combined_take_with_client n (self : CombinedDatasetIterator.t) :
  Forall (PackedDatasetIterator.serves_alike client2)
    (CombinedDatasetIterator._datasets self) ->
  take_samples
    (combined_next client2) n (reclient client2 self)
  = take_samples
      (combined_next client1) n self.
Proof.
  revert self. induction n as [|n IH]; intros self Hall; [reflexivity|].
  cbn [take_samples]. destruct (combined_next_with_client self Hall) as [-> Hall'].
  destruct (combined_next client1 self) as [x s'|e s'];
    cbn [map_state final_state] in *; [|reflexivity].
  rewrite IH by exact Hall'. reflexivity.
Qed.

Lemma iter_all_related (datasets : list PackedDataset.t) :
  Forall (fun dataset =>
            same_files client1 client2 (PackedDataset._filenames dataset))
    datasets ->
  match iter_children client1 datasets,
        iter_children client2 datasets with
  | inl e1, inl e2 => e1 = e2
  | inr its1, inr its2 =>
    its2 = PackedDatasetIterator.with_client client2 <$> its1
    /\ Forall (PackedDatasetIterator.serves_alike client2) its1
  | _, _ => False
  end.
Proof.
  induction 1 as [|dataset datasets Hd _ IH]; [cbn; auto|].
  cbn [iter_all py_iter PackedDataset_Iterable].
  pose proof (__iter___related client1 client2 worker_info dataset Hd) as Hrel.
  destruct (PackedDataset.__iter__ client1 worker_info dataset) as [e1|it1],
    (PackedDataset.__iter__ client2 worker_info dataset) as [e2|it2];
    try contradiction; [exact Hrel|].
  destruct Hrel as [-> Hs].
  destruct (iter_children client1 datasets)
    as [e1|its1],
    (iter_children client2 datasets)
    as [e2|its2]; try contradiction; [exact IH|].
  destruct IH as [-> Hall]. split; [reflexivity|]. constructor; assumption.
Qed.

Lemma combined_spawn_with_client (dataset : CombinedDataset.t) n :
  Forall (fun d => same_files client1 client2 (PackedDataset._filenames d))
    (CombinedDataset._datasets dataset) ->
  spawn_and_take
    (combined_iter client1 dataset)
    (combined_next client1) n
  = spawn_and_take
      (combined_iter client2 dataset)
      (combined_next client2) n.
Proof.
  intros Hall. unfold CombinedDataset.__iter__, CombinedDatasetIterator.__init__.
  pose proof (iter_all_related _ Hall) as Hrel.
  destruct (iter_children client1 _)
    as [e1|its1],
    (iter_children client2 _)
    as [e2|its2]; try contradiction; cbn [spawn_and_take].
  - congruence.
  - destruct Hrel as [-> Hs]. symmetry.
    apply (combined_take_with_client n
             (CombinedDatasetIterator.mk its1 (CombinedDataset._weights dataset)
                (Random (CombinedDataset._seed dataset)))).
    exact Hs.
Qed.
End Combined.
End Spawns.

(** C8. Two spawns from the same configuration produce the same run: for
    every n, the first n results of next() (samples, then the first raise if
    there is one) are the same, for a PackedDataset and for a CombinedDataset
    over PackedDatasets, whenever the two spawns are served the same bytes
    for the configured files. Each spawn starts from a generator of its own
    made from the configured seed: the iterator's numpy generator is
    default_rng(seed) advanced by the one permutation of its first window,
    and the combinator's generator is Random(seed). *)
Theorem C8_spawn_determinism `{NumpyRuntime} `{PyRandom}
    (client1 client2 : Storage)
    (worker_info : option PackedDataset.WorkerInfo) :
  (forall dataset n,
      same_files client1 client2 (PackedDataset._filenames dataset) ->
      spawn_and_take (PackedDataset.__iter__ client1 worker_info dataset)
        PackedDatasetIterator.__next__ n
      = spawn_and_take (PackedDataset.__iter__ client2 worker_info dataset)
          PackedDatasetIterator.__next__ n)
  /\ (forall (dataset : CombinedDataset.t) n,
      Forall (fun d => same_files client1 client2 (PackedDataset._filenames d))
        (CombinedDataset._datasets dataset) ->
      spawn_and_take
        (@CombinedDataset.__iter__ _ _ _
           (PackedDataset_Iterable client1 worker_info) dataset)
        (@CombinedDatasetIterator.__next__ _ _ _
           (PackedDataset_Iterable client1 worker_info)) n
      = spawn_and_take
          (@CombinedDataset.__iter__ _ _ _
             (PackedDataset_Iterable client2 worker_info) dataset)
          (@CombinedDatasetIterator.__next__ _ _ _
             (PackedDataset_Iterable client2 worker_info)) n)
  /\ (forall dataset it,
      PackedDataset.__iter__ client1 worker_info dataset = inr it ->
      (PackedDataset._shuffle dataset = false ->
       PackedDatasetIterator._rng it = None)
      /\ (PackedDataset._shuffle dataset = true ->
          exists n_blocks,
            PackedDatasetIterator._n_blocks it = Some n_blocks
            /\ PackedDatasetIterator._block_idxs it
               = fst (permutation (default_rng (PackedDataset._seed dataset))
                        (PackedDataset._n_chunks dataset * n_blocks))
            /\ PackedDatasetIterator._rng it
               = Some (snd (permutation
                              (default_rng (PackedDataset._seed dataset))
                              (PackedDataset._n_chunks dataset * n_blocks)))))
  /\ (forall (dataset : CombinedDataset.t) it,
      @CombinedDataset.__iter__ _ _ _
        (PackedDataset_Iterable client1 worker_info) dataset = inr it ->
      CombinedDatasetIterator._rng it = Random (CombinedDataset._seed dataset)).
Proof.
  split; [|split; [|split]].
  - intros dataset n Hsame. apply __iter___with_client, Hsame.
  - intros dataset n Hall. apply combined_spawn_with_client, Hall.
  - intros dataset it. unfold PackedDataset.__iter__.
    destruct (PackedDataset.shard_filenames worker_info dataset) as [|files];
      [discriminate|].
    destruct (PackedDatasetIterator.__init__ _ _ _ _ _ _ _) as [[] it'|] eqn:Hinit;
      [|discriminate].
    intros [= <-]. apply __init___returned in Hinit as [_ Hinit].
    apply _load_n_chunks_window in Hinit
      as (nb & Hnb & _ & _ & Hseq & Hshuf). unfold fresh in Hseq, Hshuf. fields.
    split.
    + intros Hsh. rewrite Hsh in Hseq. destruct Hseq as [_ ->]; reflexivity.
    + intros Hsh. rewrite Hsh in Hshuf.
      destruct Hshuf as (g & [= <-] & Hb & Hr); [reflexivity|].
      exists nb. auto.
  - intros dataset it. unfold CombinedDataset.__iter__,
      CombinedDatasetIterator.__init__.
    destruct (iter_all _) as [|its]; [discriminate|].
    intros [= <-]. reflexivity.
Qed.

(** ** Instances on the concrete corpus *)

Lemma demo_mirror_same_files :
  same_files demo_storage demo_mirror ["f0"; "f1"].
Proof.
  intros bucket path Hp.
  apply elem_of_cons in Hp as [->|Hp]; [reflexivity|].
  apply elem_of_cons in Hp as [->|Hp]; [reflexivity|].
  inversion Hp.
Qed.

Lemma C8_spawn_determinism_witness :
  let dataset := PackedDataset.mk ["f0"; "f1"] 2 2 12345 true false 1 0 in
  same_files demo_storage demo_mirror (PackedDataset._filenames dataset)
  /\ spawn_and_take
       (@PackedDataset.__iter__ demo_numpy demo_storage None dataset)
       (@PackedDatasetIterator.__next__ demo_numpy) 6
     = spawn_and_take
         (@PackedDataset.__iter__ demo_numpy demo_mirror None dataset)
         (@PackedDatasetIterator.__next__ demo_numpy) 6.
Proof.
  cbv zeta. split; [exact demo_mirror_same_files|].
  apply (proj1 (@C8_spawn_determinism demo_numpy demo_random demo_storage
                  demo_mirror None)).
  exact demo_mirror_same_files.
Defined.

Lemma C4_next_sample_witness :
  let it :=
    state_after (@PackedDatasetIterator.__next__ demo_numpy) 4
      (final_state
         (@PackedDatasetIterator.__init__ demo_numpy demo_storage
            ["f0"; "f1"; "f2"; "f3"] 2 2 0 false false)) in
  PackedDatasetIterator._file_idx it = 2
  /\ length (PackedDatasetIterator._filenames it) = 4
  /\ exists s',
      @PackedDatasetIterator.__next__ demo_numpy it = Raise UnboundLocalError s'
      /\ PackedDatasetIterator._curr_idx s' = 4
      /\ PackedDatasetIterator._block_idxs s' = [0; 1; 2; 3].
Proof.
  intros it. split; [vm_compute; reflexivity|]. split; [vm_compute; reflexivity|].
  assert (Hc : @PackedDatasetIterator.constructed demo_numpy it).
  { split; [vm_compute; eauto|]. vm_compute. lia. }
  assert (Hge : length (PackedDatasetIterator._block_idxs it)
                <= PackedDatasetIterator._curr_idx it) by (vm_compute; lia).
  assert (Hahead : PackedDatasetIterator._n_chunks it
                   <= length (drop (PackedDatasetIterator._file_idx it)
                                (PackedDatasetIterator._filenames it))
                   \/ PackedDatasetIterator._wrap it = true)
    by (left; vm_compute; lia).
  assert (Hfits : fits_ssize (length (PackedDatasetIterator._block_idxs it)))
    by (vm_compute; reflexivity).
  exact (proj2 (proj2 (@C4_next_sample demo_numpy it)) Hc Hfits Hge Hahead).
Defined.

Lemma C5_header_parse_witness :
  let self := @demo_iterator demo_numpy demo_storage ["f0"] 1 2 false in
  24 <= length (fetched "f0" self)
  /\ ~ header_violation (fetched "f0" self)
  /\ dtypes !! le_unsigned (dtype_field (fetched "f0" self)) = Some uint8.
Proof.
  cbv zeta.
  destruct (proj1 (proj1 (@C5_header_parse demo_numpy "f0"
                            (@demo_iterator demo_numpy demo_storage ["f0"] 1 2 false))
                     uint8 4
                     (BytesIO.mk (demo_storage bucket_name "f0") HDR_SIZE)))
    as (Hlen & Hnv & Hd & _).
  - vm_compute. reflexivity.
  - auto.
Defined.

Lemma C10_no_worker_info_witness :
  let dataset := PackedDataset.mk ["f0"; "f1"; "f2"] 1 2 12345 false false 1 0 in
  PackedDataset.shard_filenames None dataset = inr ["f0"; "f1"; "f2"].
Proof.
  cbv zeta.
  apply (proj2 (proj2 (@C10_no_worker_info demo_numpy
                         (PackedDataset.mk ["f0"; "f1"; "f2"] 1 2 12345
                            false false 1 0))) eq_refl eq_refl).
Defined.

(** ** The life of a constructed iterator *)

Section Lifetime.
Context `{NumpyRuntime}.
Import PackedDatasetIterator.

(** X1. Every buffer of the first window is the payload of the file at the
    cursor: a load that starts with no dtype locked and returns has parsed
    that one file, filled all n_chunks buffers with its payload and moved
    the cursor by n_chunks. *)
Theorem first_window_repeats_one_file (s s' : t) (f : string) :
  _dtype s = None ->
  _load_n_chunks s = Ret tt s' ->
  _filenames s !! _file_idx (pre_loop s) = Some f ->
  _buffers s' = replicate (_n_chunks s) (drop HDR_SIZE (fetched f s))
  /\ _file_idx s' = _file_idx (pre_loop s) + _n_chunks s
  /\ (1 <= _n_chunks s -> exists d, _dtype s' = Some d).
Proof. apply first_window_buffers. Qed.

(** X2. An iterator that came out of its constructor never loads a second
    window: a load on it signals end-of-shard when fewer than n_chunks files
    remain and wrap is off, and raises UnboundLocalError in every other
    case, wrap or not. *)
Theorem constructed_iterator_never_reloads client filenames n_chunks block_size
    seed shuffle wrap (it : t) :
  __init__ client filenames n_chunks block_size seed shuffle wrap = Ret tt it ->
  constructed it
  /\ forall s,
      constructed s ->
      _load_n_chunks s =
      if (length (drop (_file_idx s) (_filenames s)) <? _n_chunks s)
         && negb (_wrap s)
      then Raise StopIteration (set_buffers [] (set_mmaps [] s))
      else Raise UnboundLocalError (pre_loop s).
Proof.
  intros Hinit. split; [eapply __init___constructed, Hinit|].
  intros s Hs. apply reload_raises, Hs.
Qed.

(** X3. A constructed iterator serves the blocks of its first window and then
    raises: each next() that returns only moved the read cursor by one, and
    a next() whose cursor is past the block indices raises StopIteration or
    UnboundLocalError; so it returns at most as many samples as the window
    has blocks left. *)
Theorem constructed_iterator_serves_one_window (s : t) (n : nat) :
  constructed s ->
  length (samples_of (take_samples __next__ n s))
  <= length (_block_idxs s) - _curr_idx s
  /\ (forall x s',
      __next__ s = Ret x s' -> s' = set_curr_idx (_curr_idx s + 1) s)
  /\ (length (_block_idxs s) <= _curr_idx s ->
      exists e s',
        __next__ s = Raise e s'
        /\ (e = StopIteration \/ e = UnboundLocalError)).
Proof.
  intros Hc. split; [|split].
  - revert s Hc. induction n as [|n IH]; intros s Hc; [cbn; lia|].
    cbn [take_samples].
    destruct (next_of_constructed s Hc) as [Hret _].
    destruct (__next__ s) as [x s'|e s'] eqn:Hnext.
    + destruct (Hret x s' eq_refl) as (Hlt & -> & Hc').
      cbn [samples_of omap list_omap length]. fold (samples_of (take_samples __next__ n
        (set_curr_idx (_curr_idx s + 1) s))).
      specialize (IH _ Hc'). fields. lia.
    + cbn. lia.
  - intros x s' Hx. destruct (next_of_constructed s Hc) as [Hret _].
    apply Hret in Hx. tauto.
  - apply next_of_constructed, Hc.
Qed.
End Lifetime.

Lemma first_window_repeats_one_file_witness :
  let s := @demo_iterator demo_numpy demo_storage ["f0"; "f1"] 2 2 false in
  let s' := final_state (@PackedDatasetIterator._load_n_chunks demo_numpy s) in
  PackedDatasetIterator._buffers s'
  = replicate 2 (drop HDR_SIZE (@fetched demo_numpy "f0" s))
  /\ PackedDatasetIterator._file_idx s' = 0 + 2
  /\ (1 <= 2 -> exists d, PackedDatasetIterator._dtype s' = Some d).
Proof.
  cbv zeta.
  apply (@first_window_repeats_one_file demo_numpy
           (@demo_iterator demo_numpy demo_storage ["f0"; "f1"] 2 2 false));
    vm_compute; reflexivity.
Defined.

Lemma constructed_iterator_never_reloads_witness :
  let init :=
    @PackedDatasetIterator.__init__ demo_numpy demo_storage
      ["f0"; "f1"; "f2"; "f3"] 2 2 0 false false in
  @PackedDatasetIterator.constructed demo_numpy (final_state init)
  /\ @PackedDatasetIterator._load_n_chunks demo_numpy (final_state init)
     = Raise UnboundLocalError
         (@PackedDatasetIterator.pre_loop demo_numpy (final_state init)).
Proof.
  cbv zeta.
  destruct (@constructed_iterator_never_reloads demo_numpy demo_storage
              ["f0"; "f1"; "f2"; "f3"] 2 2 0%Z false false
              (final_state
                 (@PackedDatasetIterator.__init__ demo_numpy demo_storage
                    ["f0"; "f1"; "f2"; "f3"] 2 2 0 false false)))
    as [Hc Hload].
  - vm_compute. reflexivity.
  - split; [exact Hc|]. rewrite (Hload _ Hc). reflexivity.
Defined.

Lemma constructed_iterator_serves_one_window_witness :
  let it :=
    final_state
      (@PackedDatasetIterator.__init__ demo_numpy demo_storage
         ["f0"; "f1"; "f2"; "f3"] 2 2 0 false true) in
  length (samples_of
            (take_samples (@PackedDatasetIterator.__next__ demo_numpy) 9 it))
  <= 4.
Proof.
  cbv zeta.
  refine (proj1 (@constructed_iterator_serves_one_window demo_numpy _ 9 _)).
  eapply (@__init___constructed demo_numpy demo_storage
            ["f0"; "f1"; "f2"; "f3"] 2 2 0%Z false true).
  vm_compute. reflexivity.
Defined.

(** ** The dtype codes and the header layout *)

Lemma code_lookup (d : np_dtype) (k : Z) :
  code d = inr k <-> dtypes !! k = Some d.
Proof.
  split.
  - destruct d; vm_compute; intros [= <-]; reflexivity.
  - intros Hk. apply dtypes_lookup in Hk.
    repeat match goal with
           | H : _ \/ _ |- _ => destruct H
           | H : _ /\ _ |- _ => destruct H
           end; subst; vm_compute; reflexivity.
Qed.

Lemma code_total (d : np_dtype) : exists k, code d = inr k /\ (1 <= k <= 8)%Z.
Proof. destruct d; eexists; (split; [vm_compute; reflexivity|lia]). Qed.

(** X4. code is the inverse of the dtype table: code(dtype) returns k
    exactly when dtypes[k] is that dtype, it returns a code for each of the
    eight dtypes of the table (its ValueError is never raised on them), and
    the code is one of 1..8. *)
Theorem code_inverts_dtypes (d : np_dtype) :
  (forall k, code d = inr k <-> dtypes !! k = Some d)
  /\ (exists k, code d = inr k /\ (1 <= k <= 8)%Z)
  /\ (forall k d', dtypes !! k = Some d' -> code d' = inr k)
  /\ (forall d', code d = code d' -> d = d').
Proof.
  split; [apply code_lookup|]. split; [|split].
  - apply code_total.
  - intros k d' Hk. apply code_lookup, Hk.
  - intros d'. destruct d, d'; vm_compute; congruence.
Qed.

Lemma byte_val_range (b : byte) : (0 <= byte_val b < 256)%Z.
Proof.
  unfold byte_val. pose proof (Byte.to_N_bounded b). lia.
Qed.

Lemma byte_val_byte_of (v : Z) : byte_val (byte_of v) = (v mod 256)%Z.
Proof.
  unfold byte_of, byte_val.
  pose proof (Z.mod_pos_bound v 256 ltac:(lia)) as Hm.
  destruct (Byte.of_N (Z.to_N (v mod 256))) as [b|] eqn:Hb.
  - apply Byte.to_of_N in Hb. change (default x00 (Some b)) with b. rewrite Hb. lia.
  - apply Byte.of_N_None_iff in Hb. lia.
Qed.

Lemma le_bytes_length (size : nat) (v : Z) : length (le_bytes size v) = size.
Proof.
  revert v. induction size as [|size IH]; intros v; [reflexivity|].
  cbn. rewrite IH. reflexivity.
Qed.

Lemma le_unsigned_le_bytes (size : nat) (v : Z) :
  (0 <= v < 256 ^ Z.of_nat size)%Z -> le_unsigned (le_bytes size v) = v.
Proof.
  revert v. induction size as [|size IH]; intros v Hv.
  - cbn in *. lia.
  - cbn [le_bytes le_unsigned]. rewrite byte_val_byte_of, IH.
    + pose proof (Z.div_mod v 256 ltac:(lia)). lia.
    + rewrite Nat2Z.inj_succ, Z.pow_succ_r in Hv by lia.
      split; [apply Z.div_pos; lia|].
      apply Z.div_lt_upper_bound; lia.
Qed.

Lemma le_unsigned_range (bs : list byte) :
  (0 <= le_unsigned bs < 256 ^ Z.of_nat (length bs))%Z.
Proof.
  induction bs as [|b bs IH]; [cbn; lia|].
  cbn [le_unsigned length]. rewrite Nat2Z.inj_succ, Z.pow_succ_r by lia.
  pose proof (byte_val_range b). lia.
Qed.

Section RoundTrip.
Context `{NumpyRuntime}.
Import PackedDatasetIterator.

Lemma header_for_length (k chunk_size : Z) :
  length (header_for k chunk_size) = HDR_SIZE.
Proof. unfold header_for. rewrite !length_app, !le_bytes_length. reflexivity. Qed.

(** X5. code and _read are inverse to each other through the header. For
    every dtype of the table and every element count in [0, 2^64), a file
    that starts with the magic, version 1, the one-byte code(dtype) and the
    count (little-endian fields of 8, 1 and 8 bytes) is read back by _read
    as that dtype and that count, with the reader left at byte 24, so that
    what follows the header is the payload, whatever it is. *)
Theorem header_round_trip (path : string) (self : t) (dtype : np_dtype)
    (k chunk_size : Z) (payload : list byte) :
  code dtype = inr k ->
  (0 <= chunk_size < 2 ^ 64)%Z ->
  fetched path self = header_for k chunk_size ++ payload ->
  length (header_for k chunk_size) = HDR_SIZE
  /\ _read path self
     = inr (dtype, Z.to_nat chunk_size, BytesIO.mk (fetched path self) HDR_SIZE)
  /\ fst (BytesIO.read_all (BytesIO.mk (fetched path self) HDR_SIZE)) = payload.
Proof.
  intros Hc Hcs Hcontent.
  pose proof (header_for_length k chunk_size) as Hlen.
  assert (Hk : (1 <= k <= 8)%Z).
  { destruct (code_total dtype) as (k' & Hk' & Hr). congruence. }
  split; [exact Hlen|]. split.
  - apply _read_ok.
    pose proof (length_app (header_for k chunk_size) payload) as Hl.
    rewrite Hlen in Hl. rewrite Hcontent, Hl.
    unfold magic_field, version_field, dtype_field, count_field, header_for.
    rewrite <- !app_assoc.
    assert (Hm : take 7 (HDR_MAGIC ++ le_bytes 8 1 ++ le_bytes 1 k
                           ++ le_bytes 8 chunk_size ++ payload) = HDR_MAGIC)
      by (apply take_app_length'; reflexivity).
    assert (Hd7 : drop 7 (HDR_MAGIC ++ le_bytes 8 1 ++ le_bytes 1 k
                            ++ le_bytes 8 chunk_size ++ payload)
                  = le_bytes 8 1 ++ le_bytes 1 k ++ le_bytes 8 chunk_size ++ payload)
      by (apply drop_app_length'; reflexivity).
    assert (Hd15 : drop 15 (HDR_MAGIC ++ le_bytes 8 1 ++ le_bytes 1 k
                              ++ le_bytes 8 chunk_size ++ payload)
                   = le_bytes 1 k ++ le_bytes 8 chunk_size ++ payload).
    { change 15 with (7 + 8). rewrite <- drop_drop, Hd7.
      apply drop_app_length'. rewrite le_bytes_length. reflexivity. }
    assert (Hd16 : drop 16 (HDR_MAGIC ++ le_bytes 8 1 ++ le_bytes 1 k
                              ++ le_bytes 8 chunk_size ++ payload)
                   = le_bytes 8 chunk_size ++ payload).
    { change 16 with (15 + 1). rewrite <- drop_drop, Hd15.
      apply drop_app_length'. rewrite le_bytes_length. reflexivity. }
    rewrite Hm, Hd7, Hd15, Hd16.
    rewrite (take_app_length' (le_bytes 8 1)) by (rewrite le_bytes_length; reflexivity).
    rewrite (take_app_length' (le_bytes 1 k)) by (rewrite le_bytes_length; reflexivity).
    rewrite (take_app_length' (le_bytes 8 chunk_size))
      by (rewrite le_bytes_length; reflexivity).
    rewrite (le_unsigned_le_bytes 8 1)
      by (change (256 ^ Z.of_nat 8)%Z with (2 ^ 64)%Z; lia).
    rewrite (le_unsigned_le_bytes 1 k)
      by (change (256 ^ Z.of_nat 1)%Z with 256%Z; lia).
    rewrite (le_unsigned_le_bytes 8 chunk_size)
      by (change (256 ^ Z.of_nat 8)%Z with (2 ^ 64)%Z; lia).
    repeat match goal with |- _ /\ _ => split end; auto.
    + unfold HDR_SIZE. lia.
    + apply code_lookup, Hc.
  - unfold BytesIO.read_all. cbn [fst BytesIO.pos BytesIO.content].
    rewrite Hcontent. apply drop_app_length'. symmetry. exact Hlen.
Qed.
End RoundTrip.

Lemma header_round_trip_witness :
  let client : Storage :=
    fun _ _ => header_for 8 4 ++ demo_payload xa0 ++ demo_payload xa1 in
  let self := @demo_iterator demo_numpy client ["any"] 1 2 false in
  @PackedDatasetIterator._read demo_numpy "any" self
  = inr (uint16, 4,
         BytesIO.mk (header_for 8 4 ++ demo_payload xa0 ++ demo_payload xa1)
           HDR_SIZE).
Proof.
  intros client self.
  refine (proj1 (proj2 (@header_round_trip demo_numpy "any" self uint16 8 4
                          (demo_payload xa0 ++ demo_payload xa1) _ _ _)));
    [vm_compute; reflexivity|lia|reflexivity].
Defined.

(** ** What iterating keeps and what the constructor does *)

Section Keeps.
Context `{NumpyRuntime}.
Import PackedDatasetIterator.

Lemma same_config_refl s : same_config s s.
Proof. unfold same_config. tauto. Qed.

Lemma same_config_trans s1 s2 s3 :
  same_config s1 s2 -> same_config s2 s3 -> same_config s1 s3.
Proof. unfold same_config. intuition congruence. Qed.

Lemma loop_frame_same_config s s' : loop_frame s s' -> same_config s s'.
Proof. unfold loop_frame, same_config. tauto. Qed.

Lemma pre_loop_same_config s : same_config s (pre_loop s).
Proof. unfold same_config, pre_loop. destruct (_ <? _); fields; tauto. Qed.

Lemma window_of_same_config s : same_config s (final_state (window_of s)).
Proof.
  unfold window_of. fields.
  destruct (_n_blocks s); [|unfold same_config; fields; tauto].
  destruct (_shuffle s) eqn:Hsh; [destruct (_rng s)|];
    unfold same_config; cbn [final_state]; fields; rewrite ?Hsh; tauto.
Qed.

Lemma _load_n_chunks_same_config s :
  same_config s (final_state (_load_n_chunks s)).
Proof.
  rewrite _load_n_chunks_unfold. cbv zeta.
  destruct (_ && _); [unfold same_config; cbn [final_state]; fields; tauto|].
  pose proof (for_each_load_frame (seq 0 (_n_chunks s)) None (pre_loop s)) as Hfr.
  apply loop_frame_same_config in Hfr.
  pose proof (same_config_trans _ _ _ (pre_loop_same_config s) Hfr) as Hc.
  destruct (for_each load_body _ _ _) as [l2 s2|e s2]; cbn [final_state] in *;
    [|exact Hc].
  eapply same_config_trans; [exact Hc|apply window_of_same_config].
Qed.

Lemma same_lock_refl s : same_lock s s.
Proof. unfold same_lock. tauto. Qed.

Lemma same_lock_trans s1 s2 s3 :
  same_lock s1 s2 -> same_lock s2 s3 -> same_lock s1 s3.
Proof. unfold same_lock. intuition congruence. Qed.

Lemma same_lock_is_Some s s' :
  same_lock s s' -> is_Some (_dtype s) -> is_Some (_dtype s').
Proof. intros (<- & _). auto. Qed.

Lemma load_body_same_lock i l s :
  is_Some (_dtype s) -> same_lock s (final_state (load_body i l s)).
Proof.
  intros [d Hd]. unfold load_body, same_lock. unfold_monad. rewrite Hd.
  destruct (_filenames s !! (_file_idx s + i)); [|cbn; auto].
  destruct l; cbn [final_state]; fields; auto.
Qed.

Lemma for_each_load_same_lock idxs l s :
  is_Some (_dtype s) -> same_lock s (final_state (for_each load_body idxs l s)).
Proof.
  revert l s. induction idxs as [|i idxs IH]; intros l s Hd;
    [unfold same_lock; cbn; auto|].
  cbn [for_each]. unfold bind.
  pose proof (load_body_same_lock i l s Hd) as Hb.
  destruct (load_body i l s) as [l1 s1|e s1]; cbn [final_state] in *; [|exact Hb].
  eapply same_lock_trans; [exact Hb|].
  apply IH. eapply same_lock_is_Some; eauto.
Qed.

Lemma _load_n_chunks_same_lock s :
  is_Some (_dtype s) -> same_lock s (final_state (_load_n_chunks s)).
Proof.
  intros Hd. rewrite _load_n_chunks_unfold. cbv zeta.
  destruct (_ && _); [unfold same_lock; cbn [final_state]; fields; auto|].
  assert (Hp : same_lock s (pre_loop s)).
  { unfold same_lock, pre_loop. destruct (_ <? _); fields; auto. }
  pose proof (for_each_load_same_lock (seq 0 (_n_chunks s)) None (pre_loop s)
                (same_lock_is_Some _ _ Hp Hd)) as Hl.
  pose proof (same_lock_trans _ _ _ Hp Hl) as Hc. clear Hl Hp.
  destruct (for_each load_body _ _ _) as [l2 s2|e s2]; cbn [final_state] in *;
    [|exact Hc].
  eapply same_lock_trans; [exact Hc|].
  unfold window_of, same_lock. fields.
  destruct (_n_blocks s2) eqn:Hnb; [|cbn [final_state]; fields; auto].
  destruct (_shuffle s2); [destruct (_rng s2)|]; cbn [final_state]; fields; auto.
Qed.

(* the part of next() after the reload, on the state it serves from *)
Lemma __next___cases s :
  exists s1,
    (s1 = s /\ _curr_idx s < length (_block_idxs s)
     \/ length (_block_idxs s) <= _curr_idx s /\ _load_n_chunks s = Ret tt s1
     \/ length (_block_idxs s) <= _curr_idx s
        /\ exists e, _load_n_chunks s = Raise e s1 /\ __next__ s = Raise e s1)
    /\ (__next__ s = Raise IndexError s1
        \/ __next__ s = Raise TypeError s1
        \/ __next__ s = Raise ZeroDivisionError s1
        \/ __next__ s = Raise ValueError s1
        \/ (exists e, _load_n_chunks s = Raise e s1 /\ __next__ s = Raise e s1)
        \/ exists b n_blocks buffer arr,
            _block_idxs s1 !! _curr_idx s1 = Some b
            /\ _n_blocks s1 = Some n_blocks
            /\ n_blocks <> 0
            /\ _buffers s1 !! (b / n_blocks) = Some buffer
            /\ frombuffer buffer (np_dtype_of (_dtype s1)) (_block_size s1)
                 (itemsize (np_dtype_of (_dtype s1))
                  * ((b mod n_blocks) * _block_size s1)) = inr arr
            /\ __next__ s
               = Ret (astype_int64 (np_dtype_of (_dtype s1)) arr)
                   (set_curr_idx (_curr_idx s1 + 1) s1)).
Proof.
  unfold __next__. unfold_monad.
  destruct (Nat.leb_spec (length (_block_idxs s)) (_curr_idx s)) as [Hge|Hlt].
  - destruct (_load_n_chunks s) as [[] s1|e s1] eqn:Hload.
    + exists s1. split; [auto|].
      destruct (_block_idxs s1 !! _curr_idx s1) as [b|] eqn:Hb; [|auto].
      destruct (_n_blocks s1) as [nb|] eqn:Hnb; [|auto].
      destruct (Nat.eqb_spec nb 0); [auto|].
      destruct (_buffers s1 !! (b / nb)) as [buffer|] eqn:Hbuf; [|auto].
      destruct (frombuffer buffer _ _ _) as [e|arr] eqn:Hfb.
      * unfold frombuffer in Hfb.
        repeat match type of Hfb with
               | (if ?c then _ else _) = _ => destruct c
               end; first [discriminate Hfb | injection Hfb as <-; auto 10].
      * do 5 right. exists b, nb, buffer, arr. auto 10.
    + exists s1. split; [eauto 10|]. do 4 right. left. eauto.
  - exists s. split; [auto|].
    destruct (_block_idxs s !! _curr_idx s) as [b|] eqn:Hb; [|auto].
    destruct (_n_blocks s) as [nb|] eqn:Hnb; [|auto].
    destruct (Nat.eqb_spec nb 0); [auto|].
    destruct (_buffers s !! (b / nb)) as [buffer|] eqn:Hbuf; [|auto].
    destruct (frombuffer buffer _ _ _) as [e|arr] eqn:Hfb.
    + unfold frombuffer in Hfb.
      repeat match type of Hfb with
             | (if ?c then _ else _) = _ => destruct c
             end; first [discriminate Hfb | injection Hfb as <-; auto 10].
    + do 5 right. exists b, nb, buffer, arr. auto 10.
Qed.

Lemma __next___same_config s : same_config s (final_state (__next__ s)).
Proof.
  destruct (__next___cases s) as (s1 & Hs1 & Hout).
  assert (Hc : same_config s s1).
  { destruct Hs1 as [[-> _]|[[_ Hl]|(_ & e & Hl & _)]];
      [apply same_config_refl| |];
      pose proof (_load_n_chunks_same_config s) as Hc; rewrite Hl in Hc; exact Hc. }
  destruct Hout as [->|[->|[->|[->|[(e & _ & ->)|(b & nb & buf & arr & _ & _ & _ & _ & _ & ->)]]]]];
    exact Hc.
Qed.

Lemma __next___same_lock s :
  is_Some (_dtype s) -> same_lock s (final_state (__next__ s)).
Proof.
  intros Hd. destruct (__next___cases s) as (s1 & Hs1 & Hout).
  assert (Hc : same_lock s s1).
  { destruct Hs1 as [[-> _]|[[_ Hl]|(_ & e & Hl & _)]];
      [apply same_lock_refl| |];
      pose proof (_load_n_chunks_same_lock s Hd) as Hc; rewrite Hl in Hc; exact Hc. }
  destruct Hout as [->|[->|[->|[->|[(e & _ & ->)|(b & nb & buf & arr & _ & _ & _ & _ & _ & ->)]]]]];
    exact Hc.
Qed.

Lemma state_after_same_config n s : same_config s (state_after __next__ n s).
Proof.
  revert s. induction n as [|n IH]; intros s; [apply same_config_refl|].
  cbn [state_after]. pose proof (__next___same_config s) as Hc.
  destruct (__next__ s) as [x s1|e s1]; cbn [final_state] in Hc; [|exact Hc].
  eapply same_config_trans; [exact Hc|apply IH].
Qed.

Lemma state_after_same_lock n s :
  is_Some (_dtype s) -> same_lock s (state_after __next__ n s).
Proof.
  revert s. induction n as [|n IH]; intros s Hd; [apply same_lock_refl|].
  cbn [state_after]. pose proof (__next___same_lock s Hd) as Hc.
  destruct (__next__ s) as [x s1|e s1]; cbn [final_state] in Hc; [|exact Hc].
  eapply same_lock_trans; [exact Hc|].
  apply IH. eapply same_lock_is_Some; eauto.
Qed.

(** X6. Iterating never changes what an iterator was configured with: after
    a load, and after any number of next() calls, whether they returned or
    the last one raised, the seed, the shuffle and wrap flags, the shard's
    file list, n_chunks, block_size and the storage client are what they
    were. Once a dtype is locked, the dtype, the chunk size and n_blocks
    are never assigned again: a later file with another header cannot
    change them. *)
Theorem iterating_keeps_configuration (s : t) (n : nat) :
  same_config s (final_state (_load_n_chunks s))
  /\ same_config s (state_after __next__ n s)
  /\ (is_Some (_dtype s) ->
      same_lock s (final_state (_load_n_chunks s))
      /\ same_lock s (state_after __next__ n s)).
Proof.
  split; [apply _load_n_chunks_same_config|].
  split; [apply state_after_same_config|].
  intros Hd. split; [apply _load_n_chunks_same_lock|apply state_after_same_lock];
    exact Hd.
Qed.

End Keeps.

Lemma iterating_keeps_configuration_witness :
  let it :=
    final_state
      (@PackedDatasetIterator.__init__ demo_numpy demo_storage
         ["f0"; "f1"; "f2"; "f3"] 2 2 0 false true) in
  @same_lock demo_numpy it
    (state_after (@PackedDatasetIterator.__next__ demo_numpy) 9 it).
Proof.
  intros it.
  apply (proj2 (proj2 (@iterating_keeps_configuration demo_numpy it 9))).
  vm_compute. eauto.
Defined.


(** ** The first load, and with it the constructor *)

Section FirstLoad.
Context `{NumpyRuntime}.
Import PackedDatasetIterator.

Lemma seq_S_head (n : nat) : 1 <= n -> seq 0 n = 0 :: seq 1 (n - 1).
Proof. intros Hn. destruct n; [lia|]. cbn. rewrite Nat.sub_0_r. reflexivity. Qed.

Lemma set_buffers_twice b b' (s : t) :
  set_buffers b (set_buffers b' s) = set_buffers b s.
Proof. reflexivity. Qed.

Lemma replicate_head {A} (n : nat) (x : A) :
  1 <= n -> replicate n x = x :: replicate (n - 1) x.
Proof. intros Hn. destruct n; [lia|]. cbn. rewrite Nat.sub_0_r. reflexivity. Qed.

(* the loading loop on an iterator that has no dtype yet: one fetch, of the
   file at the cursor, and one payload for every chunk of the window *)
Lemma for_each_load_first n s f d cs r :
  _dtype s = None ->
  _filenames s !! _file_idx s = Some f ->
  _read f s = inr (d, cs, r) ->
  _block_size s <> 0 ->
  1 <= n ->
  _file_idx s + n <= length (_filenames s) ->
  exists r',
    for_each load_body (seq 0 n) None s =
    Ret (Some r')
      (set_buffers (_buffers s ++ replicate n (drop HDR_SIZE (fetched f s)))
         (set_n_blocks (Some (cs / _block_size s))
            (set_chunk_size (Some cs) (set_dtype (Some d) s)))).
Proof.
  intros Hd Hf Hr Hbs Hn Hlen.
  rewrite (seq_S_head n Hn). cbn [for_each]. unfold bind at 1.
  rewrite (load_body_first 0 None s f d cs r Hd) by (rewrite ?Nat.add_0_r; auto).
  set (s1 := set_buffers _ _).
  destruct (for_each_load_bound (seq 1 (n - 1)) (rewound r) s1 d) as (r' & _ & Hrun).
  - reflexivity.
  - intros i Hi. apply elem_of_seq in Hi. subst s1. fields. lia.
  - exists r'. rewrite Hrun. subst s1. rewrite set_buffers_twice. fields.
    rewrite rewound_content.
    apply _read_ok in Hr. destruct Hr as (_ & _ & _ & _ & _ & ->).
    cbn [BytesIO.content]. rewrite length_seq, <- app_assoc.
    rewrite (replicate_head n) by exact Hn. reflexivity.
Qed.

(* the same loop when the window reaches past the shard's end *)
Lemma for_each_load_first_short n s f d cs r :
  _dtype s = None ->
  _filenames s !! _file_idx s = Some f ->
  _read f s = inr (d, cs, r) ->
  _block_size s <> 0 ->
  length (_filenames s) < _file_idx s + n ->
  exists s',
    for_each load_body (seq 0 n) None s = Raise IndexError s'
    /\ _dtype s' = Some d.
Proof.
  intros Hd Hf Hr Hbs Hlen.
  pose proof (lookup_lt_Some _ _ _ Hf) as Hlt.
  rewrite (seq_S_head n) by lia. cbn [for_each]. unfold bind at 1.
  rewrite (load_body_first 0 None s f d cs r Hd) by (rewrite ?Nat.add_0_r; auto).
  set (s1 := set_buffers _ _).
  destruct (for_each_load_out_of_range (seq 1 (n - 1)) (rewound r) s1 d)
    as (s' & Hrun).
  - reflexivity.
  - exists (length (_filenames s) - _file_idx s). split.
    + apply elem_of_seq. lia.
    + subst s1. fields. lia.
  - exists s'. split; [exact Hrun|].
    pose proof (for_each_load_same_lock (seq 1 (n - 1)) (Some (rewound r)) s1
                  (ltac:(subst s1; fields; eauto))) as Hl.
    rewrite Hrun in Hl. destruct Hl as (Hl & _). cbn [final_state] in Hl.
    rewrite Hl. reflexivity.
Qed.

Lemma for_each_load_read_raises n s f e :
  _dtype s = None ->
  _filenames s !! _file_idx s = Some f ->
  _read f s = inl e ->
  1 <= n ->
  for_each load_body (seq 0 n) None s = Raise e s.
Proof.
  intros Hd Hf Hr Hn. rewrite (seq_S_head n Hn). cbn [for_each].
  unfold bind at 1. unfold load_body. unfold_monad.
  rewrite Nat.add_0_r, Hf, Hd, Hr. reflexivity.
Qed.

Lemma for_each_load_zero_block n s f d cs r :
  _dtype s = None ->
  _filenames s !! _file_idx s = Some f ->
  _read f s = inr (d, cs, r) ->
  _block_size s = 0 ->
  1 <= n ->
  exists s',
    for_each load_body (seq 0 n) None s = Raise ZeroDivisionError s'.
Proof.
  intros Hd Hf Hr Hbs Hn. rewrite (seq_S_head n Hn). cbn [for_each].
  unfold bind at 1. unfold load_body. unfold_monad.
  rewrite Nat.add_0_r, Hf, Hd, Hr. fields. rewrite Hbs. cbn. eauto.
Qed.

Lemma for_each_load_no_file n l s :
  _filenames s !! _file_idx s = None ->
  1 <= n ->
  for_each load_body (seq 0 n) l s = Raise IndexError s.
Proof.
  intros Hf Hn. rewrite (seq_S_head n Hn). cbn [for_each]. unfold bind at 1.
  rewrite load_body_index by (rewrite Nat.add_0_r; exact Hf). reflexivity.
Qed.
End FirstLoad.

Section Constructor.
Context `{NumpyRuntime}.
Import PackedDatasetIterator.

Lemma _load_n_chunks_fresh client filenames n_chunks block_size seed shuffle wrap :
  let s0 := fresh client filenames n_chunks block_size seed shuffle wrap in
  _load_n_chunks s0 =
  if (length filenames <? n_chunks) && negb wrap then Raise StopIteration s0 else
  match for_each load_body (seq 0 n_chunks) None s0 with
  | Raise e s2 => Raise e s2
  | Ret _ s2 => window_of s2
  end.
Proof.
  intros s0. rewrite _load_n_chunks_unfold. cbv zeta.
  subst s0. rewrite pre_loop_fresh. reflexivity.
Qed.

(* the constructor on a shard whose first file is well formed *)
Lemma __init___returns client filenames n_chunks block_size seed shuffle wrap
    f d cs r :
  let s0 := fresh client filenames n_chunks block_size seed shuffle wrap in
  let n_all_blocks := n_chunks * (cs / block_size) in
  shuffle = false \/ (0 <= seed)%Z ->
  1 <= n_chunks <= length filenames ->
  filenames !! 0 = Some f ->
  _read f s0 = inr (d, cs, r) ->
  block_size <> 0 ->
  exists it,
    __init__ client filenames n_chunks block_size seed shuffle wrap = Ret tt it
    /\ same_config s0 it
    /\ _dtype it = Some d /\ _chunk_size it = Some cs
    /\ _n_blocks it = Some (cs / block_size)
    /\ _buffers it = replicate n_chunks (drop HDR_SIZE (fetched f s0))
    /\ _mmaps it = []
    /\ _file_idx it = n_chunks /\ _curr_idx it = 0
    /\ _block_idxs it
       = (if shuffle
          then fst (permutation (default_rng seed) n_all_blocks)
          else seq 0 n_all_blocks)
    /\ _rng it
       = (if shuffle
          then Some (snd (permutation (default_rng seed) n_all_blocks))
          else None).
Proof.
  intros s0 n_all_blocks Hseed [Hn Hle] Hf Hr Hbs.
  rewrite __init___fresh by exact Hseed.
  rewrite (_load_n_chunks_fresh client filenames n_chunks block_size
             seed shuffle wrap). cbv zeta. fold s0.
  replace (length filenames <? n_chunks) with false
    by (symmetry; apply Nat.ltb_ge; exact Hle).
  cbn [andb].
  destruct (for_each_load_first n_chunks s0 f d cs r) as (r' & ->); auto.
  unfold window_of, fetched. subst s0 n_all_blocks. unfold fresh. fields.
  destruct shuffle; eexists; (split; [reflexivity|]);
    unfold same_config; fields; auto 20.
Qed.

(** X7. What the constructor does, case by case. With shuffling on, a
    negative seed raises ValueError before any file is looked at. Otherwise
    it raises TypeError when n_chunks is 0; StopIteration when the shard has
    fewer than n_chunks files and wrap is off; IndexError when the shard is
    empty and wrap is on. Otherwise it fetches the shard's first file and
    no other: a header error is raised as it is, a block_size of 0 raises
    ZeroDivisionError, a shard shorter than the window (wrap on) raises
    IndexError after the header was read, and in the remaining case (with
    shuffling on: when the array of block indices has a byte size numpy can
    hold) the constructor returns with the dtype, chunk size and n_blocks
    of that header, n_chunks copies of that file's payload as buffers, the
    file cursor at n_chunks, the read cursor at 0 and the block indices of
    the window. *)
Theorem constructor_outcome client filenames n_chunks block_size seed shuffle wrap :
  let s0 := fresh client filenames n_chunks block_size seed shuffle wrap in
  let init := __init__ client filenames n_chunks block_size seed shuffle wrap in
  (shuffle = true -> (seed < 0)%Z -> exists s', init = Raise ValueError s')
  /\ (shuffle = false \/ (0 <= seed)%Z ->
      (n_chunks = 0 -> exists s', init = Raise TypeError s')
      /\ (length filenames < n_chunks -> wrap = false ->
          init = Raise StopIteration s0)
      /\ (1 <= n_chunks -> filenames = [] -> wrap = true ->
          init = Raise IndexError s0)
      /\ (forall f,
          1 <= n_chunks -> filenames !! 0 = Some f ->
          n_chunks <= length filenames \/ wrap = true ->
          match _read f s0 with
          | inl e => init = Raise e s0
          | inr (d, cs, _) =>
            if block_size =? 0
            then exists s', init = Raise ZeroDivisionError s'
            else if length filenames <? n_chunks
            then exists s', init = Raise IndexError s' /\ _dtype s' = Some d
            else
              let n_all_blocks := n_chunks * (cs / block_size) in
              (shuffle = true -> fits_ssize (8 * n_all_blocks)) ->
              exists it,
                init = Ret tt it
                /\ same_config s0 it
                /\ _dtype it = Some d /\ _chunk_size it = Some cs
                /\ _n_blocks it = Some (cs / block_size)
                /\ _buffers it
                   = replicate n_chunks (drop HDR_SIZE (fetched f s0))
                /\ _mmaps it = []
                /\ _file_idx it = n_chunks /\ _curr_idx it = 0
                /\ _block_idxs it
                   = (if shuffle
                      then fst (permutation (default_rng seed) n_all_blocks)
                      else seq 0 n_all_blocks)
                /\ _rng it
                   = (if shuffle
                      then Some (snd (permutation (default_rng seed)
                                        n_all_blocks))
                      else None)
          end)).
Proof.
  intros s0 init. split.
  { intros -> Hneg. apply __init___negative_seed, Hneg. }
  intros Hseed.
  assert (Hinit : init =
    if (length filenames <? n_chunks) && negb wrap then Raise StopIteration s0 else
    match for_each load_body (seq 0 n_chunks) None s0 with
    | Raise e s2 => Raise e s2
    | Ret _ s2 => window_of s2
    end).
  { unfold init. rewrite __init___fresh by exact Hseed.
    apply _load_n_chunks_fresh. }
  repeat match goal with |- _ /\ _ => split end.
  - intros ->. rewrite Hinit. destruct (length filenames <? 0) eqn:Hlt;
      [apply Nat.ltb_lt in Hlt; lia|].
    cbn [andb for_each seq]. unfold ret, window_of. subst s0. unfold fresh. fields.
    eauto.
  - intros Hlt ->. rewrite Hinit. apply Nat.ltb_lt in Hlt. rewrite Hlt. reflexivity.
  - intros Hn -> ->. rewrite Hinit, andb_false_r.
    rewrite for_each_load_no_file; [reflexivity|reflexivity|exact Hn].
  - intros f Hn Hf Hroom.
    assert (Hgo : (length filenames <? n_chunks) && negb wrap = false).
    { destruct Hroom as [Hle| ->]; [|apply andb_false_r].
      apply andb_false_iff. left. apply Nat.ltb_ge. exact Hle. }
    destruct (_read f s0) as [e|[[d cs] r]] eqn:Hr.
    + rewrite Hinit, Hgo.
      rewrite (for_each_load_read_raises n_chunks s0 f e); auto.
    + destruct (Nat.eqb_spec block_size 0) as [Hbs|Hbs].
      * rewrite Hinit, Hgo.
        destruct (for_each_load_zero_block n_chunks s0 f d cs r) as (s' & ->); eauto.
      * destruct (Nat.ltb_spec (length filenames) n_chunks) as [Hlt|Hge].
        -- rewrite Hinit, Hgo.
           destruct (for_each_load_first_short n_chunks s0 f d cs r)
             as (s' & -> & Hd'); eauto.
        -- intros n_all_blocks _. subst init.
           eapply __init___returns; eauto.
Qed.
End Constructor.

Lemma constructor_outcome_witness :
  exists it,
    @PackedDatasetIterator.__init__ demo_numpy demo_storage ["f0"; "f1"; "f2"]
      2 2 1 true false = Ret tt it
    /\ PackedDatasetIterator._dtype it = Some uint8
    /\ PackedDatasetIterator._buffers it = [demo_payload xa0; demo_payload xa0]
    /\ PackedDatasetIterator._file_idx it = 2
    /\ PackedDatasetIterator._block_idxs it = [1; 2; 3; 0].
Proof.
  assert (Hroom : 2 <= length ["f0"; "f1"; "f2"]) by (cbn; lia).
  assert (Hseed : true = false \/ (0 <= 1)%Z) by (right; lia).
  pose proof (proj2 (proj2 (proj2
    (proj2 (@constructor_outcome demo_numpy demo_storage ["f0"; "f1"; "f2"]
              2 2 1 true false) Hseed)))
    "f0" (le_S _ _ (le_n 1)) eq_refl (or_introl Hroom)) as Hc.
  vm_compute in Hc.
  destruct (Hc ltac:(intros _; reflexivity))
    as (it & Hinit & _ & Hd & _ & _ & Hb & _ & Hf & _ & Hi & _).
  exists it. repeat split; assumption.
Defined.

(** ** The stream of a constructed iterator *)

Section Stream.
Context `{NumpyRuntime}.
Import PackedDatasetIterator.

Lemma frombuffer_fits buffer dtype count elem_id :
  frombuffer buffer dtype count (itemsize dtype * elem_id) =
  if itemsize dtype * (elem_id + count) <=? length buffer
  then inr (split_elements (itemsize dtype) count
              (drop (itemsize dtype * elem_id) buffer))
  else inl ValueError.
Proof.
  unfold frombuffer.
  destruct (Nat.leb_spec (itemsize dtype * (elem_id + count)) (length buffer))
    as [Hfit|Hshort].
  - replace (length buffer <? itemsize dtype * elem_id) with false
      by (symmetry; apply Nat.ltb_ge; nia).
    replace (length buffer - itemsize dtype * elem_id <? count * itemsize dtype)
      with false by (symmetry; apply Nat.ltb_ge; nia).
    reflexivity.
  - destruct (Nat.ltb_spec (length buffer) (itemsize dtype * elem_id));
      [reflexivity|].
    replace (length buffer - itemsize dtype * elem_id <? count * itemsize dtype)
      with true by (symmetry; apply Nat.ltb_lt; nia).
    reflexivity.
Qed.

Lemma block_of_frombuffer buffer dtype count j arr :
  frombuffer buffer dtype count (itemsize dtype * (j * count)) = inr arr ->
  astype_int64 dtype arr = block_of dtype buffer count j
  /\ length (block_of dtype buffer count j) = count.
Proof.
  intros Hfb. apply frombuffer_elements in Hfb. destruct Hfb as [Hx Hlen].
  unfold block_of. rewrite <- Hx. split; [reflexivity|].
  unfold astype_int64. rewrite length_map. exact Hlen.
Qed.

Lemma block_of_length buffer dtype count j :
  itemsize dtype * (j * count + count) <= length buffer ->
  length (block_of dtype buffer count j) = count.
Proof.
  intros Hfit.
  pose proof (frombuffer_fits buffer dtype count (j * count)) as Hfb.
  replace (_ <=? _) with true in Hfb by (symmetry; apply Nat.leb_le; exact Hfit).
  apply block_of_frombuffer in Hfb. apply Hfb.
Qed.

Lemma window_ok_lookup payload nb s b :
  window_ok payload nb s ->
  _block_idxs s !! _curr_idx s = Some b ->
  nb <> 0 /\ _buffers s !! (b / nb) = Some payload.
Proof.
  intros (_ & _ & Hbuf & Hidx) Hb.
  rewrite Forall_forall in Hidx.
  specialize (Hidx b (list_elem_of_lookup_2 _ _ _ Hb)).
  assert (Hnb : nb <> 0) by (intros ->; lia).
  split; [exact Hnb|].
  rewrite Hbuf. apply lookup_replicate_2.
  apply Nat.Div0.div_lt_upper_bound. lia.
Qed.

(* next() inside the window: the block at the read cursor, or ValueError
   when the payload is too short for it *)
Lemma __next___in_window payload nb s b :
  window_ok payload nb s ->
  _block_idxs s !! _curr_idx s = Some b ->
  __next__ s =
  if itemsize (np_dtype_of (_dtype s))
     * ((b mod nb) * _block_size s + _block_size s) <=? length payload
  then Ret (block_of (np_dtype_of (_dtype s)) payload (_block_size s) (b mod nb))
           (set_curr_idx (_curr_idx s + 1) s)
  else Raise ValueError s.
Proof.
  intros Hw Hb.
  destruct (window_ok_lookup payload nb s b Hw Hb) as [Hnb Hbuf].
  destruct Hw as (_ & Hn & _ & _).
  pose proof (lookup_lt_Some _ _ _ Hb) as Hlt.
  unfold __next__. unfold_monad.
  replace (length (_block_idxs s) <=? _curr_idx s) with false
    by (symmetry; apply Nat.leb_gt; exact Hlt).
  rewrite Hb, Hn.
  destruct (Nat.eqb_spec nb 0) as [|_]; [contradiction|].
  rewrite Hbuf, frombuffer_fits.
  destruct (_ <=? _) eqn:Hfit; [|reflexivity].
  pose proof (frombuffer_fits payload (np_dtype_of (_dtype s)) (_block_size s)
                ((b mod nb) * _block_size s)) as Hfb.
  rewrite Hfit in Hfb. apply block_of_frombuffer in Hfb.
  destruct Hfb as [-> _]. reflexivity.
Qed.

(* next() past the window *)
Lemma __next___past_window s :
  constructed s ->
  length (_block_idxs s) <= _curr_idx s ->
  exists s', __next__ s = Raise (end_of_window s) s'.
Proof.
  intros Hc Hge. unfold __next__. unfold_monad.
  replace (length (_block_idxs s) <=? _curr_idx s) with true
    by (symmetry; apply Nat.leb_le; exact Hge).
  rewrite (reload_raises s Hc). unfold end_of_window.
  destruct (_ && _); eauto.
Qed.

Lemma window_ok_advance payload nb s :
  window_ok payload nb s ->
  window_ok payload nb (set_curr_idx (_curr_idx s + 1) s).
Proof. intros Hw. exact Hw. Qed.

(* the run of an iterator from inside its window, when the payload holds
   the blocks the header announces *)
Lemma take_samples_window payload nb n :
  forall s,
    window_ok payload nb s ->
    itemsize (np_dtype_of (_dtype s)) * (nb * _block_size s) <= length payload ->
    take_samples __next__ n s
    = ((fun b => inr (block_of (np_dtype_of (_dtype s)) payload (_block_size s)
                        (b mod nb)))
         <$> take n (drop (_curr_idx s) (_block_idxs s)))
      ++ (if length (_block_idxs s) - _curr_idx s <? n
          then [inl (end_of_window s)] else []).
Proof.
  induction n as [|n IH]; intros s Hw Hfit; [reflexivity|].
  cbn [take_samples].
  destruct (_block_idxs s !! _curr_idx s) as [b|] eqn:Hb.
  - pose proof (lookup_lt_Some _ _ _ Hb) as Hlt.
    destruct (window_ok_lookup payload nb s b Hw Hb) as [Hnb _].
    rewrite (__next___in_window payload nb s b Hw Hb).
    assert (Hmod : b mod nb < nb) by (apply Nat.mod_upper_bound; exact Hnb).
    replace (_ <=? length payload) with true by (symmetry; apply Nat.leb_le; nia).
    rewrite (IH _ (window_ok_advance payload nb s Hw) Hfit). fields.
    rewrite (drop_S _ _ _ Hb). cbn [take fmap list_fmap app].
    rewrite Nat.add_1_r. unfold end_of_window. fields.
    replace (length (_block_idxs s) - S (_curr_idx s) <? n)
      with (length (_block_idxs s) - _curr_idx s <? S n); [reflexivity|].
    destruct (Nat.ltb_spec (length (_block_idxs s) - S (_curr_idx s)) n);
      [apply Nat.ltb_lt|apply Nat.ltb_ge]; lia.
  - apply lookup_ge_None in Hb.
    destruct (__next___past_window s (proj1 Hw) Hb) as (s' & ->).
    rewrite drop_ge by exact Hb. rewrite take_nil.
    replace (_ <? S n) with true by (symmetry; apply Nat.ltb_lt; lia).
    reflexivity.
Qed.

(* the run of an iterator from inside its window, whatever the payload *)
Lemma take_samples_window_any payload nb n :
  forall s,
    window_ok payload nb s ->
    Forall (fun r => match r with
                     | inr x => length x = _block_size s
                     | inl e => e = StopIteration \/ e = UnboundLocalError
                                \/ e = ValueError
                     end) (take_samples __next__ n s).
Proof.
  induction n as [|n IH]; intros s Hw; [constructor|].
  cbn [take_samples].
  destruct (_block_idxs s !! _curr_idx s) as [b|] eqn:Hb.
  - rewrite (__next___in_window payload nb s b Hw Hb).
    destruct (Nat.leb_spec
                (itemsize (np_dtype_of (_dtype s))
                 * ((b mod nb) * _block_size s + _block_size s))
                (length payload)) as [Hfit|Hshort].
    + constructor; [apply block_of_length; exact Hfit|].
      apply (IH _ (window_ok_advance payload nb s Hw)).
    + constructor; [auto|constructor].
  - apply lookup_ge_None in Hb.
    destruct (__next___past_window s (proj1 Hw) Hb) as (s' & ->).
    constructor; [|constructor]. unfold end_of_window. destruct (_ && _); auto.
Qed.

Lemma permutation_idxs_bound g n :
  permutation_contract ->
  Forall (fun b => b < n) (fst (permutation g n)).
Proof.
  intros Hperm. rewrite Forall_forall. intros b Hb.
  rewrite (Hperm g n) in Hb. apply elem_of_seq in Hb. lia.
Qed.

Lemma seq_idxs_bound n : Forall (fun b => b < n) (seq 0 n).
Proof. rewrite Forall_forall. intros b Hb. apply elem_of_seq in Hb. lia. Qed.

(* what the constructor leaves is a window over one payload *)
Lemma __init___window_ok client filenames n_chunks block_size seed shuffle wrap it :
  permutation_contract ->
  __init__ client filenames n_chunks block_size seed shuffle wrap = Ret tt it ->
  exists payload nb,
    window_ok payload nb it /\ _block_size it = block_size.
Proof.
  intros Hperm Hinit.
  pose proof (__init___constructed _ _ _ _ _ _ _ _ Hinit) as Hc.
  apply __init___returned in Hinit as [_ Hinit].
  set (s0 := fresh client filenames n_chunks block_size seed shuffle wrap) in *.
  pose proof (_load_n_chunks_same_config s0) as Hcfg.
  rewrite Hinit in Hcfg. cbn [final_state] in Hcfg.
  destruct Hcfg as (_ & Hsh & _ & Hfn & Hnc & Hbs & _).
  destruct Hc as (Hd & Hn1 & Hn2).
  destruct (_load_n_chunks_window s0 it Hinit) as (nb & Hnb & Hnc' & _ & Hseq & Hshuf).
  destruct (_filenames s0 !! _file_idx (pre_loop s0)) as [f|] eqn:Hf.
  2:{ apply lookup_ge_None in Hf. subst s0. rewrite pre_loop_fresh in Hf.
      unfold fresh in *. fields. rewrite Hfn in Hn2. lia. }
  destruct (first_window_buffers s0 it f eq_refl Hinit Hf) as (Hbuf & _).
  exists (drop HDR_SIZE (fetched f s0)), nb.
  split; [|subst s0; unfold fresh in *; fields; congruence].
  split; [exact (conj Hd (conj Hn1 Hn2))|].
  split; [exact Hnb|]. split; [rewrite Hbuf, Hnc'; reflexivity|].
  rewrite Hnc'. destruct (_shuffle s0) eqn:Hs.
  - destruct (Hshuf eq_refl) as (g & _ & -> & _). apply permutation_idxs_bound, Hperm.
  - destruct (Hseq eq_refl) as (-> & _). apply seq_idxs_bound.
Qed.

(** X8. The whole stream of a freshly constructed iterator, when its
    generator can be made (no shuffling, or a seed that is not negative),
    the shard has room for a window, its first file is well formed and holds
    the chunk_size elements its header announces, and the sizes involved
    fit a signed 64-bit word. The constructor returns, and the first n
    results of next() are: for each block index b of the window, in order,
    block (b mod n_blocks) of the FIRST file's payload, whatever chunk b
    belongs to; and after the n_chunks * n_blocks blocks of the window a
    single raise, StopIteration when fewer than n_chunks files are left and
    wrap is off, UnboundLocalError otherwise. No second window is ever
    served. *)
Theorem constructed_iterator_stream client filenames n_chunks block_size seed
    shuffle wrap f d cs r (n : nat) :
  let s0 := fresh client filenames n_chunks block_size seed shuffle wrap in
  let payload := drop HDR_SIZE (fetched f s0) in
  let nb := cs / block_size in
  let idxs :=
    if shuffle then fst (permutation (default_rng seed) (n_chunks * nb))
    else seq 0 (n_chunks * nb) in
  let last :=
    if (length filenames - n_chunks <? n_chunks) && negb wrap
    then StopIteration else UnboundLocalError in
  permutation_contract ->
  shuffle = false \/ (0 <= seed)%Z ->
  1 <= n_chunks <= length filenames ->
  filenames !! 0 = Some f ->
  _read f s0 = inr (d, cs, r) ->
  block_size <> 0 ->
  itemsize d * cs <= length payload ->
  fits_ssize (length payload) ->
  fits_ssize (8 * (n_chunks * nb)) ->
  exists it,
    __init__ client filenames n_chunks block_size seed shuffle wrap = Ret tt it
    /\ take_samples __next__ n it
       = ((fun b => inr (block_of d payload block_size (b mod nb)))
            <$> take n idxs)
         ++ (if n_chunks * nb <? n then [inl last] else []).
Proof.
  intros s0 payload nb idxs last Hperm Hseed Hroom Hf Hr Hbs Hfit _ _.
  destruct (__init___returns client filenames n_chunks block_size seed shuffle
              wrap f d cs r Hseed Hroom Hf Hr Hbs)
    as (it & Hinit & Hcfg & Hd & _ & Hnb & Hbuf & _ & Hfi & Hci & Hidx & _).
  fold s0 in Hcfg, Hbuf. fold nb in Hnb, Hidx. fold idxs in Hidx. fold payload in Hbuf.
  destruct Hcfg as (_ & _ & Hwrap & Hfn & Hnc & Hbsz & _).
  subst s0. unfold fresh in Hwrap, Hfn, Hnc, Hbsz. fields.
  exists it. split; [exact Hinit|].
  assert (Hlen : length idxs = n_chunks * nb).
  { subst idxs. destruct shuffle; [|apply length_seq].
    rewrite (Hperm _ _). apply length_seq. }
  assert (Hw : window_ok payload nb it).
  { split; [|split; [exact Hnb|split]].
    - split; [rewrite Hd; eauto|]. rewrite Hnc, Hfn. exact Hroom.
    - rewrite Hbuf, Hnc. reflexivity.
    - rewrite Hidx, Hnc. subst idxs. destruct shuffle;
        [apply permutation_idxs_bound, Hperm|apply seq_idxs_bound]. }
  rewrite (take_samples_window payload nb n it Hw).
  2:{ rewrite Hd, Hbsz. cbn [np_dtype_of].
      pose proof (Nat.Div0.mul_div_le cs block_size). subst nb. nia. }
  rewrite Hci, Hidx, Hd, Hbsz, Hlen, Nat.sub_0_r. cbn [drop np_dtype_of].
  unfold end_of_window. rewrite Hfi, Hfn, Hnc, Hwrap, length_drop. reflexivity.
Qed.

(** X9. What a caller of a constructed iterator can meet, when the sizes
    the first header announces fit a signed 64-bit word (the bytes of
    chunk_size elements, and the bytes of the window's block indices).
    Every result of next() after the constructor returned is either a
    sample of exactly block_size values, or one of three exceptions:
    StopIteration, UnboundLocalError (the reload that cannot run), or
    ValueError (the payload is shorter than its header announces). In
    particular next() never divides by zero and never indexes outside the
    window. *)
Theorem constructed_iterator_outcomes client filenames n_chunks block_size seed
    shuffle wrap (it : t) (n : nat) :
  permutation_contract ->
  __init__ client filenames n_chunks block_size seed shuffle wrap = Ret tt it ->
  fits_ssize (8 * length (_block_idxs it)) ->
  (forall d cs,
      _dtype it = Some d -> _chunk_size it = Some cs ->
      fits_ssize (itemsize d * cs)) ->
  Forall (fun r => match r with
                   | inr x => length x = block_size
                   | inl e => e = StopIteration \/ e = UnboundLocalError
                              \/ e = ValueError
                   end) (take_samples __next__ n it).
Proof.
  intros Hperm Hinit _ _.
  destruct (__init___window_ok _ _ _ _ _ _ _ _ Hperm Hinit)
    as (payload & nb & Hw & Hbs).
  rewrite <- Hbs. apply (take_samples_window_any payload nb n it Hw).
Qed.
End Stream.

Lemma constructed_iterator_stream_witness :
  exists it,
    @PackedDatasetIterator.__init__ demo_numpy demo_storage
      ["f0"; "f1"; "f2"; "f3"] 2 2 1 true true = Ret tt it
    /\ take_samples (@PackedDatasetIterator.__next__ demo_numpy) 6 it
       = [inr [2; 3]; inr [160; 1]; inr [2; 3]; inr [160; 1];
          inl UnboundLocalError]%Z.
Proof.
  assert (Hroom : 1 <= 2 <= length ["f0"; "f1"; "f2"; "f3"]) by (cbn; lia).
  assert (Hseed : true = false \/ (0 <= 1)%Z) by (right; lia).
  destruct (@constructed_iterator_stream demo_numpy demo_storage
              ["f0"; "f1"; "f2"; "f3"] 2 2 1 true true "f0" uint8 4
              (BytesIO.mk (demo_storage bucket_name "f0") HDR_SIZE) 6
              demo_permutation_contract Hseed Hroom eq_refl eq_refl
              ltac:(discriminate) ltac:(vm_compute; lia)
              ltac:(vm_compute; reflexivity) ltac:(vm_compute; reflexivity))
    as (it & Hinit & Hrun).
  exists it. split; [exact Hinit|]. rewrite Hrun. vm_compute. reflexivity.
Defined.

Lemma constructed_iterator_outcomes_witness :
  Forall (fun r => match r with
                   | inr x => length x = 2
                   | inl e => e = StopIteration \/ e = UnboundLocalError
                              \/ e = ValueError
                   end)
    (take_samples (@PackedDatasetIterator.__next__ demo_numpy) 6
       (final_state
          (@PackedDatasetIterator.__init__ demo_numpy demo_storage
             ["f0"; "f1"] 2 2 1 true false))).
Proof.
  apply (@constructed_iterator_outcomes demo_numpy demo_storage ["f0"; "f1"]
           2 2 1 true false _ 6 demo_permutation_contract).
  - vm_compute. reflexivity.
  - vm_compute. reflexivity.
  - intros d cs Hd Hcs. vm_compute in Hd, Hcs.
    injection Hd as <-. injection Hcs as <-. vm_compute. reflexivity.
Defined.

(** ** The values of a sample *)

Section Values.
Context `{NumpyRuntime}.
Import PackedDatasetIterator.

Lemma split_elements_sizes size count bs :
  Forall (fun e => length e <= size) (split_elements size count bs).
Proof.
  revert bs. induction count as [|count IH]; intros bs; [constructor|].
  cbn [split_elements]. constructor; [|apply IH].
  rewrite length_take. lia.
Qed.

Lemma le_unsigned_below (bs : list byte) (size : nat) :
  length bs <= size -> (0 <= le_unsigned bs < 256 ^ Z.of_nat size)%Z.
Proof.
  intros Hlen. pose proof (le_unsigned_range bs) as Hr.
  assert ((256 ^ Z.of_nat (length bs) <= 256 ^ Z.of_nat size)%Z)
    by (apply Z.pow_le_mono_r; lia).
  lia.
Qed.

Lemma element_int64_range (d : np_dtype) (bs : list byte) lo hi :
  int_range d = Some (lo, hi) ->
  length bs <= itemsize d ->
  (lo <= element_int64 d bs <= hi)%Z.
Proof.
  intros Hr Hlen. pose proof (le_unsigned_below bs (itemsize d) Hlen) as Hu.
  destruct d; cbn in Hr; try discriminate;
    assert (Hlo : lo = fst (lo, hi)) by reflexivity;
    assert (Hhi : hi = snd (lo, hi)) by reflexivity;
    injection Hr as <- <-;
    unfold element_int64, to_signed; cbn [itemsize] in Hu;
    try destruct (_ <? _)%Z eqn:Hs;
    try (apply Z.ltb_lt in Hs); try (apply Z.ltb_ge in Hs);
    change (256 ^ Z.of_nat 1)%Z with 256%Z in Hu;
    change (256 ^ Z.of_nat 2)%Z with 65536%Z in Hu;
    change (256 ^ Z.of_nat 4)%Z with 4294967296%Z in Hu;
    change (256 ^ Z.of_nat 8)%Z with 18446744073709551616%Z in Hu;
    cbn in *; lia.
Qed.

Lemma astype_int64_range (d : np_dtype) (arr : list (list byte)) lo hi :
  int_range d = Some (lo, hi) ->
  Forall (fun e => length e <= itemsize d) arr ->
  Forall (fun v => (lo <= v <= hi)%Z) (astype_int64 d arr).
Proof.
  intros Hr Harr. unfold astype_int64. apply Forall_fmap.
  eapply Forall_impl; [exact Harr|].
  intros e He. apply element_int64_range; assumption.
Qed.

Lemma frombuffer_sizes buffer dtype count offset arr :
  frombuffer buffer dtype count offset = inr arr ->
  Forall (fun e => length e <= itemsize dtype) arr.
Proof.
  unfold frombuffer. intros Hfb.
  repeat match type of Hfb with
         | (if ?c then _ else _) = _ => destruct c
         end; try discriminate Hfb.
  injection Hfb as <-. apply split_elements_sizes.
Qed.

(** X10. The values of a sample are in the range of the locked dtype: when
    next() returns and the iterator's dtype is one of the six integer dtypes
    of the table, every value of the sample lies between that dtype's
    smallest and largest value (0..255 for uint8, 0..65535 for uint16,
    -2^(w-1)..2^(w-1)-1 for the signed w-bit ones), whatever bytes the
    file holds. *)
Theorem sample_values_in_dtype_range (s s' : t) (x : list Z) d lo hi :
  __next__ s = Ret x s' ->
  _dtype s' = Some d ->
  int_range d = Some (lo, hi) ->
  Forall (fun v => (lo <= v <= hi)%Z) x.
Proof.
  intros Hnext Hd Hr.
  destruct (__next___cases s) as (s1 & _ & Hout).
  rewrite Hnext in Hout.
  destruct Hout as [Ho|[Ho|[Ho|[Ho|[(e & _ & Ho)|Ho]]]]]; try discriminate Ho.
  destruct Ho as (b & nb & buffer & arr & _ & _ & _ & _ & Hfb & Ho).
  injection Ho as -> ->. change (_dtype s1 = Some d) in Hd.
  rewrite Hd in *. cbn [np_dtype_of] in *.
  apply astype_int64_range; [exact Hr|].
  eapply frombuffer_sizes, Hfb.
Qed.
End Values.

Lemma sample_values_in_dtype_range_witness :
  Forall (fun v => (0 <= v <= 2 ^ 8 - 1)%Z) [160; 1]%Z.
Proof.
  eapply (@sample_values_in_dtype_range demo_numpy
            (final_state
               (@PackedDatasetIterator.__init__ demo_numpy demo_storage
                  ["f0"; "f1"] 2 2 0 false false))
            _ [160; 1]%Z uint8 0%Z (2 ^ 8 - 1)%Z);
    vm_compute; reflexivity.
Defined.

(** ** Shards with no files *)

Section EmptyShard.
Context `{NumpyRuntime}.

Lemma py_slice_empty_stop {A} (l : list A) (start step : nat) :
  step <> 0 -> py_slice l start 0 step = inr [].
Proof.
  intros Hstep. unfold py_slice.
  destruct (Nat.eqb_spec step 0); [contradiction|]. cbv zeta.
  replace (0 `min` length l) with 0 by lia.
  replace (_ <? 0) with false by (symmetry; apply Nat.ltb_ge; lia).
  reflexivity.
Qed.

Lemma __init___empty_shard client n_chunks block_size seed shuffle wrap :
  shuffle = false \/ (0 <= seed)%Z ->
  exists s',
    PackedDatasetIterator.__init__ client [] n_chunks block_size seed shuffle wrap
    = Raise (if n_chunks =? 0 then TypeError
             else if wrap then IndexError else StopIteration) s'.
Proof.
  intros Hseed. rewrite __init___fresh by exact Hseed.
  rewrite (_load_n_chunks_fresh client [] n_chunks block_size seed shuffle wrap).
  cbv zeta. cbn [length].
  destruct (Nat.eqb_spec n_chunks 0) as [->|Hn].
  - cbn. eauto.
  - replace (0 <? n_chunks) with true by (symmetry; apply Nat.ltb_lt; lia).
    destruct wrap; cbn [negb andb]; [|eauto].
    rewrite for_each_load_no_file; [eauto|reflexivity|lia].
Qed.

(** X11. More shards than files. When the number of shards (workers times
    processes) is 0, iterating raises ZeroDivisionError. When it exceeds the
    number of files, every shard, whatever its id, is the empty list, so no
    iterator can be built: __iter__ raises ValueError if shuffling is on and
    the seed is negative, and otherwise TypeError if n_chunks is 0, else
    IndexError if wrap is on and StopIteration if it is off, without
    fetching any file. *)
Theorem iter_more_shards_than_files (client : Storage)
    (worker_info : option PackedDataset.WorkerInfo) (dataset : PackedDataset.t) :
  let num_shards := PackedDataset.num_shards worker_info dataset in
  (num_shards = 0 ->
   PackedDataset.__iter__ client worker_info dataset = inl ZeroDivisionError)
  /\ (length (PackedDataset._filenames dataset) < num_shards ->
      PackedDataset.shard_filenames worker_info dataset = inr []
      /\ PackedDataset.__iter__ client worker_info dataset
         = inl (if PackedDataset._shuffle dataset
                   && (PackedDataset._seed dataset <? 0)%Z
                then ValueError
                else if PackedDataset._n_chunks dataset =? 0 then TypeError
                else if PackedDataset._wrap dataset then IndexError
                     else StopIteration)).
Proof.
  intros num_shards. split.
  - intros Hz. unfold PackedDataset.__iter__, PackedDataset.shard_filenames.
    fold num_shards. rewrite Hz. reflexivity.
  - intros Hlt.
    assert (Hshard : PackedDataset.shard_filenames worker_info dataset = inr []).
    { unfold PackedDataset.shard_filenames. fold num_shards.
      destruct (Nat.eqb_spec num_shards 0) as [Hz|Hnz]; [lia|].
      rewrite Nat.div_small by exact Hlt. cbn [Nat.mul].
      apply py_slice_empty_stop. exact Hnz. }
    split; [exact Hshard|].
    unfold PackedDataset.__iter__. rewrite Hshard.
    destruct (PackedDataset._shuffle dataset) eqn:Hsh;
      [destruct (Z.ltb_spec (PackedDataset._seed dataset) 0) as [Hneg|Hpos]|];
      cbn [andb].
    + destruct (__init___negative_seed client [] (PackedDataset._n_chunks dataset)
                  (PackedDataset._block_size dataset) (PackedDataset._seed dataset)
                  (PackedDataset._wrap dataset) Hneg) as (s' & ->).
      reflexivity.
    + destruct (__init___empty_shard client (PackedDataset._n_chunks dataset)
                  (PackedDataset._block_size dataset) (PackedDataset._seed dataset)
                  true (PackedDataset._wrap dataset) (or_intror Hpos))
        as (s' & ->).
      reflexivity.
    + destruct (__init___empty_shard client (PackedDataset._n_chunks dataset)
                  (PackedDataset._block_size dataset) (PackedDataset._seed dataset)
                  false (PackedDataset._wrap dataset) (or_introl eq_refl))
        as (s' & ->).
      reflexivity.
Qed.
End EmptyShard.

Lemma iter_more_shards_than_files_witness :
  @PackedDataset.__iter__ demo_numpy demo_storage
    (Some {| PackedDataset.num_workers := 2; PackedDataset.id := 1 |})
    (PackedDataset.mk ["f0"; "f1"; "f2"] 1 2 12345 false false 2 0)
  = inl StopIteration.
Proof.
  apply (proj2 (proj2 (@iter_more_shards_than_files demo_numpy demo_storage
           (Some {| PackedDataset.num_workers := 2; PackedDataset.id := 1 |})
           (PackedDataset.mk ["f0"; "f1"; "f2"] 1 2 12345 false false 2 0))
           ltac:(vm_compute; lia))).
Defined.

(** ** The combinator's errors *)

Section CombinatorErrors.
Context `{PyRandom} {D I : Type} `{Iterable D I}.
Import CombinedDatasetIterator.

Lemma accumulate_from_zeros (n : nat) :
  accumulate_from 0%float (replicate n 0%float) = replicate n 0%float.
Proof.
  induction n as [|n IH]; [reflexivity|].
  cbn [replicate accumulate_from]. change (0 + 0)%float with 0%float.
  rewrite IH. reflexivity.
Qed.

Lemma accumulate_zeros (n : nat) :
  accumulate (replicate n 0%float) = replicate n 0%float.
Proof.
  destruct n as [|n]; [reflexivity|].
  cbn [replicate accumulate]. rewrite accumulate_from_zeros. reflexivity.
Qed.

Lemma last_replicate {A} (n : nat) (x : A) :
  1 <= n -> last (replicate n x) = Some x.
Proof.
  intros Hn. rewrite last_lookup, length_replicate.
  apply lookup_replicate_2. lia.
Qed.

(** X12. What the combinator does with weights it cannot use. next() raises
    ValueError when the number of weights differs from the number of
    datasets, when every weight is 0.0, and when the float total of the
    weights is not positive or not finite; it raises IndexError when there
    are neither datasets nor weights, which is where a combinator built
    from an empty list with explicit weights ends, while the same list with
    default weights is refused by the constructor with ZeroDivisionError.
    In each case no child is advanced and no random number is drawn: the
    iterator is left as it was. *)
Theorem combinator_rejects_bad_weights (self : t) :
  (length (_weights self) <> length (_datasets self) ->
   __next__ self = Raise ValueError self)
  /\ (1 <= length (_datasets self) ->
      _weights self = replicate (length (_datasets self)) 0%float ->
      __next__ self = Raise ValueError self)
  /\ (forall last_cum,
      length (_weights self) = length (_datasets self) ->
      last (accumulate (_weights self)) = Some last_cum ->
      (last_cum + 0 <=? 0)%float = true
      \/ is_finite (last_cum + 0)%float = false ->
      __next__ self = Raise ValueError self)
  /\ (_weights self = [] -> _datasets self = [] ->
      __next__ self = Raise IndexError self)
  /\ (forall seed,
      CombinedDataset.__init__ ([] : list D) seed None = inl ZeroDivisionError
      /\ exists dataset it,
          CombinedDataset.__init__ ([] : list D) seed (Some []) = inr dataset
          /\ CombinedDataset.__iter__ dataset = inr it
          /\ __next__ it = Raise IndexError it).
Proof.
  assert (Hbad : forall last_cum,
             length (_weights self) = length (_datasets self) ->
             last (accumulate (_weights self)) = Some last_cum ->
             (last_cum + 0 <=? 0)%float = true
             \/ is_finite (last_cum + 0)%float = false ->
             __next__ self = Raise ValueError self).
  { intros last_cum Hlen Hlast Hb. unfold __next__.
    rewrite (choices_unusable_total _ _ _ last_cum) by auto.
    destruct self; reflexivity. }
  repeat match goal with |- _ /\ _ => split end.
  - intros Hne. unfold __next__. rewrite choices_mismatch by exact Hne.
    destruct self; reflexivity.
  - intros Hn Hw. apply (Hbad 0%float).
    + rewrite Hw at 1. apply length_replicate.
    + rewrite Hw, accumulate_zeros. apply last_replicate, Hn.
    + left. reflexivity.
  - exact Hbad.
  - intros Hw Hd. destruct self as [ds ws g]. cbn in Hw, Hd. subst ds ws.
    reflexivity.
  - intros seed. split; [reflexivity|].
    eexists. eexists. split; [reflexivity|]. split; reflexivity.
Qed.
End CombinatorErrors.

Lemma combinator_rejects_bad_weights_witness :
  let self :=
    @CombinedDatasetIterator.mk demo_random PackedDatasetIterator.t
      [@demo_iterator demo_numpy demo_storage ["f0"] 1 2 false;
       @demo_iterator demo_numpy demo_storage ["f1"] 1 2 false]
      [0x1p1023%float; 0x1p1023%float] (@Random demo_random 7) in
  @CombinedDatasetIterator.__next__ demo_random _ _
    (@PackedDataset_Iterable demo_numpy demo_storage None) self
  = Raise ValueError self.
Proof.
  intros self.
  apply (proj1 (proj2 (proj2
           (@combinator_rejects_bad_weights demo_random _ _
              (@PackedDataset_Iterable demo_numpy demo_storage None) self)))
           infinity);
    [reflexivity|reflexivity|right; reflexivity].
Defined.

(** ** A combinator of packed datasets *)

Section CombinedPacked.
Context `{NumpyRuntime} `{PyRandom}.
Variable client : Storage.
Variable worker_info : option PackedDataset.WorkerInfo.

Local Abbreviation children := (PackedDataset_Iterable client worker_info).
Local Abbreviation combined_next :=
  (@CombinedDatasetIterator.__next__ _ _ _ children).
Local Abbreviation combined_iter :=
  (@CombinedDataset.__iter__ _ _ _ children).

Lemma sum_list_insert {A} (f : A -> nat) (l : list A) (i : nat) (a b : A) :
  l !! i = Some a ->
  sum_list (f <$> <[i := b]> l) + f a = sum_list (f <$> l) + f b.
Proof.
  revert i. induction l as [|x l IH]; intros i Hi; [discriminate|].
  destruct i as [|i].
  - injection Hi as ->. cbn. lia.
  - specialize (IH i Hi).
    change (f x + sum_list (f <$> <[i:=b]> l) + f a
            = f x + sum_list (f <$> l) + f b).
    rewrite <- !Nat.add_assoc. f_equal. exact IH.
Qed.

Lemma samples_of_cons_inr (x : sample) (run : list (exn + sample)) :
  samples_of (inr x :: run) = x :: samples_of run.
Proof. reflexivity. Qed.

(* a next() of the combinator that returns takes one block from one child *)
Lemma combined_next_returns (self self' : CombinedDatasetIterator.t) (x : sample) :
  Forall PackedDatasetIterator.constructed (CombinedDatasetIterator._datasets self) ->
  combined_next self = Ret x self' ->
  Forall PackedDatasetIterator.constructed (CombinedDatasetIterator._datasets self')
  /\ total_remaining (CombinedDatasetIterator._datasets self') + 1
     = total_remaining (CombinedDatasetIterator._datasets self).
Proof.
  intros Hall. unfold CombinedDatasetIterator.__next__.
  destruct (choices _ _ _) as [idx g|e g]; [|intros Hx; discriminate Hx].
  destruct (CombinedDatasetIterator._datasets self !! idx) as [child|] eqn:Hchild;
    [|intros Hx; discriminate Hx].
  change (@py_next _ _ children child)
    with (PackedDatasetIterator.__next__ child).
  destruct (PackedDatasetIterator.__next__ child) as [y child'|e child'] eqn:Hn;
    [|intros Hx; discriminate Hx].
  intros Hnext. injection Hnext as -> <-. cbn [CombinedDatasetIterator._datasets].
  pose proof (Forall_lookup_1 _ _ _ _ Hall Hchild) as Hc.
  destruct (proj1 (next_of_constructed child Hc) x child' Hn) as (Hlt & -> & Hc').
  split; [apply Forall_insert; assumption|].
  unfold total_remaining.
  pose proof (sum_list_insert remaining _ idx child
                (PackedDatasetIterator.set_curr_idx
                   (PackedDatasetIterator._curr_idx child + 1) child) Hchild) as Hs.
  unfold remaining at 2 4 in Hs. fields. lia.
Qed.

Lemma combined_take_bounded n :
  forall self : CombinedDatasetIterator.t,
    Forall PackedDatasetIterator.constructed (CombinedDatasetIterator._datasets self) ->
    length (samples_of (take_samples combined_next n self))
    <= total_remaining (CombinedDatasetIterator._datasets self).
Proof.
  induction n as [|n IH]; intros self Hall; [cbn; lia|].
  cbn [take_samples].
  destruct (combined_next self) as [x self'|e self'] eqn:Hnext; [|cbn; lia].
  destruct (combined_next_returns self self' x Hall Hnext) as [Hall' Hsum].
  rewrite samples_of_cons_inr. cbn [length].
  specialize (IH self' Hall'). lia.
Qed.

Lemma iter_all_constructed (datasets : list PackedDataset.t) its :
  @iter_all _ _ children datasets = inr its ->
  Forall PackedDatasetIterator.constructed its.
Proof.
  revert its. induction datasets as [|el rest IH]; intros its Hits; cbn in Hits.
  - injection Hits as <-. constructor.
  - unfold PackedDataset.__iter__ in Hits.
    destruct (PackedDataset.shard_filenames worker_info el) as [e|files];
      [discriminate|].
    destruct (PackedDatasetIterator.__init__ _ _ _ _ _ _ _) as [[] it|e it] eqn:Hinit;
      [|discriminate].
    destruct (@iter_all _ _ children rest) as [e|its'] eqn:Hrest; [discriminate|].
    injection Hits as <-. constructor; [|apply IH; reflexivity].
    eapply __init___constructed, Hinit.
Qed.

(** X13. A combined dataset of packed datasets is always finite. Each child
    serves the one window its constructor loaded and never a second one, so
    whatever the weights and whether wrap is on or off, the samples the
    combinator yields in any run are at most the blocks its children hold
    when it is spawned; each next() that returns takes exactly one block
    from exactly one child. *)
Theorem combined_packed_stream_is_finite (dataset : CombinedDataset.t)
    (it : CombinedDatasetIterator.t) (n : nat) :
  combined_iter dataset = inr it ->
  length (samples_of (take_samples combined_next n it))
  <= total_remaining (CombinedDatasetIterator._datasets it)
  /\ Forall (fun child => PackedDatasetIterator._curr_idx child = 0)
       (CombinedDatasetIterator._datasets it)
  /\ forall self self' x,
      Forall PackedDatasetIterator.constructed
        (CombinedDatasetIterator._datasets self) ->
      combined_next self = Ret x self' ->
      total_remaining (CombinedDatasetIterator._datasets self') + 1
      = total_remaining (CombinedDatasetIterator._datasets self).
Proof.
  intros Hiter. unfold CombinedDataset.__iter__, CombinedDatasetIterator.__init__
    in Hiter.
  destruct (@iter_all _ _ children (CombinedDataset._datasets dataset))
    as [e|its] eqn:Hits; [discriminate|].
  injection Hiter as <-. cbn [CombinedDatasetIterator._datasets].
  split; [|split].
  - apply (combined_take_bounded n
             (CombinedDatasetIterator.mk its (CombinedDataset._weights dataset)
                (Random (CombinedDataset._seed dataset)))).
    apply (iter_all_constructed _ _ Hits).
  - clear n. revert its Hits.
    induction (CombinedDataset._datasets dataset) as [|el rest IH];
      intros its Hits; cbn in Hits.
    + injection Hits as <-. constructor.
    + unfold PackedDataset.__iter__ in Hits.
      destruct (PackedDataset.shard_filenames worker_info el) as [e|files];
        [discriminate|].
      destruct (PackedDatasetIterator.__init__ _ _ _ _ _ _ _) as [[] c|e c]
        eqn:Hinit; [|discriminate].
      destruct (@iter_all _ _ children rest) as [e|its'] eqn:Hrest; [discriminate|].
      injection Hits as <-. constructor; [|apply IH; reflexivity].
      apply __init___returned in Hinit as [_ Hinit].
      destruct (_load_n_chunks_window _ _ Hinit) as (nb & _ & _ & Hci & _).
      exact Hci.
  - intros self self' x Hall Hnext.
    apply (combined_next_returns self self' x Hall Hnext).
Qed.
End CombinedPacked.

Lemma combined_packed_stream_is_finite_witness :
  let dataset :=
    CombinedDataset.mk 7
      [PackedDataset.mk ["f0"] 1 2 12345 false true 1 0;
       PackedDataset.mk ["f1"] 1 2 12345 false true 1 0]
      [1%float; 1%float] in
  match @CombinedDataset.__iter__ demo_random _ _
          (@PackedDataset_Iterable demo_numpy demo_storage None) dataset with
  | inl _ => False
  | inr it =>
    length (samples_of
              (take_samples
                 (@CombinedDatasetIterator.__next__ demo_random _ _
                    (@PackedDataset_Iterable demo_numpy demo_storage None)) 9 it))
    <= 4
  end.
Proof.
  intros dataset.
  destruct (@CombinedDataset.__iter__ demo_random _ _
              (@PackedDataset_Iterable demo_numpy demo_storage None) dataset)
    as [e|it] eqn:Hit.
  - vm_compute in Hit. discriminate Hit.
  - pose proof (proj1 (@combined_packed_stream_is_finite demo_numpy demo_random
                         demo_storage None dataset it 9 Hit)) as Hb.
    vm_compute in Hit. injection Hit as <-. exact Hb.
Defined.

(** ** After the window *)

Section Exhausted.
Context `{NumpyRuntime}.
Import PackedDatasetIterator.

(* a next() past the window leaves an iterator that is past its window and
   ends the same way *)
Lemma __next___exhausted s :
  constructed s ->
  length (_block_idxs s) <= _curr_idx s ->
  exists s',
    __next__ s = Raise (end_of_window s) s'
    /\ constructed s'
    /\ length (_block_idxs s') <= _curr_idx s'
    /\ end_of_window s' = end_of_window s
    /\ _buffers s' = [].
Proof.
  intros Hc Hge. unfold __next__. unfold_monad.
  replace (length (_block_idxs s) <=? _curr_idx s) with true
    by (symmetry; apply Nat.leb_le; exact Hge).
  rewrite (reload_raises s Hc). unfold end_of_window.
  destruct (Nat.ltb_spec (length (drop (_file_idx s) (_filenames s))) (_n_chunks s))
    as [Hshort|Hroom]; destruct (_wrap s) eqn:Hwrap; cbn [andb negb].
  - eexists. split; [reflexivity|].
    destruct (pre_loop_fields s)
      as (_ & _ & _ & Hbi & Hw & Hfn & Hnc & Hd & _ & _ & _ & Hbuf & Hci & _ & _ & Hfi).
    rewrite Hbi, Hci, Hw, Hwrap, andb_false_r, Hbuf.
    repeat split; try assumption.
    + rewrite Hd. apply Hc.
    + rewrite Hnc. apply Hc.
    + rewrite Hnc, Hfn. apply Hc.
  - eexists. split; [reflexivity|]. fields. rewrite Hwrap.
    replace (_ <? _) with true by (symmetry; apply Nat.ltb_lt; exact Hshort).
    repeat split; try assumption; apply Hc.
  - eexists. split; [reflexivity|].
    destruct (pre_loop_fields s)
      as (_ & _ & _ & Hbi & Hw & Hfn & Hnc & Hd & _ & _ & _ & Hbuf & Hci & _ & _ & Hfi).
    rewrite Hbi, Hci, Hw, Hwrap, andb_false_r, Hbuf.
    repeat split; try assumption.
    + rewrite Hd. apply Hc.
    + rewrite Hnc. apply Hc.
    + rewrite Hnc, Hfn. apply Hc.
  - eexists. split; [reflexivity|].
    destruct (pre_loop_fields s)
      as (_ & _ & _ & Hbi & Hw & Hfn & Hnc & Hd & _ & _ & _ & Hbuf & Hci & _ & _ & Hfi).
    rewrite Hbi, Hci, Hw, Hwrap, Hbuf, Hfn, Hnc, Hfi.
    replace (length (drop (_file_idx s) (_filenames s)) <? _n_chunks s)
      with false by (symmetry; apply Nat.ltb_ge; exact Hroom).
    replace (length (drop (_file_idx s) (_filenames s)) <? _n_chunks s)
      with false by (symmetry; apply Nat.ltb_ge; exact Hroom).
    cbn [andb]. repeat split; try assumption.
    + rewrite Hd. apply Hc.
    + rewrite Hnc. apply Hc.
    + rewrite Hnc, Hfn. apply Hc.
Qed.

(** X14. An exhausted iterator stays exhausted. Once the read cursor of a
    constructed iterator is past its window, every further next(), however
    often it is retried, raises the same exception (StopIteration when
    fewer than n_chunks files are left and wrap is off, UnboundLocalError
    otherwise), and from the first of these raises on the buffers are
    empty: no retry brings a sample back. *)
Theorem exhausted_iterator_stays_exhausted (s : t) (k : nat) :
  constructed s ->
  length (_block_idxs s) <= _curr_idx s ->
  let retried := Nat.iter k (fun s => final_state (__next__ s)) s in
  (exists s', __next__ retried = Raise (end_of_window s) s' /\ _buffers s' = [])
  /\ (end_of_window s = StopIteration \/ end_of_window s = UnboundLocalError).
Proof.
  intros Hc Hge retried. split.
  2:{ unfold end_of_window. destruct (_ && _); auto. }
  assert (Hinv : constructed retried
                 /\ length (_block_idxs retried) <= _curr_idx retried
                 /\ end_of_window retried = end_of_window s).
  { subst retried. induction k as [|k IH]; [auto|].
    rewrite Nat.iter_succ. destruct IH as (Hc' & Hge' & He').
    destruct (__next___exhausted _ Hc' Hge') as (s' & Hn & Hc'' & Hge'' & He'' & _).
    rewrite Hn. cbn [final_state]. repeat split; try apply Hc''; try assumption.
    congruence. }
  destruct Hinv as (Hc' & Hge' & He').
  destruct (__next___exhausted _ Hc' Hge') as (s' & Hn & _ & _ & _ & Hbuf).
  exists s'. rewrite <- He'. split; assumption.
Qed.
End Exhausted.

Lemma exhausted_iterator_stays_exhausted_witness :
  let it :=
    state_after (@PackedDatasetIterator.__next__ demo_numpy) 4
      (final_state
         (@PackedDatasetIterator.__init__ demo_numpy demo_storage
            ["f0"; "f1"; "f2"] 2 2 0 false false)) in
  exists s',
    @PackedDatasetIterator.__next__ demo_numpy
      (Nat.iter 3
         (fun s => final_state (@PackedDatasetIterator.__next__ demo_numpy s)) it)
    = Raise StopIteration s'
    /\ PackedDatasetIterator._buffers s' = [].
Proof.
  intros it.
  assert (Hc : @PackedDatasetIterator.constructed demo_numpy it).
  { split; [vm_compute; eauto|]. vm_compute. lia. }
  assert (Hge : length (PackedDatasetIterator._block_idxs it)
                <= PackedDatasetIterator._curr_idx it) by (vm_compute; lia).
  exact (proj1 (@exhausted_iterator_stays_exhausted demo_numpy it 3 Hc Hge)).
Defined.

(** ** Workers and ranks *)

Section Workers.
Context `{NumpyRuntime}.

Lemma shard_id_inj (nw r1 i1 r2 i2 : nat) :
  i1 < nw -> i2 < nw -> r1 * nw + i1 = r2 * nw + i2 -> r1 = r2 /\ i1 = i2.
Proof.
  intros H1 H2 Heq.
  assert (Hr : r1 = r2).
  { pose proof (Nat.div_unique (r1 * nw + i1) nw r1 i1 ltac:(lia) ltac:(lia)) as E1.
    pose proof (Nat.div_unique (r2 * nw + i2) nw r2 i2 ltac:(lia) ltac:(lia)) as E2.
    rewrite Heq in E1. congruence. }
  subst r2. split; [reflexivity|lia].
Qed.

Lemma shard_files_disjoint (filenames : list string) (k s1 s2 : nat) f :
  NoDup filenames -> 1 <= k -> s1 < k -> s2 < k -> s1 <> s2 ->
  f ∈ (fun p => filenames !!! p) <$> shard_positions (length filenames) k s1 ->
  f ∉ (fun p => filenames !!! p) <$> shard_positions (length filenames) k s2.
Proof.
  intros Hnd Hk Hs1 Hs2 Hne Hin1 Hin2.
  apply list_elem_of_fmap in Hin1. destruct Hin1 as (p1 & -> & Hp1).
  apply list_elem_of_fmap in Hin2. destruct Hin2 as (p2 & Heq & Hp2).
  pose proof (proj1 (elem_of_shard_positions _ _ Hk _ _ Hs1) Hp1) as [Hb1 _].
  pose proof (proj1 (elem_of_shard_positions _ _ Hk _ _ Hs2) Hp2) as [Hb2 _].
  pose proof (Nat.Div0.mul_div_le (length filenames) k) as Hle.
  assert (Hl1 : p1 < length filenames) by lia.
  assert (Hl2 : p2 < length filenames) by lia.
  assert (p1 = p2).
  { eapply NoDup_lookup; [exact Hnd| |].
    - apply list_lookup_lookup_total_lt. exact Hl1.
    - rewrite Heq. apply list_lookup_lookup_total_lt. exact Hl2. }
  subst p2. exact (shard_positions_disjoint _ _ Hk _ _ _ Hs1 Hs2 Hne Hp1 Hp2).
Qed.

(** X15. No two workers read the same file. With num_processes processes of
    num_workers dataloader workers each, a worker (rank, id) with
    rank < num_processes and id < num_workers gets the shard
    rank * num_workers + id, which is below the number of shards and
    belongs to no other (rank, id) pair; so for a file list without
    repetitions, the file lists two different workers hand to their
    iterators have no file in common, and each has
    len(filenames) // num_shards files. *)
Theorem workers_read_disjoint_files (dataset1 dataset2 : PackedDataset.t)
    (w1 w2 : PackedDataset.WorkerInfo) :
  let num_shards := PackedDataset.num_shards (Some w1) dataset1 in
  PackedDataset._filenames dataset2 = PackedDataset._filenames dataset1 ->
  PackedDataset._num_processes dataset2 = PackedDataset._num_processes dataset1 ->
  PackedDataset.num_workers w2 = PackedDataset.num_workers w1 ->
  PackedDataset._process_rank dataset1 < PackedDataset._num_processes dataset1 ->
  PackedDataset._process_rank dataset2 < PackedDataset._num_processes dataset1 ->
  PackedDataset.id w1 < PackedDataset.num_workers w1 ->
  PackedDataset.id w2 < PackedDataset.num_workers w1 ->
  (PackedDataset._process_rank dataset1, PackedDataset.id w1)
  <> (PackedDataset._process_rank dataset2, PackedDataset.id w2) ->
  NoDup (PackedDataset._filenames dataset1) ->
  PackedDataset.shard_id (Some w1) dataset1 < num_shards
  /\ PackedDataset.shard_id (Some w1) dataset1
     <> PackedDataset.shard_id (Some w2) dataset2
  /\ exists files1 files2,
      PackedDataset.shard_filenames (Some w1) dataset1 = inr files1
      /\ PackedDataset.shard_filenames (Some w2) dataset2 = inr files2
      /\ length files1 = length (PackedDataset._filenames dataset1) / num_shards
      /\ length files2 = length (PackedDataset._filenames dataset1) / num_shards
      /\ forall f, f ∈ files1 -> f ∉ files2.
Proof.
  intros num_shards Hfn Hnp Hnw Hr1 Hr2 Hi1 Hi2 Hne Hnd.
  set (nw := PackedDataset.num_workers w1) in *.
  set (np := PackedDataset._num_processes dataset1) in *.
  set (s1 := PackedDataset.shard_id (Some w1) dataset1).
  set (s2 := PackedDataset.shard_id (Some w2) dataset2).
  assert (Hk : num_shards = nw * np) by reflexivity.
  assert (Hk2 : PackedDataset.num_shards (Some w2) dataset2 = num_shards).
  { unfold PackedDataset.num_shards. rewrite Hnw, Hnp. reflexivity. }
  assert (Hs1 : s1 < num_shards).
  { rewrite Hk. apply shard_id_bound; assumption. }
  assert (Hs2 : s2 < num_shards).
  { rewrite Hk. unfold s2, PackedDataset.shard_id. rewrite Hnw.
    apply shard_id_bound; assumption. }
  assert (Hs : s1 <> s2).
  { unfold s1, s2, PackedDataset.shard_id. rewrite Hnw. fold nw. intros Heq.
    apply shard_id_inj in Heq; [|assumption..].
    destruct Heq as [Hr Hi]. apply Hne. rewrite Hr, Hi. reflexivity. }
  assert (Hpos : 1 <= num_shards) by lia.
  split; [exact Hs1|]. split; [exact Hs|].
  eexists. eexists.
  split.
  { unfold PackedDataset.shard_filenames. fold num_shards. fold s1.
    destruct (Nat.eqb_spec num_shards 0); [lia|].
    apply (py_slice_shard _ _ _ Hpos Hs1). }
  split.
  { unfold PackedDataset.shard_filenames. rewrite Hk2. fold s2.
    destruct (Nat.eqb_spec num_shards 0); [lia|]. rewrite Hfn.
    apply (py_slice_shard _ _ _ Hpos Hs2). }
  split; [|split].
  - rewrite length_fmap. unfold shard_positions. rewrite length_fmap, length_seq.
    reflexivity.
  - rewrite length_fmap. unfold shard_positions. rewrite length_fmap, length_seq.
    reflexivity.
  - intros f. apply shard_files_disjoint; assumption.
Qed.
End Workers.

Lemma workers_read_disjoint_files_witness :
  let dataset rank :=
    PackedDataset.mk ["f0"; "f1"; "f2"; "f3"; "f4"] 1 2 12345 false false 2 rank in
  let worker i := {| PackedDataset.num_workers := 2; PackedDataset.id := i |} in
  exists files1 files2,
    PackedDataset.shard_filenames (Some (worker 1)) (dataset 0) = inr files1
    /\ PackedDataset.shard_filenames (Some (worker 0)) (dataset 1) = inr files2
    /\ forall f, f ∈ files1 -> f ∉ files2.
Proof.
  intros dataset worker.
  assert (Hnd : NoDup ["f0"; "f1"; "f2"; "f3"; "f4"]).
  { apply NoDup_ListNoDup. repeat constructor; cbn; intuition discriminate. }
  destruct (@workers_read_disjoint_files (dataset 0) (dataset 1) (worker 1)
              (worker 0) eq_refl eq_refl eq_refl
              ltac:(cbn; lia) ltac:(cbn; lia) ltac:(cbn; lia) ltac:(cbn; lia)
              ltac:(cbn; congruence) Hnd)
    as (_ & _ & files1 & files2 & H1 & H2 & _ & _ & Hdisj).
  exists files1, files2. repeat split; assumption.
Defined.
